(** * pyspur workflow editor: node factory, handle renaming, workflow
    serialisation and the numeric sidebar field

    A shallow embedding of the JavaScript of
      - [createNode]            (node factory),
      - [updateMessageVariables], [handleSchemaKeyEdit]
                                (components/nodes/OutputDisplayNode.jsx and
                                 its copy in NodeOutputDisplay.jsx),
      - [saveWorkflow]          (the useSaveWorkflow hook),
      - [handleInputChange] and the free numeric input of [renderField]
                                (components/nodes/nodeSidebar/NodeSidebar.jsx),
    together with the fragment of the JavaScript run time these functions
    rely on: property reads with optional chaining, object spread, strict
    equality, [String.prototype.trim], [new RegExp] and the global
    [String.prototype.replace], [parseFloat] and [isNaN].

    Conventions.
      - A JavaScript string is a [string]; its characters stand for the
        UTF-16 code units 0..255.
      - A JavaScript object is a finite map from property names to values
        ([gmap string value]); the enumeration order of an object is the
        order of [map_to_list].
      - A JavaScript number is an IEEE 754 binary64 value ([spec_float]).
      - A computation that can throw returns an [outcome]; [Unsupported]
        marks an input on which the run time leaves the modelled fragment
        (for instance a regular expression with a character class). *)

From Stdlib Require Import ZArith Ascii String.
From Stdlib.Floats Require Import SpecFloat.
From stdpp Require Import gmap strings list fin_maps.

Local Open Scope Z_scope.
Local Open Scope nat_scope.

(** ** Outcomes: normal completion, a thrown exception, or an input outside
    the modelled fragment *)

Inductive error := TypeError | SyntaxError.

Inductive outcome (A : Type) :=
| Ok (a : A)
| Throw (e : error)
| Unsupported.
Arguments Ok {A} a.
Arguments Throw {A} e.
Arguments Unsupported {A}.

Definition obind {A B} (m : outcome A) (f : A -> outcome B) : outcome B :=
  match m with
  | Ok a => f a
  | Throw e => Throw e
  | Unsupported => Unsupported
  end.

Notation "'let*' x ':=' m 'in' k" := (obind m (fun x => k))
  (at level 10, x name, m at level 100, k at level 200).

(** [xs.map(f)] where the callback can throw: elements are visited from
    left to right *)
Fixpoint omap {A B} (f : A -> outcome B) (l : list A) : outcome (list B) :=
  match l with
  | [] => Ok []
  | x :: l' =>
      let* y := f x in
      let* ys := omap f l' in
      Ok (y :: ys)
  end.

(** ** Numbers *)

Definition number := spec_float.

Definition prec64 : Z := 53.
Definition emax64 : Z := 1024.

(** the binary64 value of an integer literal *)
Definition number_of_Z (z : Z) : number :=
  binary_normalize prec64 emax64 z 0 false.

Definition NaN : number := S754_nan.

(** [isNaN(x)] for a number [x] *)
Definition isNaN (x : number) : bool :=
  match x with S754_nan => true | _ => false end.

(** ** Values *)

#[local] Set Warnings "-register-all".

Inductive value :=
| VUndefined
| VNull
| VBool (b : bool)
| VNum (n : number)
| VStr (s : string)
| VObj (props : gmap string value)
| VArr (elems : list value).

Definition VZ (z : Z) : value := VNum (number_of_Z z).

(** ToBoolean *)
Definition truthy (v : value) : bool :=
  match v with
  | VUndefined | VNull => false
  | VBool b => b
  | VNum n =>
      match n with
      | S754_zero _ | S754_nan => false
      | _ => true
      end
  | VStr s => negb (String.eqb s "")
  | VObj _ | VArr _ => true
  end.

Definition nullish (v : value) : bool :=
  match v with VUndefined | VNull => true | _ => false end.

(** [a || b] *)
Definition js_or (a b : value) : value := if truthy a then a else b.

(** The properties every plain object inherits from [Object.prototype]:
    reading one of these names from an object that has no own property of
    that name yields a built-in, which is outside the modelled values. *)
Definition object_prototype_names : list string :=
  [ "constructor"; "__proto__"; "hasOwnProperty"; "isPrototypeOf";
    "propertyIsEnumerable"; "toString"; "toLocaleString"; "valueOf";
    "__defineGetter__"; "__defineSetter__"; "__lookupGetter__";
    "__lookupSetter__" ].

Definition inherited (k : string) : bool :=
  existsb (String.eqb k) object_prototype_names.

(** [v[k]] / [v.k] *)
Definition getprop (v : value) (k : string) : outcome value :=
  match v with
  | VUndefined | VNull => Throw TypeError
  | VObj m =>
      match m !! k with
      | Some x => Ok x
      | None => if inherited k then Unsupported else Ok VUndefined
      end
  | VBool _ | VNum _ => if inherited k then Unsupported else Ok VUndefined
  | VStr _ | VArr _ => Unsupported
  end.

(** [v?.[k]] / [v?.k], where [v] itself comes out of a chain that may have
    been cut short: [None] is a chain that has already short-circuited *)
Definition optprop (v : value) (k : string) : outcome (option value) :=
  if nullish v then Ok None
  else let* x := getprop v k in Ok (Some x).

(** the value of an optional chain *)
Definition chain_value (c : option value) : value := default VUndefined c.

(** [{...v}]: the own enumerable properties that a spread copies *)
Definition spread (v : value) : outcome (gmap string value) :=
  match v with
  | VObj m => Ok m
  | VUndefined | VNull | VBool _ | VNum _ => Ok ∅
  | VStr s => if String.eqb s "" then Ok ∅ else Unsupported
  | VArr l => match l with [] => Ok ∅ | _ => Unsupported end
  end.

(** [{...base, ...src}]: later properties win *)
Definition assign (base src : gmap string value) : gmap string value :=
  src ∪ base.

(** [a === b]; two objects are equal when they are the same object, which
    a value without identity cannot tell *)
Definition strict_eq (a b : value) : outcome bool :=
  match a, b with
  | VUndefined, VUndefined => Ok true
  | VNull, VNull => Ok true
  | VBool x, VBool y => Ok (Bool.eqb x y)
  | VNum x, VNum y => Ok (SFeqb x y)
  | VStr x, VStr y => Ok (String.eqb x y)
  | (VObj _ | VArr _), (VObj _ | VArr _) => Unsupported
  | _, _ => Ok false
  end.

(** ToPropertyKey, for a computed member access [o[v]] *)
Definition to_property_key (v : value) : outcome string :=
  match v with
  | VStr s => Ok s
  | VUndefined => Ok "undefined"
  | VNull => Ok "null"
  | VBool true => Ok "true"
  | VBool false => Ok "false"
  | VNum _ | VObj _ | VArr _ => Unsupported
  end.

(** [Object.keys(v)] *)
Definition object_keys (v : value) : outcome (list string) :=
  match v with
  | VUndefined | VNull => Throw TypeError
  | VObj m => Ok (map_to_list m).*1
  | VBool _ | VNum _ => Ok []
  | VStr s => if String.eqb s "" then Ok [] else Unsupported
  | VArr l => match l with [] => Ok [] | _ => Unsupported end
  end.

(** [Object.fromEntries(entries)] *)
Definition object_fromEntries (entries : list (string * value)) : value :=
  VObj (list_to_map entries).

(** [arr.find(pred)] with a callback that can throw *)
Fixpoint array_find (pred : value -> outcome bool) (l : list value)
  : outcome value :=
  match l with
  | [] => Ok VUndefined
  | x :: l' =>
      let* b := pred x in
      if b then Ok x else array_find pred l'
  end.

(** ** Strings *)

(** the code units below 256 that [\s] and [trim] treat as white space:
    TAB, LF, VT, FF, CR, SPACE and NO-BREAK SPACE *)
Definition isWhiteSpace (c : ascii) : bool :=
  match c with
  | "009" | "010" | "011" | "012" | "013" | " " | "160" => true
  | _ => false
  end%char.

Definition isLineTerminator (c : ascii) : bool :=
  match c with "010" | "013" => true | _ => false end%char.

Definition isDigit (c : ascii) : bool :=
  match c with
  | "0" | "1" | "2" | "3" | "4" | "5" | "6" | "7" | "8" | "9" => true
  | _ => false
  end%char.

Definition isWordChar (c : ascii) : bool :=
  let n := nat_of_ascii c in
  isDigit c || Ascii.eqb c "_"
  || ((65 <=? n) && (n <=? 90)) || ((97 <=? n) && (n <=? 122)).

Fixpoint trimStart (s : string) : string :=
  match s with
  | String c s' => if isWhiteSpace c then trimStart s' else s
  | EmptyString => EmptyString
  end.

Fixpoint trimEnd (s : string) : string :=
  match s with
  | String c s' =>
      match trimEnd s' with
      | EmptyString => if isWhiteSpace c then EmptyString else String c EmptyString
      | t => String c t
      end
  | EmptyString => EmptyString
  end.

(** [s.trim()] *)
Definition trim (s : string) : string := trimEnd (trimStart s).

(** [s.includes(c)] for a one-character needle *)
Fixpoint includes_char (c : ascii) (s : string) : bool :=
  match s with
  | String c' s' => Ascii.eqb c c' || includes_char c s'
  | EmptyString => false
  end.

(** the first [n] code units of [s] *)
Fixpoint str_take (n : nat) (s : string) : string :=
  match n, s with
  | S n', String c s' => String c (str_take n' s')
  | _, _ => EmptyString
  end.

(** ** Regular expressions

    The fragment of the pattern language (without flags [u], [v], [i],
    [m], [s]) that is modelled: literal characters, [.], the class
    escapes [\s \S \d \D \w \W], the control escapes [\t \n \v \f \r],
    identity escapes, capturing groups, alternation and the quantifiers
    [* + ?] with their lazy forms.  Assertions, character classes [[...]],
    braced quantifiers, group specifiers [(?...)], back references and
    hexadecimal or control-letter escapes are [Unsupported]. *)

Inductive charset := CsSpace | CsDigit | CsWord.

Definition in_charset (cs : charset) (c : ascii) : bool :=
  match cs with
  | CsSpace => isWhiteSpace c
  | CsDigit => isDigit c
  | CsWord => isWordChar c
  end.

Inductive regex :=
| REmpty
| RChar (c : ascii)
| RAny
| RSet (negated : bool) (cs : charset)
| RSeq (r1 r2 : regex)
| RAlt (r1 r2 : regex)
| RGroup (r : regex)
| RQuant (min : nat) (max : option nat) (greedy : bool) (r : regex).

(** *** Parsing a pattern ([new RegExp(pattern)]) *)

(** what the parser has just read, which decides whether a quantifier may
    follow *)
Inductive last_term :=
| LStart   (** the start of an alternative *)
| LOpen    (** an opening parenthesis *)
| LAtom    (** an atom *)
| LBrace   (** a literal opening brace *)
| LQuant   (** a greedy quantifier *)
| LLazy.   (** a lazy quantifier *)

(** the alternatives of the disjunction being read: the finished ones and
    the terms of the current one, both latest first *)
Record pframe := { f_alts : list regex; f_seq : list regex }.

Record pstate := {
  p_stack : list pframe;   (** the enclosing groups, innermost first *)
  p_cur : pframe;
  p_last : last_term;
  p_esc : bool;            (** a backslash has just been read *)
  p_groups : nat           (** capturing groups opened so far *)
}.

Definition seq_regex (terms : list regex) : regex :=
  foldr RSeq REmpty (rev terms).

Definition frame_regex (f : pframe) : regex :=
  fold_left (fun acc a => RAlt a acc) (f_alts f) (seq_regex (f_seq f)).

Definition pstate_init : pstate :=
  {| p_stack := []; p_cur := {| f_alts := []; f_seq := [] |};
     p_last := LStart; p_esc := false; p_groups := 0 |}.

Definition push_atom (st : pstate) (r : regex) (l : last_term) : pstate :=
  {| p_stack := p_stack st;
     p_cur := {| f_alts := f_alts (p_cur st); f_seq := r :: f_seq (p_cur st) |};
     p_last := l; p_esc := false; p_groups := p_groups st |}.

(** replace the latest term by [f] of it *)
Definition map_last (st : pstate) (f : regex -> regex) (l : last_term)
  : outcome pstate :=
  match f_seq (p_cur st) with
  | a :: terms =>
      Ok {| p_stack := p_stack st;
            p_cur := {| f_alts := f_alts (p_cur st); f_seq := f a :: terms |};
            p_last := l; p_esc := false; p_groups := p_groups st |}
  | [] => Throw SyntaxError
  end.

Definition quantify (st : pstate) (min : nat) (max : option nat)
  : outcome pstate :=
  match p_last st with
  | LAtom | LBrace => map_last st (RQuant min max true) LQuant
  | _ => Throw SyntaxError     (* nothing to repeat *)
  end.

Definition make_lazy (r : regex) : regex :=
  match r with
  | RQuant min max _ a => RQuant min max false a
  | _ => r
  end.

(** the character after a backslash *)
Definition pescape (st : pstate) (c : ascii) : outcome pstate :=
  match c with
  | "s" => Ok (push_atom st (RSet false CsSpace) LAtom)
  | "S" => Ok (push_atom st (RSet true CsSpace) LAtom)
  | "d" => Ok (push_atom st (RSet false CsDigit) LAtom)
  | "D" => Ok (push_atom st (RSet true CsDigit) LAtom)
  | "w" => Ok (push_atom st (RSet false CsWord) LAtom)
  | "W" => Ok (push_atom st (RSet true CsWord) LAtom)
  | "t" => Ok (push_atom st (RChar "009") LAtom)
  | "n" => Ok (push_atom st (RChar "010") LAtom)
  | "v" => Ok (push_atom st (RChar "011") LAtom)
  | "f" => Ok (push_atom st (RChar "012") LAtom)
  | "r" => Ok (push_atom st (RChar "013") LAtom)
  | "b" | "B" | "c" | "x" | "u" | "k" => Unsupported
  | _ => if isDigit c then Unsupported else Ok (push_atom st (RChar c) LAtom)
  end%char.

Definition pstep (st : pstate) (c : ascii) : outcome pstate :=
  if p_esc st then pescape st c
  else
    match c with
    | "\" =>
        Ok {| p_stack := p_stack st; p_cur := p_cur st; p_last := p_last st;
              p_esc := true; p_groups := p_groups st |}
    | "^" | "$" | "[" => Unsupported
    | "." => Ok (push_atom st RAny LAtom)
    | "*" => quantify st 0 None
    | "+" => quantify st 1 None
    | "?" =>
        match p_last st with
        | LOpen => Unsupported                      (* a group specifier *)
        | LQuant => map_last st make_lazy LLazy
        | _ => quantify st 0 (Some 1)
        end
    | "(" =>
        Ok {| p_stack := p_cur st :: p_stack st;
              p_cur := {| f_alts := []; f_seq := [] |};
              p_last := LOpen; p_esc := false; p_groups := S (p_groups st) |}
    | ")" =>
        match p_stack st with
        | parent :: stack =>
            Ok {| p_stack := stack;
                  p_cur := {| f_alts := f_alts parent;
                              f_seq := RGroup (frame_regex (p_cur st))
                                         :: f_seq parent |};
                  p_last := LAtom; p_esc := false; p_groups := p_groups st |}
        | [] => Throw SyntaxError                   (* unmatched ')' *)
        end
    | "|" =>
        Ok {| p_stack := p_stack st;
              p_cur := {| f_alts := seq_regex (f_seq (p_cur st))
                                      :: f_alts (p_cur st);
                          f_seq := [] |};
              p_last := LStart; p_esc := false; p_groups := p_groups st |}
    | "{" => Ok (push_atom st (RChar c) LBrace)
    | _ =>
        match p_last st with
        | LBrace =>
            (* an opening brace followed by a digit may start a braced
               quantifier *)
            if isDigit c then Unsupported else Ok (push_atom st (RChar c) LAtom)
        | _ => Ok (push_atom st (RChar c) LAtom)
        end
    end%char.

Fixpoint parse_from (st : pstate) (pattern : string) : outcome pstate :=
  match pattern with
  | EmptyString => Ok st
  | String c rest => let* st' := pstep st c in parse_from st' rest
  end.

(** a compiled regular expression: its syntax tree and the number of its
    capturing groups *)
Record RegExp := { re_tree : regex; re_groups : nat }.

(** [new RegExp(pattern, 'g')] *)
Definition RegExp_new (pattern : string) : outcome RegExp :=
  let* st := parse_from pstate_init pattern in
  if p_esc st then Throw SyntaxError            (* \ at end of pattern *)
  else
    match p_stack st with
    | _ :: _ => Throw SyntaxError               (* unterminated group *)
    | [] => Ok {| re_tree := frame_regex (p_cur st); re_groups := p_groups st |}
    end.

(** *** Matching: the backtracking matcher of the language specification

    [rmatch r s k] matches [r] at the start of [s] and hands what is left
    of [s] to the continuation [k]; the first success in the order of the
    specification (left alternative first, greedy iterations first) is the
    result. *)

Definition or_else {A} (a : option A) (b : option A) : option A :=
  match a with Some x => Some x | None => b end.

(** the iterations of a quantified term whose matcher is [body]; [fuel]
    bounds the number of iterations, each of which either is required or
    consumes a character *)
Fixpoint repeat_match
  (body : string -> (string -> option string) -> option string)
  (k : string -> option string) (greedy : bool)
  (fuel min : nat) (max : option nat) (s : string) {struct fuel}
  : option string :=
  match fuel with
  | O => None
  | S fuel' =>
      match max with
      | Some O => k s
      | _ =>
          let iter :=
            body s (fun s' =>
              (* an iteration that is not required and consumes nothing
                 is rejected *)
              if (min =? 0) && (String.length s' =? String.length s)
              then None
              else repeat_match body k greedy fuel' (pred min)
                     (option_map pred max) s') in
          if 0 <? min then iter
          else if greedy then or_else iter (k s)
          else or_else (k s) iter
      end
  end.

Fixpoint rmatch (r : regex) (s : string) (k : string -> option string)
  {struct r} : option string :=
  match r with
  | REmpty => k s
  | RChar c =>
      match s with
      | String c' s' => if Ascii.eqb c c' then k s' else None
      | EmptyString => None
      end
  | RAny =>
      match s with
      | String c' s' => if isLineTerminator c' then None else k s'
      | EmptyString => None
      end
  | RSet negated cs =>
      match s with
      | String c' s' => if xorb negated (in_charset cs c') then k s' else None
      | EmptyString => None
      end
  | RSeq r1 r2 => rmatch r1 s (fun s' => rmatch r2 s' k)
  | RAlt r1 r2 => or_else (rmatch r1 s k) (rmatch r2 s k)
  | RGroup r1 => rmatch r1 s k
  | RQuant min max greedy r1 =>
      repeat_match (rmatch r1) k greedy (S (min + String.length s)) min max s
  end.

(** the match of [re] that starts at the beginning of [s], as the text that
    follows it *)
Definition match_here (re : RegExp) (s : string) : option string :=
  rmatch (re_tree re) s Some.

(** *** Replacement texts (GetSubstitution) *)

Fixpoint expand (template : string) (groups : nat)
  (matched before after : string) : outcome string :=
  match template with
  | EmptyString => Ok EmptyString
  | String c rest =>
      if Ascii.eqb c "$" then
        match rest with
        | String d rest' =>
            if Ascii.eqb d "$" then
              let* t := expand rest' groups matched before after in
              Ok (String "$" t)
            else if Ascii.eqb d "&" then
              let* t := expand rest' groups matched before after in
              Ok (matched +:+ t)
            else if Ascii.eqb d "`" then
              let* t := expand rest' groups matched before after in
              Ok (before +:+ t)
            else if Ascii.eqb d "'" then
              let* t := expand rest' groups matched before after in
              Ok (after +:+ t)
            else if isDigit d && (0 <? groups) then
              Unsupported                       (* the text of a capture *)
            else
              let* t := expand rest groups matched before after in
              Ok (String "$" t)
        | EmptyString => Ok (String "$" EmptyString)
        end
      else
        let* t := expand rest groups matched before after in
        Ok (String c t)
  end.

(** *** [s.replace(re, template)] for a global [re] *)

Fixpoint replace_loop (fuel : nat) (re : RegExp) (template : string)
  (before s : string) : outcome string :=
  match fuel with
  | O => Unsupported
  | S fuel' =>
      match match_here re s with
      | Some after =>
          let matched := str_take (String.length s - String.length after) s in
          let* e := expand template (re_groups re) matched before after in
          match matched, s with
          | EmptyString, String c s' =>
              (* an empty match: the next search starts one further *)
              let* t := replace_loop fuel' re template
                          (before +:+ String c EmptyString) s' in
              Ok (e +:+ String c t)
          | EmptyString, EmptyString => Ok e
          | _, _ =>
              let* t := replace_loop fuel' re template
                          (before +:+ matched) after in
              Ok (e +:+ t)
          end
      | None =>
          match s with
          | String c s' =>
              let* t := replace_loop fuel' re template
                          (before +:+ String c EmptyString) s' in
              Ok (String c t)
          | EmptyString => Ok EmptyString
          end
      end
  end.

Definition replace_all (re : RegExp) (template : string) (s : string)
  : outcome string :=
  replace_loop (S (String.length s)) re template EmptyString s.

(** the regular expression literal [/\s+/g] *)
Definition re_white_space_run : RegExp :=
  {| re_tree := RSeq (RQuant 1 None true (RSet false CsSpace)) REmpty;
     re_groups := 0 |}.

(** ** Optional chains

    [None] is a chain that has short-circuited: every later link of the
    chain is skipped and the chain evaluates to [undefined]. *)

(** a [?.k] link *)
Definition opt_link (c : option value) (k : string) : outcome (option value) :=
  match c with
  | None => Ok None
  | Some v => optprop v k
  end.

(** a [.k] or [[k]] link *)
Definition link (c : option value) (k : string) : outcome (option value) :=
  match c with
  | None => Ok None
  | Some v => let* x := getprop v k in Ok (Some x)
  end.

(** [o.k = v] in strict code *)
Definition setprop (o : value) (k : string) (v : value) : outcome value :=
  match o with
  | VObj m => Ok (VObj (<[k := v]> m))
  | VArr _ => Unsupported
  | _ => Throw TypeError
  end.

(** ** The store: actions and the effects of an event handler *)

Inductive action :=
| updateNodeData (id : string) (data : value)
| updateEdgesOnHandleRename
    (nodeId oldHandleId newHandleId schemaType : string).

Inductive effect :=
| setEditingField (field : value)
| setDynamicModel (model : value)
| dispatch (a : action)
| debouncedDispatch (id : string) (updatedModel : value)
| console_log (v : value)
| console_error (e : error)
| updateWorkflow (workflowID : value) (workflow : value).

Record EdgeInstance := {
  source : string;
  sourceHandle : string;
  target : string;
  targetHandle : string
}.

(** Modelled from the spec: the reducer of [updateEdgesOnHandleRename] in
    store/flowSlice, which is not among the sources.  It "finds every edge
    whose sourceHandle/targetHandle (matching the renamed node and schema
    side) equals oldKey and rewrites it to newKey"; the input schema names
    the handles that edges target, the output schema those they leave
    from. *)
Definition rename_handle (nodeId oldHandleId newHandleId schemaType : string)
  (edge : EdgeInstance) : EdgeInstance :=
  if String.eqb schemaType "input_schema"
     && String.eqb (target edge) nodeId
     && String.eqb (targetHandle edge) oldHandleId
  then {| source := source edge; sourceHandle := sourceHandle edge;
          target := target edge; targetHandle := newHandleId |}
  else if String.eqb schemaType "output_schema"
     && String.eqb (source edge) nodeId
     && String.eqb (sourceHandle edge) oldHandleId
  then {| source := source edge; sourceHandle := newHandleId;
          target := target edge; targetHandle := targetHandle edge |}
  else edge.

(** Modelled from the spec: the store's edges after an action *)
Definition reduce_edges (a : action) (edges : list EdgeInstance)
  : list EdgeInstance :=
  match a with
  | updateEdgesOnHandleRename nodeId oldHandleId newHandleId schemaType =>
      map (rename_handle nodeId oldHandleId newHandleId schemaType) edges
  | updateNodeData _ _ => edges
  end.

(** ** components/nodes/OutputDisplayNode.jsx *)

Definition updateMessageVariables (message : value) (oldKey newKey : string)
  : outcome value :=
  if negb (truthy message) then Ok message
  else
    let* regex := RegExp_new ("{{\s*" +:+ oldKey +:+ "\s*}}") in
    match message with
    | VStr s =>
        let* r := replace_all regex ("{{" +:+ newKey +:+ "}}") s in
        Ok (VStr r)
    | _ => Throw TypeError               (* message.replace is not a function *)
    end.

(** one of the two blocks
    [if (nodeData?.config?.field) updatedConfig.field = updateMessageVariables(...)] *)
Definition update_message_field (nodeData : value) (field : string)
  (oldKey newKey : string) (updatedConfig : gmap string value)
  : outcome (gmap string value) :=
  let* config := optprop nodeData "config" in
  let* current := opt_link config field in
  if truthy (chain_value current) then
    let* config := getprop nodeData "config" in
    let* message := getprop config field in
    let* message' := updateMessageVariables message oldKey newKey in
    Ok (<[field := message']> updatedConfig)
  else Ok updatedConfig.

Definition handleSchemaKeyEdit (id : string) (nodeData : value)
  (oldKey newKey schemaType : string) : outcome (list effect) :=
  let* newKey := replace_all re_white_space_run "_" newKey in
  if String.eqb oldKey newKey || negb (truthy (VStr (trim newKey))) then
    Ok [setEditingField VNull]
  else
    let* config := optprop nodeData "config" in
    let* schema := opt_link config schemaType in
    let* copied := spread (chain_value schema) in
    let* old := link schema oldKey in
    let updatedSchema :=
      delete oldKey (<[newKey := chain_value old]> copied) in
    let* config_props := spread (chain_value config) in
    let updatedConfig := <[schemaType := VObj updatedSchema]> config_props in
    let* updatedConfig :=
      if String.eqb schemaType "input_schema" then
        let* c := update_message_field nodeData "system_message"
                    oldKey newKey updatedConfig in
        update_message_field nodeData "user_message" oldKey newKey c
      else Ok updatedConfig in
    Ok [ dispatch (updateNodeData id
                     (VObj {[ "config" := VObj updatedConfig ]}));
         dispatch (updateEdgesOnHandleRename id oldKey newKey schemaType);
         setEditingField VNull ].

(** ** The node factory ([createNode])

    Values are immutable here, so [cloneDeep] returns its argument; the
    sharing between the arguments and the result is the subject of the
    module [Heap] below. *)

Definition cloneDeep (v : value) : value := v.

(** the values that [for (const k in o)] makes [o[k]] range over *)
Definition for_in_values (o : value) : outcome (list value) :=
  match o with
  | VObj m => Ok (map_to_list m).*2
  | VArr l => Ok l
  | VStr s => if String.eqb s "" then Ok [] else Unsupported
  | _ => Ok []
  end.

(** [templates.find((node) => node.name === type)] *)
Definition find_by_name (templates : value) (type : string) : outcome value :=
  match templates with
  | VArr l =>
      array_find (fun node =>
                    let* name := getprop node "name" in
                    strict_eq name (VStr type)) l
  | _ => Throw TypeError                   (* find is not a function *)
  end.

(** the loop over the categories of the catalog: the first template found,
    or [null] *)
Fixpoint find_node_type (categories : list value) (type : string)
  : outcome value :=
  match categories with
  | [] => Ok VNull
  | templates :: rest =>
      let* found := find_by_name templates type in
      if truthy found then Ok found else find_node_type rest type
  end.

(** one of the two lines
    [const sideProperties = cloneDeep(nodeType.side?.properties) || {}] *)
Definition default_properties (nodeType : value) (side : string)
  : outcome value :=
  let* t_side := getprop nodeType side in
  let* t_props := optprop t_side "properties" in
  Ok (js_or (cloneDeep (chain_value t_props)) (VObj ∅)).

(** one of the two blocks
    [if (additionalData.side?.properties) processedAdditionalData.side = ...] *)
Definition merge_properties (side : string) (sideProperties : value)
  (additionalData processedAdditionalData : value) : outcome value :=
  let* over := getprop additionalData side in
  let* over_props := optprop over "properties" in
  if truthy (chain_value over_props) then
    let* processed_side := getprop processedAdditionalData side in
    let* kept := spread processed_side in
    let* defaults := spread sideProperties in
    let* over := getprop additionalData side in
    let* over_props := getprop over "properties" in
    let* overriding := spread over_props in
    setprop processedAdditionalData side
      (VObj (<[ "properties" := VObj (assign defaults overriding) ]> kept))
  else Ok processedAdditionalData.

(** [uuidv4] is the identifier that a call of [uuidv4()] returns *)
Definition createNode (uuidv4 : string) (nodeTypes : value) (type : string)
  (id position additionalData : value) : outcome value :=
  let additionalData :=
    match additionalData with VUndefined => VObj ∅ | _ => additionalData end in
  let* categories := for_in_values nodeTypes in
  let* nodeType := find_node_type categories type in
  if negb (truthy nodeType) then Ok VNull
  else
    let* inputProperties := default_properties nodeType "input" in
    let* outputProperties := default_properties nodeType "output" in
    let processedAdditionalData := cloneDeep additionalData in
    let* processedAdditionalData :=
      merge_properties "input" inputProperties
        additionalData processedAdditionalData in
    let* processedAdditionalData :=
      merge_properties "output" outputProperties
        additionalData processedAdditionalData in
    if String.eqb type "group" then
      let* extra := spread additionalData in
      Ok (VObj (<[ "id" := js_or id (VStr uuidv4) ]>
               (<[ "type" := VStr "group" ]>
               (<[ "position" := position ]>
               (<[ "data" := VObj (assign {[ "title" := VStr "Group" ]} extra) ]>
               {[ "style" := VObj (<[ "width" := VZ 300 ]>
                                     {[ "height" := VZ 300 ]}) ]})))))
    else
      let* name := getprop nodeType "name" in
      let* visual_tag := getprop nodeType "visual_tag" in
      let* acronym := getprop visual_tag "acronym" in
      let* color := getprop visual_tag "color" in
      let* config := getprop nodeType "config" in
      let* p_in := getprop processedAdditionalData "input" in
      let* p_in_props := spread p_in in
      let* p_out := getprop processedAdditionalData "output" in
      let* p_out_props := spread p_out in
      let* extra := spread processedAdditionalData in
      let data :=
        assign
          (<[ "title" := name ]>
          (<[ "acronym" := acronym ]>
          (<[ "color" := color ]>
          (<[ "config" := cloneDeep config ]>
          (<[ "input" :=
                VObj (assign {[ "properties" := inputProperties ]} p_in_props) ]>
          {[ "output" :=
                VObj (assign {[ "properties" := outputProperties ]} p_out_props) ]})))))
          extra in
      Ok (VObj (<[ "id" := id ]>
               (<[ "type" := name ]>
               (<[ "position" := position ]>
               {[ "data" := VObj data ]})))).

(** ** The workflow serialiser ([useSaveWorkflow]) *)

(** the callback of [nodes.filter(...).map(...)] *)
Definition updated_node (workflowInputVariables : value) (node : value)
  : outcome value :=
  let* type := getprop node "type" in
  let* is_input := strict_eq type (VStr "InputNode") in
  let* node_props := spread node in
  if is_input then
    let* data := getprop node "data" in
    let* config := getprop data "config" in
    let* config_props := spread config in
    let* keys := object_keys workflowInputVariables in
    let input_schema :=
      object_fromEntries (map (fun key => (key, VStr "str")) keys) in
    Ok (VObj (<[ "config" :=
                   VObj (<[ "input_schema" := input_schema ]> config_props) ]>
              node_props))
  else
    let* data := getprop node "data" in
    let* config := optprop data "config" in
    let* title := optprop data "title" in
    Ok (VObj (<[ "title" := chain_value title ]>
             (<[ "config" := chain_value config ]> node_props))).

(** the projection [{id, node_type, config, coordinates}] *)
Definition node_record (node : value) : outcome value :=
  let* id := getprop node "id" in
  let* type := getprop node "type" in
  let* config := getprop node "config" in
  let* position := getprop node "position" in
  Ok (VObj (<[ "id" := id ]>
           (<[ "node_type" := type ]>
           (<[ "config" := config ]>
           {[ "coordinates" := position ]})))).

(** [nodes.find((node) => node.id === wanted)] *)
Definition find_node (nodes : list value) (wanted : value) : outcome value :=
  array_find (fun node =>
                let* id := getprop node "id" in
                strict_eq id wanted) nodes.

(** [node?.config?.data?.[schema]?.[handle] || 'str'] *)
Definition handle_type (node : value) (schema : string) (handle : value)
  : outcome value :=
  let* config := optprop node "config" in
  let* data := opt_link config "data" in
  let* sch := opt_link data schema in
  let* ty :=
    match sch with
    | None => Ok None
    | Some s =>
        if nullish s then Ok None
        else
          let* key := to_property_key handle in
          let* x := getprop s key in
          Ok (Some x)
    end in
  Ok (js_or (chain_value ty) (VStr "str")).

(** the callback of [edges.map(...)] *)
Definition link_record (nodes : list value) (edge : value) : outcome value :=
  let* e_source := getprop edge "source" in
  let* sourceNode := find_node nodes e_source in
  let* e_target := getprop edge "target" in
  let* targetNode := find_node nodes e_target in
  let* e_sourceHandle := getprop edge "sourceHandle" in
  let* source_type := handle_type sourceNode "output_schema" e_sourceHandle in
  let* e_targetHandle := getprop edge "targetHandle" in
  let* target_type := handle_type targetNode "input_schema" e_targetHandle in
  Ok (VObj (<[ "source_id" := e_source ]>
           (<[ "source_output_key" := e_sourceHandle ]>
           (<[ "source_output_type" := source_type ]>
           (<[ "target_id" := e_target ]>
           (<[ "target_input_key" := e_targetHandle ]>
           {[ "target_input_type" := target_type ]})))))).

Definition array_elems (v : value) : outcome (list value) :=
  match v with
  | VArr l => Ok l
  | _ => Throw TypeError        (* filter / map is not a function *)
  end.

(** the object [updatedWorkflow] that [saveWorkflow] builds *)
Definition updatedWorkflow (nodes edges workflowInputVariables
  workflowName testInputs : value) : outcome value :=
  let* ns := array_elems nodes in
  let* updatedNodes :=
    omap (updated_node workflowInputVariables)
         (List.filter (fun node => negb (nullish node)) ns) in
  let* node_records := omap node_record updatedNodes in
  let* es := array_elems edges in
  let* links := omap (link_record ns) es in
  Ok (VObj (<[ "name" := workflowName ]>
           {[ "definition" :=
                VObj (<[ "nodes" := VArr node_records ]>
                     (<[ "links" := VArr links ]>
                     {[ "test_inputs" := testInputs ]})) ]})).

(** [saveWorkflow]: the document is logged and sent; whatever is thrown on
    the way is caught and reported *)
Definition saveWorkflow (workflowID nodes edges workflowInputVariables
  workflowName testInputs : value) : outcome (list effect) :=
  match updatedWorkflow nodes edges workflowInputVariables
          workflowName testInputs with
  | Ok w => Ok [console_log w; updateWorkflow workflowID w]
  | Throw e => Ok [console_error e]
  | Unsupported => Unsupported
  end.

(** ** The configuration sidebar (NodeSidebar.jsx) *)

(** *** [parseFloat] *)

Definition digit_value (c : ascii) : Z := Z.of_nat (nat_of_ascii c) - 48.

(** the decimal digits at the start of [s]: their value on top of [acc],
    how many they are, and what follows them *)
Fixpoint read_digits (s : string) (acc : Z) (count : nat)
  : Z * nat * string :=
  match s with
  | String c s' =>
      if isDigit c then read_digits s' (10 * acc + digit_value c)%Z (S count)
      else (acc, count, s)
  | EmptyString => (acc, count, s)
  end.

(** the exponent part at the start of [s], if there is a well formed one *)
Definition read_exponent (s : string) : Z :=
  match s with
  | String c s' =>
      if Ascii.eqb c "e" || Ascii.eqb c "E" then
        let '(negative, s'') :=
          match s' with
          | String "-" t => (true, t)
          | String "+" t => (false, t)
          | _ => (false, s')
          end in
        let '(e, count, _) := read_digits s'' 0 0 in
        if count =? 0 then 0%Z else if negative then (- e)%Z else e
      else 0%Z
  | EmptyString => 0%Z
  end.

(** the binary64 value nearest to [(-1)^negative * mantissa * 10^exponent] *)
Definition number_of_decimal (negative : bool) (mantissa exponent : Z)
  : number :=
  match mantissa with
  | Zpos m =>
      match exponent with
      | Zneg e =>
          SFdiv prec64 emax64 (S754_finite negative m 0)
                (S754_finite false (Pos.pow 10 e) 0)
      | Z0 => binary_round prec64 emax64 negative m 0
      | Zpos e => binary_round prec64 emax64 negative (m * Pos.pow 10 e) 0
      end
  | _ => S754_zero negative
  end.

Definition parseFloat (input : string) : number :=
  let s := trimStart input in
  let '(negative, s) :=
    match s with
    | String "-" t => (true, t)
    | String "+" t => (false, t)
    | _ => (false, s)
    end in
  if String.prefix "Infinity" s then S754_infinity negative
  else
    let '(int_part, int_count, s1) := read_digits s 0 0 in
    let '(mantissa, frac_count, s2) :=
      match s1 with
      | String "." t => read_digits t int_part 0
      | _ => (int_part, 0, s1)
      end in
    if (int_count =? 0) && (frac_count =? 0) then NaN
    else
      number_of_decimal negative mantissa
        (read_exponent s2 - Z.of_nat frac_count)%Z.

(** *** [handleInputChange] and the free numeric input *)

Section NodeSidebar.

(** lodash's [set(object, path, value)], as the function from the object
    before to the object after *)
Variable lodash_set : value -> string -> value -> value.

Variable nodeID : string.

(** the local state [dynamicModel] *)
Variable dynamicModel : value.

Definition updateNestedModel (obj : value) (path : string) (v : value)
  : value :=
  let deepClone := cloneDeep obj in
  lodash_set deepClone path v.

Definition handleInputChange (key : string) (v : value) (isSlider : bool)
  : outcome (list effect) :=
  let* updatedModel :=
    if includes_char "." key then Ok (updateNestedModel dynamicModel key v)
    else
      let* props := spread dynamicModel in
      Ok (VObj (<[key := v]> props)) in
  Ok [ setDynamicModel updatedModel;
       if isSlider then debouncedDispatch nodeID updatedModel
       else dispatch (updateNodeData nodeID
                        (VObj {[ "config" := updatedModel ]})) ].

(** the [onChange] of the [NumberInput] that [renderField] returns for a
    number without bounds; [text] is [e.target.value] *)
Definition numberInput_onChange (key : string) (text : string)
  : outcome (list effect) :=
  let newValue := parseFloat text in
  handleInputChange key
    (VNum (if isNaN newValue then number_of_Z 0 else newValue)) false.

End NodeSidebar.

(** ** The node factory over a store of mutable objects

    Objects and arrays live in cells of a heap and values refer to them by
    location, so that two values can share a cell: writing through one of
    them is seen through the other. *)

Module Heap.

Definition loc := nat.

Inductive hvalue :=
| HUndefined
| HNull
| HBool (b : bool)
| HNum (n : number)
| HStr (s : string)
| HRef (l : loc).

Inductive cell :=
| CObj (props : gmap string hvalue)
| CArr (elems : list hvalue).

(** the cell at location [l] is the [l]-th element *)
Definition heap := list cell.

(** computations that read and extend the heap and can throw *)
Definition M (A : Type) := heap -> outcome (A * heap).

Definition ret {A} (a : A) : M A := fun h => Ok (a, h).

Definition bind {A B} (m : M A) (f : A -> M B) : M B :=
  fun h =>
    match m h with
    | Ok (a, h') => f a h'
    | Throw e => Throw e
    | Unsupported => Unsupported
    end.

Definition throw {A} (e : error) : M A := fun _ => Throw e.
Definition unsupported {A} : M A := fun _ => Unsupported.

Notation "'do*' x ':=' m 'in' k" := (bind m (fun x => k))
  (at level 10, x name, m at level 100, k at level 200).

Definition truthy (v : hvalue) : bool :=
  match v with
  | HUndefined | HNull => false
  | HBool b => b
  | HNum n =>
      match n with
      | S754_zero _ | S754_nan => false
      | _ => true
      end
  | HStr s => negb (String.eqb s "")
  | HRef _ => true
  end.

Definition nullish (v : hvalue) : bool :=
  match v with HUndefined | HNull => true | _ => false end.

Definition js_or (a : hvalue) (b : M hvalue) : M hvalue :=
  if truthy a then ret a else b.

(** a fresh cell *)
Definition alloc (c : cell) : M hvalue :=
  fun h => Ok (HRef (length h), h ++ [c]).

(** an object literal *)
Definition new_object (props : gmap string hvalue) : M hvalue :=
  alloc (CObj props).

Definition getprop (v : hvalue) (k : string) : M hvalue :=
  fun h =>
    match v with
    | HUndefined | HNull => Throw TypeError
    | HBool _ | HNum _ => if inherited k then Unsupported else Ok (HUndefined, h)
    | HStr _ => Unsupported
    | HRef l =>
        match h !! l with
        | Some (CObj props) =>
            match props !! k with
            | Some x => Ok (x, h)
            | None => if inherited k then Unsupported else Ok (HUndefined, h)
            end
        | _ => Unsupported
        end
    end.

(** [v?.k] at the head of a chain *)
Definition optprop (v : hvalue) (k : string) : M hvalue :=
  if nullish v then ret HUndefined else getprop v k.

(** [o.k = x]: the cell of [o] is updated in place *)
Definition setprop (o : hvalue) (k : string) (x : hvalue) : M unit :=
  fun h =>
    match o with
    | HRef l =>
        match h !! l with
        | Some (CObj props) => Ok (tt, <[l := CObj (<[k := x]> props)]> h)
        | _ => Unsupported
        end
    | HStr _ => Unsupported
    | _ => Throw TypeError
    end.

Definition spread (v : hvalue) : M (gmap string hvalue) :=
  fun h =>
    match v with
    | HUndefined | HNull | HBool _ | HNum _ => Ok (∅, h)
    | HStr s => if String.eqb s "" then Ok (∅, h) else Unsupported
    | HRef l =>
        match h !! l with
        | Some (CObj props) => Ok (props, h)
        | _ => Unsupported
        end
    end.

Definition assign (base src : gmap string hvalue) : gmap string hvalue :=
  src ∪ base.

Definition strict_eq (a b : hvalue) : bool :=
  match a, b with
  | HUndefined, HUndefined => true
  | HNull, HNull => true
  | HBool x, HBool y => Bool.eqb x y
  | HNum x, HNum y => SFeqb x y
  | HStr x, HStr y => String.eqb x y
  | HRef x, HRef y => x =? y
  | _, _ => false
  end.

(** *** lodash's [cloneDeep]

    The copy of a cell is allocated and remembered before its contents
    are copied, so a cell that is reached twice is copied once. *)

Definition copies := gmap loc loc.

Fixpoint clone_each (clone : hvalue -> copies -> M (hvalue * copies))
  (vs : list hvalue) (seen : copies) : M (list hvalue * copies) :=
  match vs with
  | [] => ret ([], seen)
  | v :: vs' =>
      do* r := clone v seen in
      do* rs := clone_each clone vs' (snd r) in
      ret (fst r :: fst rs, snd rs)
  end.

Fixpoint clone_value (fuel : nat) (v : hvalue) (seen : copies)
  : M (hvalue * copies) :=
  match v with
  | HRef l =>
      match seen !! l with
      | Some l' => ret (HRef l', seen)
      | None =>
          match fuel with
          | O => unsupported
          | S fuel' =>
              fun h =>
                let l' := length h in
                let seen := <[l := l']> seen in
                match h !! l with
                | Some (CObj props) =>
                    let entries := map_to_list props in
                    match clone_each (clone_value fuel') entries.*2 seen
                            (h ++ [CObj ∅]) with
                    | Ok ((vs, seen'), h') =>
                        Ok ((HRef l', seen'),
                            <[l' := CObj (list_to_map (zip entries.*1 vs))]> h')
                    | Throw e => Throw e
                    | Unsupported => Unsupported
                    end
                | Some (CArr elems) =>
                    match clone_each (clone_value fuel') elems seen
                            (h ++ [CArr []]) with
                    | Ok ((vs, seen'), h') =>
                        Ok ((HRef l', seen'), <[l' := CArr vs]> h')
                    | Throw e => Throw e
                    | Unsupported => Unsupported
                    end
                | None => Unsupported
                end
          end
      end
  | _ => ret (v, seen)
  end.

Definition cloneDeep (v : hvalue) : M hvalue :=
  fun h =>
    match clone_value (S (length h)) v ∅ h with
    | Ok ((v', _), h') => Ok (v', h')
    | Throw e => Throw e
    | Unsupported => Unsupported
    end.

(** *** [createNode] *)

Definition for_in_values (o : hvalue) : M (list hvalue) :=
  fun h =>
    match o with
    | HRef l =>
        match h !! l with
        | Some (CObj props) => Ok ((map_to_list props).*2, h)
        | Some (CArr elems) => Ok (elems, h)
        | None => Unsupported
        end
    | HStr s => if String.eqb s "" then Ok ([], h) else Unsupported
    | _ => Ok ([], h)
    end.

Fixpoint array_find (pred : hvalue -> M bool) (l : list hvalue) : M hvalue :=
  match l with
  | [] => ret HUndefined
  | x :: l' =>
      do* b := pred x in
      if b then ret x else array_find pred l'
  end.

Definition find_by_name (templates : hvalue) (type : string) : M hvalue :=
  fun h =>
    match templates with
    | HRef l =>
        match h !! l with
        | Some (CArr elems) =>
            array_find (fun node =>
                          do* name := getprop node "name" in
                          ret (strict_eq name (HStr type))) elems h
        | Some (CObj _) => Throw TypeError
        | None => Unsupported
        end
    | _ => Throw TypeError
    end.

Fixpoint find_node_type (categories : list hvalue) (type : string)
  : M hvalue :=
  match categories with
  | [] => ret HNull
  | templates :: rest =>
      do* found := find_by_name templates type in
      if truthy found then ret found else find_node_type rest type
  end.

Definition default_properties (nodeType : hvalue) (side : string)
  : M hvalue :=
  do* t_side := getprop nodeType side in
  do* t_props := optprop t_side "properties" in
  do* cloned := cloneDeep t_props in
  js_or cloned (new_object ∅).

Definition merge_properties (side : string) (sideProperties : hvalue)
  (additionalData processedAdditionalData : hvalue) : M unit :=
  do* over := getprop additionalData side in
  do* over_props := optprop over "properties" in
  if truthy over_props then
    do* processed_side := getprop processedAdditionalData side in
    do* kept := spread processed_side in
    do* defaults := spread sideProperties in
    do* over := getprop additionalData side in
    do* over_props := getprop over "properties" in
    do* overriding := spread over_props in
    do* merged := new_object (assign defaults overriding) in
    do* new_side := new_object (<[ "properties" := merged ]> kept) in
    setprop processedAdditionalData side new_side
  else ret tt.

Definition createNode (uuidv4 : string) (nodeTypes : hvalue) (type : string)
  (id position additionalData : hvalue) : M hvalue :=
  do* additionalData :=
    match additionalData with
    | HUndefined => new_object ∅
    | _ => ret additionalData
    end in
  do* categories := for_in_values nodeTypes in
  do* nodeType := find_node_type categories type in
  if negb (truthy nodeType) then ret HNull
  else
    do* inputProperties := default_properties nodeType "input" in
    do* outputProperties := default_properties nodeType "output" in
    do* processedAdditionalData := cloneDeep additionalData in
    do* _ := merge_properties "input" inputProperties
               additionalData processedAdditionalData in
    do* _ := merge_properties "output" outputProperties
               additionalData processedAdditionalData in
    if String.eqb type "group" then
      do* extra := spread additionalData in
      do* data := new_object (assign {[ "title" := HStr "Group" ]} extra) in
      do* style := new_object (<[ "width" := HNum (number_of_Z 300) ]>
                                 {[ "height" := HNum (number_of_Z 300) ]}) in
      do* id := js_or id (ret (HStr uuidv4)) in
      new_object (<[ "id" := id ]>
                 (<[ "type" := HStr "group" ]>
                 (<[ "position" := position ]>
                 (<[ "data" := data ]>
                 {[ "style" := style ]}))))
    else
      do* name := getprop nodeType "name" in
      do* visual_tag := getprop nodeType "visual_tag" in
      do* acronym := getprop visual_tag "acronym" in
      do* color := getprop visual_tag "color" in
      do* config := getprop nodeType "config" in
      do* config := cloneDeep config in
      do* p_in := getprop processedAdditionalData "input" in
      do* p_in_props := spread p_in in
      do* input := new_object
                     (assign {[ "properties" := inputProperties ]} p_in_props) in
      do* p_out := getprop processedAdditionalData "output" in
      do* p_out_props := spread p_out in
      do* output := new_object
                      (assign {[ "properties" := outputProperties ]} p_out_props) in
      do* extra := spread processedAdditionalData in
      do* data := new_object
                    (assign
                       (<[ "title" := name ]>
                       (<[ "acronym" := acronym ]>
                       (<[ "color" := color ]>
                       (<[ "config" := config ]>
                       (<[ "input" := input ]>
                       {[ "output" := output ]})))))
                       extra) in
      new_object (<[ "id" := id ]>
                 (<[ "type" := name ]>
                 (<[ "position" := position ]>
                 {[ "data" := data ]}))).

(** *** Reading a heap value back as a tree *)

Fixpoint read (fuel : nat) (h : heap) (v : hvalue) : option value :=
  match v with
  | HUndefined => Some VUndefined
  | HNull => Some VNull
  | HBool b => Some (VBool b)
  | HNum n => Some (VNum n)
  | HStr s => Some (VStr s)
  | HRef l =>
      match fuel with
      | O => None
      | S fuel' =>
          match h !! l with
          | Some (CObj props) =>
              let entries := map_to_list props in
              vs ← mapM (read fuel' h) entries.*2;
              Some (VObj (list_to_map (zip entries.*1 vs)))
          | Some (CArr elems) =>
              vs ← mapM (read fuel' h) elems;
              Some (VArr vs)
          | None => None
          end
      end
  end.

(** [v.p1.p2...] *)
Fixpoint get_path (v : hvalue) (path : list string) : M hvalue :=
  match path with
  | [] => ret v
  | k :: path' => do* x := getprop v k in get_path x path'
  end.

(** the value a computation returns *)
Definition result {A} (r : outcome (A * heap)) : outcome A :=
  match r with
  | Ok (a, _) => Ok a
  | Throw e => Throw e
  | Unsupported => Unsupported
  end.

(** *** What a computation leaves in place *)

(** every cell of [h0] is still in place after [m] has run on a heap that
    extends [h0], and the result of [m] satisfies [Q] *)
Definition keeps (h0 : heap) {A} (m : M A) (Q : A -> Prop) : Prop :=
  forall h a h',
    h0 `prefix_of` h -> m h = Ok (a, h') -> h0 `prefix_of` h' /\ Q a.

(** [m] reads the heap only *)
Definition reads {A} (m : M A) : Prop :=
  forall h a h', m h = Ok (a, h') -> h' = h.

(** [v] is no object of [h0] *)
Definition fresh_from (h0 : heap) (v : hvalue) : Prop :=
  match v with
  | HRef l => length h0 <= l
  | _ => True
  end.

(** [v] is [null] or an object that [h0] does not have *)
Definition null_or_new (h0 : heap) (v : hvalue) : Prop :=
  v = HNull \/ exists l, v = HRef l /\ length h0 <= l.

End Heap.

(** ** Notions used to state the properties *)

Fixpoint string_forallb (p : ascii -> bool) (s : string) : bool :=
  match s with
  | String c s' => p c && string_forallb p s'
  | EmptyString => true
  end.

Definition white_space_only (s : string) : bool :=
  string_forallb isWhiteSpace s.

(** SyntaxCharacter of the pattern grammar *)
Definition syntax_character (c : ascii) : bool :=
  match c with
  | "^" | "$" | "\" | "." | "*" | "+" | "?"
  | "(" | ")" | "[" | "]" | "{" | "}" | "|" => true
  | _ => false
  end%char.

Definition no_syntax_character (s : string) : bool :=
  string_forallb (fun c => negb (syntax_character c)) s.

(** a placeholder for [key]: the key between double braces, with white
    space around it *)
Definition placeholder (ws1 key ws2 : string) : string :=
  "{{" +:+ ws1 +:+ key +:+ ws2 +:+ "}}".

(** the syntax tree of the pattern [{{\s*key\s*}}] when [key] is free of
    syntax characters *)
Definition white_space_star : regex := RQuant 0 None true (RSet false CsSpace).

Fixpoint chars_regex (key : string) (r : regex) : regex :=
  match key with
  | String c key' => RSeq (RChar c) (chars_regex key' r)
  | EmptyString => r
  end.

Definition placeholder_regex (key : string) : regex :=
  RSeq (RChar "{") (RSeq (RChar "{") (RSeq white_space_star
    (chars_regex key
       (RSeq white_space_star (RSeq (RChar "}") (RSeq (RChar "}") REmpty)))))).

(** what is left of [s] after its prefix [p] *)
Fixpoint strip_prefix (p s : string) : option string :=
  match p, s with
  | EmptyString, _ => Some s
  | String a p', String b s' => if Ascii.eqb a b then strip_prefix p' s' else None
  | String _ _, EmptyString => None
  end.

(** [\s*] followed by [k]: the longest run of white space after which [k]
    succeeds *)
Fixpoint skip_white_space (k : string -> option string) (s : string)
  : option string :=
  match s with
  | String c s' =>
      if isWhiteSpace c then or_else (skip_white_space k s') (k s) else k s
  | EmptyString => k s
  end.

(** the text after a placeholder for [key] at the start of [s] *)
Definition placeholder_match (key s : string) : option string :=
  match strip_prefix "{{" s with
  | Some s1 =>
      skip_white_space
        (fun s2 =>
           match strip_prefix key s2 with
           | Some s3 => skip_white_space (strip_prefix "}}") s3
           | None => None
           end) s1
  | None => None
  end.

(** every placeholder for [key] in [s] replaced by [text], from left to
    right *)
Fixpoint rewrite_placeholders (fuel : nat) (key text s : string) : string :=
  match fuel with
  | O => s
  | S fuel' =>
      match placeholder_match key s with
      | Some after => text +:+ rewrite_placeholders fuel' key text after
      | None =>
          match s with
          | String c s' => String c (rewrite_placeholders fuel' key text s')
          | EmptyString => EmptyString
          end
      end
  end.

(** [newKey.replace(/\s+/g, '_')], directly: every run of white space
    becomes one underscore *)
Fixpoint squash (in_run : bool) (s : string) : string :=
  match s with
  | String c s' =>
      if isWhiteSpace c then
        if in_run then squash true s' else String "_" (squash true s')
      else String c (squash false s')
  | EmptyString => EmptyString
  end.

Definition string_terms (key : string) : list regex :=
  map RChar (list_ascii_of_string key).

Definition no_white_space (s : string) : bool :=
  string_forallb (fun c => negb (isWhiteSpace c)) s.

(** a free-text field of a configuration: absent, or a string *)
Definition text_field (config : gmap string value) (field : string) : Prop :=
  config !! field = None \/ exists s, config !! field = Some (VStr s).

(** the effects carry a configuration update in which the schema
    [schemaType] maps [key] to [v] and has no entry for [oldKey] *)
Definition schema_renamed (effects : list effect)
  (schemaType oldKey key : string) (v : value) : Prop :=
  exists id config schema,
    In (dispatch (updateNodeData id (VObj {[ "config" := VObj config ]})))
       effects /\
    config !! schemaType = Some (VObj schema) /\
    schema !! key = Some v /\
    schema !! oldKey = None.

(** the text of a message after the placeholders of [oldKey] have been
    rewritten *)
Definition rewritten_text (oldKey newKey s : string) : string :=
  rewrite_placeholders (S (String.length s)) oldKey
    ("{{" +:+ newKey +:+ "}}") s.

(** the configuration [updatedConfig] once the block for [field] has run *)
Definition with_rewritten (config : gmap string value)
  (field oldKey newKey : string) (updatedConfig : gmap string value)
  : gmap string value :=
  match config !! field with
  | Some (VStr s) =>
      if String.eqb s "" then updatedConfig
      else <[field := VStr (rewritten_text oldKey newKey s)]> updatedConfig
  | _ => updatedConfig
  end.

(** the map [o.side.properties] of an object, empty when it has none *)
Definition side_properties (o : gmap string value) (side : string)
  : gmap string value :=
  match o !! side with
  | Some (VObj s) =>
      match s !! "properties" with
      | Some (VObj props) => props
      | _ => ∅
      end
  | _ => ∅
  end.

(** a template declares [side] as the data model has it: not at all, or as
    an object whose [properties], if any, is a mapping *)
Definition template_side (template : gmap string value) (side : string)
  : Prop :=
  template !! side = None \/
  exists s, template !! side = Some (VObj s) /\
            (s !! "properties" = None \/
             exists props, s !! "properties" = Some (VObj props)).

(** the overrides say nothing about [side], or carry [side.properties] *)
Definition override_side (overrides : gmap string value) (side : string)
  : Prop :=
  overrides !! side = None \/
  exists s props, overrides !! side = Some (VObj s) /\
                  s !! "properties" = Some (VObj props).

(** the overrides that [createNode] works with *)
Definition given_overrides (additionalData : value)
  : option (gmap string value) :=
  match additionalData with
  | VUndefined => Some ∅
  | VObj overrides => Some overrides
  | _ => None
  end.

(** [node.data.side.properties] is the union of the template's and the
    overrides' properties in which the overrides win *)
Definition properties_merged (node : value) (side : string)
  (template overrides : gmap string value) : Prop :=
  exists n data s props,
    node = VObj n /\ n !! "data" = Some (VObj data) /\
    data !! side = Some (VObj s) /\ s !! "properties" = Some (VObj props) /\
    (forall k x, side_properties overrides side !! k = Some x ->
                 props !! k = Some x) /\
    (forall k, side_properties overrides side !! k = None ->
               props !! k = side_properties template side !! k).

(** [processedAdditionalData] after the block for [side] *)
Definition merged_overrides (overrides : gmap string value) (side : string)
  (defaults processed : gmap string value) : gmap string value :=
  match overrides !! side with
  | Some (VObj s) =>
      match s !! "properties" with
      | Some (VObj props) =>
          <[side := VObj (<[ "properties" := VObj (props ∪ defaults) ]> s)]>
            processed
      | _ => processed
      end
  | _ => processed
  end.

(** a NodeInstance of the data model: [{id, type, position, data}] with
    string [id] and [type], an object [data] whose [config], if any, is a
    mapping, and no [config] of its own *)
Definition is_node (n : gmap string value) : Prop :=
  (exists id, n !! "id" = Some (VStr id)) /\
  (exists type, n !! "type" = Some (VStr type)) /\
  (exists data, n !! "data" = Some (VObj data) /\
                (data !! "config" = None \/
                 exists config, data !! "config" = Some (VObj config))) /\
  n !! "config" = None.

(** an EdgeInstance of the data model *)
Definition is_edge (e : gmap string value) : Prop :=
  (exists s, e !! "source" = Some (VStr s)) /\
  (exists h, e !! "sourceHandle" = Some (VStr h)) /\
  (exists t, e !! "target" = Some (VStr t)) /\
  (exists h, e !! "targetHandle" = Some (VStr h)).

Definition all_nodes (ns : list value) : Prop :=
  Forall (fun v => exists n, v = VObj n /\ is_node n) ns.

Definition all_edges (es : list value) : Prop :=
  Forall (fun v => exists e, v = VObj e /\ is_edge e) es.

(** what [nodes.find] returns on a graph of NodeInstances *)
Definition found_node (r : value) : Prop :=
  r = VUndefined \/ exists n, r = VObj n /\ is_node n.

(** the configuration that an effect gives a node *)
Definition updated_config (e : effect) : option value :=
  match e with
  | dispatch (updateNodeData _ (VObj data)) => data !! "config"
  | _ => None
  end.

(** [document.definition.links] *)
Definition links_of (document : outcome value) : option (list value) :=
  match document with
  | Ok (VObj d) =>
      match d !! "definition" with
      | Some (VObj def) =>
          match def !! "links" with
          | Some (VArr links) => Some links
          | _ => None
          end
      | _ => None
      end
  | _ => None
  end.

(** ** NodeSidebar.jsx: the other handlers *)

(** what the handlers of the sidebar do beside the effects of
    [handleInputChange] *)
Inductive sidebar_effect :=
| model_effect (e : effect)
| setFewShotIndex (index : Z)
| setWidth (width : number).

(** [[...v]]: the elements that an array literal takes from an iterable *)
Definition array_spread (v : value) : outcome (list value) :=
  match v with
  | VArr l => Ok l
  | VStr s => Ok (map (fun c => VStr (String c EmptyString))
                      (list_ascii_of_string s))
  | _ => Throw TypeError                        (* not iterable *)
  end.

(** [l.splice(start, 1)] for an integral [start]: the array afterwards *)
Definition splice_one (start : Z) (l : list value) : list value :=
  let len := Z.of_nat (length l) in
  let actualStart :=
    if (start <? 0)%Z then Z.max (len + start) 0 else Z.min start len in
  take (Z.to_nat actualStart) l ++ drop (S (Z.to_nat actualStart)) l.

Section FewShotExamples.

Variable lodash_set : value -> string -> value -> value.
Variable nodeID : string.
Variable dynamicModel : value.

(** [[...(dynamicModel?.few_shot_examples || [])]] *)
Definition few_shot_examples : outcome (list value) :=
  let* examples := optprop dynamicModel "few_shot_examples" in
  array_spread (js_or (chain_value examples) (VArr [])).

Definition handleAddNewExample : outcome (list sidebar_effect) :=
  let* existing := few_shot_examples in
  let updatedExamples :=
    existing ++ [VObj (<[ "input" := VStr "" ]> {[ "output" := VStr "" ]})] in
  let* effects :=
    handleInputChange lodash_set nodeID dynamicModel
      "few_shot_examples" (VArr updatedExamples) false in
  Ok (map model_effect effects
      ++ [setFewShotIndex (Z.of_nat (length updatedExamples) - 1)]).

(** [index] is the index that [Array.prototype.map] passes to the callback
    in [renderFewShotExamples], or any other integer *)
Definition handleDeleteExample (index : Z) : outcome (list effect) :=
  let* existing := few_shot_examples in
  handleInputChange lodash_set nodeID dynamicModel
    "few_shot_examples" (VArr (splice_one index existing)) false.

End FewShotExamples.

(** [s.split('.')] *)
Fixpoint split_dot (s : string) : list string :=
  match s with
  | EmptyString => [EmptyString]
  | String c s' =>
      if Ascii.eqb c "." then EmptyString :: split_dot s'
      else
        match split_dot s' with
        | segment :: rest => String c segment :: rest
        | [] => [String c EmptyString]
        end
  end.

(** [l.join('.')] *)
Fixpoint join_dot (l : list string) : string :=
  match l with
  | [] => EmptyString
  | [segment] => segment
  | segment :: rest => segment +:+ "." +:+ join_dot rest
  end.

(** [l.slice(-2)] *)
Definition slice_last_two (l : list string) : list string :=
  drop (length l - 2) l.

(** [fullPath] in [renderField]: the template literal
    [`${parentPath ? `${parentPath}.` : ''}${key}`] *)
Definition renderField_fullPath (parentPath key : string) : string :=
  (if truthy (VStr parentPath) then parentPath +:+ "." else "") +:+ key.

Section Paths.

Variable lodash_set : value -> string -> value -> value.
Variable nodeID : string.
Variable dynamicModel : value.

(** the [onChange] of the [Select] that [renderEnumSelect] returns; [text]
    is [e.target.value] *)
Definition enumSelect_onChange (fullPath : string) (text : string)
  : outcome (list effect) :=
  let lastTwoDots := join_dot (slice_last_two (split_dot fullPath)) in
  handleInputChange lodash_set nodeID dynamicModel lastTwoDots (VStr text) false.

(** the [onChange] of the [Slider] that [renderField] returns for a number
    with bounds *)
Definition slider_onChange (parentPath key : string) (newValue : value)
  : outcome (list effect) :=
  let path :=
    if truthy (VStr parentPath) then parentPath +:+ "." +:+ key else key in
  let lastTwoDots := slice_last_two (split_dot path) in
  if match lastTwoDots with
     | first :: _ => String.eqb first "config"
     | [] => false
     end
  then
    match lastTwoDots with
    | _ :: finalPath :: _ =>
        handleInputChange lodash_set nodeID dynamicModel finalPath newValue true
    | _ => Throw TypeError         (* key.includes: key is undefined *)
    end
  else
    handleInputChange lodash_set nodeID dynamicModel
      (join_dot lastTwoDots) newValue true.

End Paths.

(** [Math.max(a, b)] and [Math.min(a, b)] for two numbers: [NaN] when one
    of them is [NaN]; [+0] is larger than [-0] *)
Definition Math_max (a b : number) : number :=
  match SFcompare a b with
  | None => NaN
  | Some Lt => b
  | Some Gt => a
  | Some Eq => match a with S754_zero true => b | _ => a end
  end.

Definition Math_min (a b : number) : number :=
  match SFcompare a b with
  | None => NaN
  | Some Lt => a
  | Some Gt => b
  | Some Eq => match a with S754_zero false => b | _ => a end
  end.

(** the [mousemove] listener of the resize handle *)
Definition handleMouseMove (isResizing : bool) (innerWidth clientX : number)
  : list sidebar_effect :=
  if negb isResizing then []
  else
    let newWidth := SFsub prec64 emax64 innerWidth clientX in
    let constrainedWidth :=
      Math_min (Math_max newWidth (number_of_Z 300)) (number_of_Z 800) in
    [setWidth constrainedWidth].

(** [findNodeSchema] of NodeSidebar: the loop of [createNode] *)
Definition findNodeSchema (nodeTypes : value) (nodeType : string)
  : outcome value :=
  let* categories := for_in_values nodeTypes in
  find_node_type categories nodeType.

(** [Object.values(o)] *)
Definition object_values (o : value) : outcome (list value) :=
  match o with
  | VUndefined | VNull => Throw TypeError
  | VObj m => Ok (map_to_list m).*2
  | VArr l => Ok l
  | VBool _ | VNum _ => Ok []
  | VStr s => Ok (map (fun c => VStr (String c EmptyString))
                      (list_ascii_of_string s))
  end.

(** [l.flat()] *)
Definition array_flat (l : list value) : list value :=
  flat_map (fun v => match v with VArr inner => inner | _ => [v] end) l.

(** the selector of [NewNodeSidebar]:
    [Object.values(raw).flat().find((nodeType) => nodeType.name === type)],
    where [type] is [node?.type] *)
Definition selectNodeType (raw : value) (type : value) : outcome value :=
  let* categories := object_values raw in
  array_find (fun nodeType =>
                let* name := getprop nodeType "name" in
                strict_eq name type)
             (array_flat categories).

(** ** OutputDisplayNode.jsx: the width of a node *)












(** ** More notions used to state the properties *)

(** node data from which [nodeData?.config] yields nothing to read a schema
    from: no node data at all, or node data without a configuration *)
Definition without_config (nodeData : value) : Prop :=
  nullish nodeData = true \/
  exists nd, nodeData = VObj nd /\
             (nd !! "config" = None \/ nd !! "config" = Some VUndefined \/
              nd !! "config" = Some VNull).

(** the effects of a rename that goes through *)
Definition rename_effects (id oldKey nk schemaType : string)
  (config' : gmap string value) : list effect :=
  [ dispatch (updateNodeData id (VObj {[ "config" := VObj config' ]}));
    dispatch (updateEdgesOnHandleRename id oldKey nk schemaType);
    setEditingField VNull ].





(** a catalog as the data model has it: every category is an array of
    templates, and a template is an object with a string [name] *)
Definition is_template (v : value) : Prop :=
  exists t name, v = VObj t /\ t !! "name" = Some (VStr name).

Definition is_catalog (categories : list value) : Prop :=
  Forall (fun c => exists templates, c = VArr templates /\
                                     Forall is_template templates) categories.

(** some category of the catalog has a template named [type] *)
Definition has_template (categories : list value) (type : string) : Prop :=
  exists templates t,
    In (VArr templates) categories /\ In (VObj t) templates /\
    t !! "name" = Some (VStr type).

(** what the template gives [data] when the overrides do not say
    otherwise *)
Definition template_defaults (template visual_tag : gmap string value)
  : gmap string value :=
  <[ "title" := default VUndefined (template !! "name") ]>
  (<[ "acronym" := default VUndefined (visual_tag !! "acronym") ]>
  (<[ "color" := default VUndefined (visual_tag !! "color") ]>
  {[ "config" := default VUndefined (template !! "config") ]})).

(** [node.data.config] of a NodeInstance *)
Definition node_config (n : gmap string value) : value :=
  match n !! "data" with
  | Some (VObj data) => default VUndefined (data !! "config")
  | _ => VUndefined
  end.

(** the entries of a configuration, none when there is no configuration *)
Definition config_entries (config : value) : gmap string value :=
  match config with VObj c => c | _ => ∅ end.

(** the input schema that is made from the declared input variables *)
Definition declared_schema (vars : gmap string value) : value :=
  VObj ((fun _ => VStr "str") <$> vars).

(** [node.type === 'InputNode'] *)
Definition is_input_node (n : gmap string value) : bool :=
  match n !! "type" with
  | Some (VStr type) => String.eqb type "InputNode"
  | _ => false
  end.

(** the record [{id, node_type, config, coordinates}] of a node *)
Definition saved_record (vars : gmap string value) (node : value) : value :=
  match node with
  | VObj n =>
      VObj (<[ "id" := default VUndefined (n !! "id") ]>
           (<[ "node_type" := default VUndefined (n !! "type") ]>
           (<[ "config" :=
                 if is_input_node n
                 then VObj (<[ "input_schema" := declared_schema vars ]>
                              (config_entries (node_config n)))
                 else node_config n ]>
           {[ "coordinates" := default VUndefined (n !! "position") ]})))
  | _ => VUndefined
  end.

(** an entry of [nodes] that is [null] or [undefined], or a NodeInstance *)
Definition node_or_hole (v : value) : Prop :=
  nullish v = true \/ exists n, v = VObj n /\ is_node n.

(** an input node whose [data] is missing *)
Definition input_node_without_data (n : gmap string value) : Prop :=
  n !! "type" = Some (VStr "InputNode") /\
  (n !! "data" = None \/ n !! "data" = Some VUndefined \/
   n !! "data" = Some VNull).

(** the few-shot examples of a configuration: those of its array
    [few_shot_examples], none when there is no such entry *)
Definition examples_of (model : gmap string value) : option (list value) :=
  match model !! "few_shot_examples" with
  | Some (VArr l) => Some l
  | None | Some VUndefined | Some VNull => Some []
  | _ => None
  end.

(** what [handleInputChange] does to store [v] under [key] *)
Definition stored_effects (nodeID : string) (model : gmap string value)
  (key : string) (v : value) : list effect :=
  [ setDynamicModel (VObj (<[key := v]> model));
    dispatch (updateNodeData nodeID
                (VObj {[ "config" := VObj (<[key := v]> model) ]})) ].

(** the new, empty example *)
Definition empty_example : value :=
  VObj (<[ "input" := VStr "" ]> {[ "output" := VStr "" ]}).

(** the local state after the effects of a handler: the model of the last
    [setDynamicModel], or the model before *)
Definition model_after (dynamicModel : value) (effects : list effect) : value :=
  fold_left (fun model e =>
               match e with
               | setDynamicModel updated => updated
               | _ => model
               end) effects dynamicModel.

(** how many dots a path has *)
Fixpoint count_dots (s : string) : nat :=
  match s with
  | String c s' => (if Ascii.eqb c "." then 1 else 0) + count_dots s'
  | EmptyString => 0
  end.

(** every category of the catalog is an array *)
Definition categories_are_arrays (categories : list value) : Prop :=
  Forall (fun c => exists templates, c = VArr templates) categories.

(** [null] read as [undefined] *)
Definition null_as_undefined (r : outcome value) : outcome value :=
  match r with
  | Ok VNull => Ok VUndefined
  | _ => r
  end.

(** ** Sample data *)

Module Examples.

(** a node with the input handles [foo] and [x] *)
Definition schema : gmap string value :=
  <[ "foo" := VStr "str" ]> {[ "x" := VStr "int" ]}.

Definition config : gmap string value :=
  <[ "input_schema" := VObj schema ]>
  (<[ "output_schema" := VObj {[ "response" := VStr "str" ]} ]>
  (<[ "system_message" := VStr "Answer {{ foo }} briefly" ]>
  {[ "user_message" := VStr "{{foo}} and {{ x }}" ]})).

Definition nodeData : gmap string value :=
  <[ "title" := VStr "LLM" ]> {[ "config" := VObj config ]}.

(** the same node after [foo] has been renamed to [key] *)
Definition renamed_config (key : string) : gmap string value :=
  <[ "input_schema" := VObj (<[ key := VStr "str" ]> {[ "x" := VStr "int" ]}) ]>
  (<[ "output_schema" := VObj {[ "response" := VStr "str" ]} ]>
  (<[ "system_message" := VStr ("Answer {{" +:+ key +:+ "}} briefly") ]>
  {[ "user_message" := VStr ("{{" +:+ key +:+ "}} and {{ x }}") ]})).

(** a node one of whose input handles is named by an opening parenthesis *)
Definition paren_config (schema : gmap string value) : gmap string value :=
  <[ "input_schema" := VObj schema ]> {[ "system_message" := VStr "hello" ]}.

Definition paren_nodeData (schema : gmap string value) : gmap string value :=
  {[ "config" := VObj (paren_config schema) ]}.

(** a catalog with the template [LLM] and, in [with_group], the template
    [group] *)
Definition visual_tag : gmap string value :=
  <[ "acronym" := VStr "L" ]> {[ "color" := VStr "#fff" ]}.

Definition llm_template : gmap string value :=
  <[ "name" := VStr "LLM" ]>
  (<[ "visual_tag" := VObj visual_tag ]>
  (<[ "config" := VObj {[ "model" := VStr "m" ]} ]>
  (<[ "input" := VObj {[ "properties" :=
        VObj (<[ "a" := VStr "str" ]> {[ "b" := VStr "str" ]}) ]} ]>
  {[ "output" := VObj {[ "properties" := VObj {[ "r" := VStr "str" ]} ]} ]}))).

Definition group_template : gmap string value :=
  <[ "name" := VStr "group" ]>
  (<[ "visual_tag" := VObj visual_tag ]>
  (<[ "config" := VObj ∅ ]>
  {[ "input" := VObj {[ "properties" := VObj {[ "a" := VStr "str" ]} ]} ]})).

Definition catalog : value :=
  VObj {[ "llm" := VArr [VObj llm_template] ]}.

Definition catalog_with_group : value :=
  VObj (<[ "llm" := VArr [VObj llm_template] ]>
        {[ "layout" := VArr [VObj group_template] ]}).

Definition position : value := VObj (<[ "x" := VZ 10 ]> {[ "y" := VZ 20 ]}).

Definition overrides : gmap string value :=
  <[ "title" := VStr "Summarise" ]>
  {[ "input" := VObj {[ "properties" :=
        VObj (<[ "b" := VStr "int" ]> {[ "c" := VStr "int" ]}) ]} ]}.

(** the node that the claim about group nodes describes *)
Definition group_node (id : value) : value :=
  VObj (<[ "id" := id ]>
       (<[ "type" := VStr "group" ]>
       (<[ "position" := position ]>
       (<[ "data" := VObj {[ "title" := VStr "X" ]} ]>
       {[ "style" := VObj (<[ "width" := VZ 300 ]>
                             {[ "height" := VZ 300 ]}) ]})))).

(** a graph: an input node with the handles [a] and [b], an LLM node
    that declares the types [int] for its input [x] and its output
    [response], and two edges *)
Definition input_node : gmap string value :=
  <[ "id" := VStr "in" ]>
  (<[ "type" := VStr "InputNode" ]>
  (<[ "position" := position ]>
  {[ "data" := VObj (<[ "title" := VStr "Input" ]>
       {[ "config" := VObj {[ "input_schema" :=
                                VObj {[ "stale" := VStr "int" ]} ]} ]}) ]})).

Definition llm_node : gmap string value :=
  <[ "id" := VStr "llm" ]>
  (<[ "type" := VStr "LLM" ]>
  (<[ "position" := position ]>
  {[ "data" := VObj (<[ "title" := VStr "LLM" ]>
       {[ "config" := VObj
            (<[ "input_schema" := VObj {[ "x" := VStr "int" ]} ]>
             {[ "output_schema" := VObj {[ "response" := VStr "int" ]} ]}) ]}) ]})).

Definition edge (s sh t th : string) : gmap string value :=
  <[ "source" := VStr s ]>
  (<[ "sourceHandle" := VStr sh ]>
  (<[ "target" := VStr t ]>
  {[ "targetHandle" := VStr th ]})).

Definition nodes : list value := [VObj input_node; VObj llm_node].

Definition edges : list value :=
  [ VObj (edge "in" "a" "llm" "x"); VObj (edge "llm" "response" "llm" "x") ].

Definition variables : gmap string value :=
  <[ "a" := VStr "" ]> {[ "b" := VStr "" ]}.

(** a node with the one input handle [schemaKey] and a system message that
    holds the placeholder of [messageKey] *)
Definition placeholder_config (schemaKey messageKey : string)
  : gmap string value :=
  <[ "input_schema" := VObj {[ schemaKey := VStr "str" ]} ]>
  {[ "system_message" := VStr ("Answer {{ " +:+ messageKey +:+ " }} briefly") ]}.

Definition placeholder_nodeData (key : string) : gmap string value :=
  {[ "config" := VObj (placeholder_config key key) ]}.

(** the node [nodeData] after [foo] has been renamed to the key [$&]: the
    placeholders of [foo] are wrapped in one more pair of braces *)
Definition wrapped_config : gmap string value :=
  <[ "input_schema" := VObj (<[ "$&" := VStr "str" ]> {[ "x" := VStr "int" ]}) ]>
  (<[ "output_schema" := VObj {[ "response" := VStr "str" ]} ]>
  (<[ "system_message" := VStr "Answer {{{{ foo }}}} briefly" ]>
  {[ "user_message" := VStr "{{{{foo}}}} and {{ x }}" ]})).

(** the link record of an edge whose two ends are typed [ts] and [tt] *)
Definition link (s sh ts t th tt : string) : value :=
  VObj (<[ "source_id" := VStr s ]>
       (<[ "source_output_key" := VStr sh ]>
       (<[ "source_output_type" := VStr ts ]>
       (<[ "target_id" := VStr t ]>
       (<[ "target_input_key" := VStr th ]>
       {[ "target_input_type" := VStr tt ]}))))).

End Examples.

Module HeapExamples.
Import Heap.

(** a heap with the overrides
    [{input: {properties: {x: {type: "str"}}}}] at location 3, the
    catalog [{llm: [{name: "LLM", visual_tag: {acronym: "L", color:
    "#fff"}, config: {}, input: {properties: {a: {type: "int"}}}}],
    layout: [{name: "group", visual_tag: ..., config: {}}]}] at location
    13 and the position [{x: 0, y: 0}] at location 14 *)
Definition ex_heap : heap :=
  [ (*  0 *) CObj {[ "type" := HStr "str" ]};
    (*  1 *) CObj {[ "x" := HRef 0 ]};
    (*  2 *) CObj {[ "properties" := HRef 1 ]};
    (*  3 *) CObj {[ "input" := HRef 2 ]};
    (*  4 *) CObj (<[ "acronym" := HStr "L" ]> {[ "color" := HStr "#fff" ]});
    (*  5 *) CObj ∅;
    (*  6 *) CObj {[ "type" := HStr "int" ]};
    (*  7 *) CObj {[ "a" := HRef 6 ]};
    (*  8 *) CObj {[ "properties" := HRef 7 ]};
    (*  9 *) CObj (<[ "name" := HStr "LLM" ]>
                  (<[ "visual_tag" := HRef 4 ]>
                  (<[ "config" := HRef 5 ]>
                  {[ "input" := HRef 8 ]})));
    (* 10 *) CArr [HRef 9];
    (* 11 *) CObj (<[ "name" := HStr "group" ]>
                  (<[ "visual_tag" := HRef 4 ]>
                  {[ "config" := HRef 5 ]}));
    (* 12 *) CArr [HRef 11];
    (* 13 *) CObj (<[ "llm" := HRef 10 ]> {[ "layout" := HRef 12 ]});
    (* 14 *) CObj (<[ "x" := HNum (number_of_Z 0) ]>
                  {[ "y" := HNum (number_of_Z 0) ]}) ].

Definition ex_overrides : hvalue := HRef 3.
Definition ex_catalog : hvalue := HRef 13.
Definition ex_position : hvalue := HRef 14.

(** read a property of the overrides, create a node of [type], write
    through the node, and read the property of the overrides again *)
Definition write_through_node (type : string) : M (hvalue * hvalue) :=
  let path := ["input"; "properties"; "x"; "type"] in
  do* before := get_path ex_overrides path in
  do* node := createNode "uuid" ex_catalog type (HStr "n1")
                ex_position ex_overrides in
  do* shared := get_path node ["data"; "input"; "properties"; "x"] in
  do* _ := setprop shared "type" (HStr "changed") in
  do* after := get_path ex_overrides path in
  ret (before, after).

End HeapExamples.

(** the node that [Heap.createNode] returns for the sample arguments, read
    back as a tree *)
Definition heap_createNode_read (type : string) : option value :=
  match Heap.createNode "uuid" HeapExamples.ex_catalog type (Heap.HStr "n1")
          HeapExamples.ex_position HeapExamples.ex_overrides
          HeapExamples.ex_heap with
  | Ok (node, h) => Heap.read 10 h node
  | _ => None
  end.

(** the node that [createNode] returns for the sample arguments read as
    trees *)
Definition tree_createNode (type : string) : option value :=
  nodeTypes ← Heap.read 10 HeapExamples.ex_heap HeapExamples.ex_catalog;
  position ← Heap.read 10 HeapExamples.ex_heap HeapExamples.ex_position;
  additionalData ← Heap.read 10 HeapExamples.ex_heap HeapExamples.ex_overrides;
  match createNode "uuid" nodeTypes type (VStr "n1") position additionalData with
  | Ok node => Some node
  | _ => None
  end.

(** * Properties *)

(** ** Strings *)

Lemma append_cons (x : ascii) (a b : string) :
  String x a +:+ b = String x (a +:+ b).
Proof. reflexivity. Qed.

Lemma append_empty_l (b : string) : "" +:+ b = b.
Proof. reflexivity. Qed.

Lemma append_assoc (a b c : string) : (a +:+ b) +:+ c = a +:+ (b +:+ c).
Proof.
  induction a as [|x a IH]; [reflexivity|].
  rewrite !append_cons. now rewrite IH.
Qed.

Lemma append_empty_r (a : string) : a +:+ "" = a.
Proof.
  induction a as [|x a IH]; [reflexivity|].
  rewrite append_cons. now rewrite IH.
Qed.

Lemma length_append (a b : string) :
  String.length (a +:+ b) = String.length a + String.length b.
Proof.
  induction a as [|x a IH]; [reflexivity|].
  rewrite append_cons. simpl. now rewrite IH.
Qed.

Lemma string_forallb_append p (a b : string) :
  string_forallb p (a +:+ b) = string_forallb p a && string_forallb p b.
Proof.
  induction a as [|x a IH]; [reflexivity|].
  rewrite append_cons. simpl. rewrite IH. now rewrite andb_assoc.
Qed.

Lemma includes_char_append c (a b : string) :
  includes_char c (a +:+ b) = includes_char c a || includes_char c b.
Proof.
  induction a as [|x a IH]; [reflexivity|].
  rewrite append_cons. simpl. rewrite IH. now rewrite orb_assoc.
Qed.

(** two ways of cutting the same string *)
Lemma append_eq_append (a b c d : string) :
  a +:+ b = c +:+ d ->
  (exists u, c = a +:+ u /\ b = u +:+ d) \/
  (exists u, u <> "" /\ a = c +:+ u /\ d = u +:+ b).
Proof.
  revert c. induction a as [|x a IH]; intros c H.
  - left. exists c. split; [reflexivity | exact H].
  - destruct c as [|y c].
    + right. exists (String x a). split; [discriminate|]. split; [reflexivity|].
      rewrite append_empty_l in H. now rewrite H.
    + rewrite !append_cons in H. injection H as -> H.
      destruct (IH _ H) as [(u & -> & ->) | (u & Hu & -> & ->)].
      * left. now exists u.
      * right. now exists u.
Qed.

Lemma strip_prefix_append (p s : string) : strip_prefix p (p +:+ s) = Some s.
Proof.
  induction p as [|x p IH]; [reflexivity|].
  rewrite append_cons. simpl. now rewrite Ascii.eqb_refl.
Qed.

Lemma strip_prefix_Some (p s r : string) :
  strip_prefix p s = Some r -> s = p +:+ r.
Proof.
  revert s. induction p as [|x p IH]; intros s H; simpl in H.
  - now injection H as ->.
  - destruct s as [|y s]; [discriminate|].
    destruct (Ascii.eqb_spec x y) as [->|]; [|discriminate].
    rewrite append_cons. f_equal. now apply IH.
Qed.

(** ** The pattern of a placeholder *)

Lemma parse_from_append (st : pstate) (a b : string) :
  parse_from st (a +:+ b) = let* st' := parse_from st a in parse_from st' b.
Proof.
  revert st. induction a as [|x a IH]; intros st; [reflexivity|].
  rewrite append_cons. simpl. destruct (pstep st x); simpl; auto.
Qed.

Lemma pstep_plain (st : pstate) (c : ascii) :
  syntax_character c = false -> p_esc st = false -> p_last st <> LBrace ->
  pstep st c = Ok (push_atom st (RChar c) LAtom).
Proof.
  intros Hc Hesc Hlast. unfold pstep. rewrite Hesc.
  destruct c as [[] [] [] [] [] [] [] []]; try discriminate Hc;
    simpl; destruct (p_last st); congruence.
Qed.

Lemma parse_from_plain (key : string) (st : pstate) :
  no_syntax_character key = true -> p_esc st = false -> p_last st <> LBrace ->
  parse_from st key =
    Ok {| p_stack := p_stack st;
          p_cur := {| f_alts := f_alts (p_cur st);
                      f_seq := rev (string_terms key) ++ f_seq (p_cur st) |};
          p_last := match key with EmptyString => p_last st | _ => LAtom end;
          p_esc := false; p_groups := p_groups st |}.
Proof.
  revert st. induction key as [|c key IH]; intros st Hkey Hesc Hlast.
  - destruct st as [stack [alts terms] last esc groups]. simpl in *. now subst.
  - simpl in Hkey. apply andb_true_iff in Hkey as [Hc Hkey].
    apply negb_true_iff in Hc.
    simpl. rewrite (pstep_plain _ _ Hc Hesc Hlast). simpl.
    rewrite IH; [|assumption|reflexivity|discriminate].
    simpl. unfold string_terms. simpl. rewrite <- app_assoc. simpl.
    f_equal. f_equal. now destruct key.
Qed.

Lemma foldr_string_terms (key : string) (r : regex) :
  foldr RSeq r (string_terms key) = chars_regex key r.
Proof.
  induction key as [|c key IH]; [reflexivity|].
  unfold string_terms in *. simpl. now rewrite IH.
Qed.

Lemma RegExp_new_placeholder (key : string) :
  no_syntax_character key = true ->
  RegExp_new ("{{\s*" +:+ key +:+ "\s*}}") =
    Ok {| re_tree := placeholder_regex key; re_groups := 0 |}.
Proof.
  intros Hkey. unfold RegExp_new.
  rewrite parse_from_append.
  change (parse_from pstate_init "{{\s*") with
    (Ok {| p_stack := [];
            p_cur := {| f_alts := [];
                        f_seq := [white_space_star; RChar "{"; RChar "{"] |};
            p_last := LQuant; p_esc := false; p_groups := 0 |}).
  cbn [obind]. rewrite parse_from_append.
  rewrite parse_from_plain by (assumption || reflexivity || discriminate).
  cbn. f_equal. f_equal.
  unfold frame_regex, seq_regex. cbn.
  rewrite !rev_app_distr, rev_involutive. cbn.
  rewrite <- !app_assoc. rewrite foldr_app. cbn.
  now rewrite foldr_string_terms.
Qed.

(** ** Matching a placeholder *)

Lemma repeat_white_space_star (fuel : nat) (s : string) k :
  String.length s < fuel ->
  repeat_match (rmatch (RSet false CsSpace)) k true fuel 0 None s =
    skip_white_space k s.
Proof.
  revert s. induction fuel as [|fuel IH]; intros s Hlen; [lia|].
  destruct s as [|c s]; [reflexivity|].
  simpl in *. destruct (isWhiteSpace c); [|reflexivity].
  replace (String.length s =? S (String.length s)) with false
    by (symmetry; apply Nat.eqb_neq; lia).
  rewrite IH by lia. reflexivity.
Qed.

Lemma rmatch_white_space_star (s : string) k :
  rmatch white_space_star s k = skip_white_space k s.
Proof. apply repeat_white_space_star. simpl. lia. Qed.

Lemma skip_white_space_ext k1 k2 (s : string) :
  (forall x, k1 x = k2 x) -> skip_white_space k1 s = skip_white_space k2 s.
Proof.
  intros H. induction s as [|c s IH]; simpl; [apply H|].
  now rewrite IH, H.
Qed.

Lemma rmatch_chars (key : string) (r : regex) (s : string) k :
  rmatch (chars_regex key r) s k =
    match strip_prefix key s with
    | Some s' => rmatch r s' k
    | None => None
    end.
Proof.
  revert s. induction key as [|c key IH]; intros s; [reflexivity|].
  destruct s as [|c' s]; [reflexivity|].
  simpl. destruct (Ascii.eqb c c'); [apply IH | reflexivity].
Qed.

Lemma rmatch_placeholder (key s : string) :
  rmatch (placeholder_regex key) s Some = placeholder_match key s.
Proof.
  unfold placeholder_regex, placeholder_match.
  destruct s as [|c1 s]; [reflexivity|].
  cbn [rmatch strip_prefix]. destruct (Ascii.eqb "{" c1); [|reflexivity].
  destruct s as [|c2 s]; [reflexivity|].
  destruct (Ascii.eqb "{" c2); [|reflexivity].
  rewrite rmatch_white_space_star. apply skip_white_space_ext. intros s2.
  rewrite rmatch_chars. destruct (strip_prefix key s2) as [s3|]; [|reflexivity].
  cbn [rmatch]. rewrite rmatch_white_space_star.
  apply skip_white_space_ext. intros s4.
  destruct s4 as [|d1 s4]; [reflexivity|].
  cbn [strip_prefix]. destruct (Ascii.eqb "}" d1); [|reflexivity].
  destruct s4 as [|d2 s4]; [reflexivity|].
  destruct (Ascii.eqb "}" d2); reflexivity.
Qed.

(** *** What [placeholder_match] accepts *)

Lemma skip_white_space_sound k (s r : string) :
  skip_white_space k s = Some r ->
  exists ws s', s = ws +:+ s' /\ white_space_only ws = true /\ k s' = Some r.
Proof.
  unfold white_space_only.
  induction s as [|c s IH]; simpl; intros H.
  - exists "", "". auto.
  - destruct (isWhiteSpace c) eqn:Hc.
    + destruct (skip_white_space k s) as [r'|] eqn:Hs.
      * simpl in H. injection H as ->.
        destruct (IH eq_refl) as (ws & s' & -> & Hws & Hk).
        exists (String c ws), s'. rewrite append_cons. simpl.
        now rewrite Hc, Hws.
      * simpl in H. exists "", (String c s). auto.
    + exists "", (String c s). auto.
Qed.

Lemma skip_white_space_complete k (ws s' : string) :
  white_space_only ws = true -> is_Some (k s') ->
  is_Some (skip_white_space k (ws +:+ s')).
Proof.
  unfold white_space_only.
  intros Hws Hk. induction ws as [|c ws IH].
  - rewrite append_empty_l. destruct s' as [|c s']; simpl; [exact Hk|].
    destruct (isWhiteSpace c); [|exact Hk].
    destruct (skip_white_space k s'); simpl; eauto.
  - simpl in Hws. apply andb_true_iff in Hws as [Hc Hws].
    rewrite append_cons. simpl. rewrite Hc.
    destruct (IH Hws) as [r ->]. simpl. eauto.
Qed.

Lemma placeholder_match_sound (key s rest : string) :
  placeholder_match key s = Some rest ->
  exists ws1 ws2,
    white_space_only ws1 = true /\ white_space_only ws2 = true /\
    s = placeholder ws1 key ws2 +:+ rest.
Proof.
  unfold placeholder_match. intros H.
  destruct (strip_prefix "{{" s) as [s1|] eqn:H1; [|discriminate].
  apply strip_prefix_Some in H1 as ->.
  apply skip_white_space_sound in H as (ws1 & s2 & -> & Hws1 & H).
  destruct (strip_prefix key s2) as [s3|] eqn:H3; [|discriminate].
  apply strip_prefix_Some in H3 as ->.
  apply skip_white_space_sound in H as (ws2 & s4 & -> & Hws2 & H).
  apply strip_prefix_Some in H as ->.
  exists ws1, ws2. repeat split; try assumption.
  unfold placeholder. now rewrite !append_assoc.
Qed.

Lemma placeholder_match_complete (key ws1 ws2 rest : string) :
  white_space_only ws1 = true -> white_space_only ws2 = true ->
  is_Some (placeholder_match key (placeholder ws1 key ws2 +:+ rest)).
Proof.
  intros Hws1 Hws2. unfold placeholder_match, placeholder.
  rewrite !append_assoc. rewrite strip_prefix_append.
  apply skip_white_space_complete; [assumption|].
  rewrite strip_prefix_append.
  apply skip_white_space_complete; [assumption|].
  rewrite strip_prefix_append. eauto.
Qed.

(** *** Placeholders do not overlap *)

Lemma includes_char_forallb (c : ascii) (p : ascii -> bool) (s : string) :
  string_forallb p s = true -> p c = false -> includes_char c s = false.
Proof.
  intros Hs Hc. induction s as [|x s IH]; [reflexivity|].
  simpl in *. apply andb_true_iff in Hs as [Hx Hs]. rewrite (IH Hs).
  destruct (Ascii.eqb_spec c x) as [->|]; [congruence | reflexivity].
Qed.

Lemma includes_char_middle (c : ascii) (a b : string) :
  includes_char c (a +:+ String c b) = true.
Proof.
  rewrite includes_char_append. simpl. rewrite Ascii.eqb_refl.
  now rewrite orb_true_r.
Qed.

(** the text between the braces of a placeholder holds no brace *)
Lemma body_no_brace (b : ascii) (ws1 key ws2 : string) :
  syntax_character b = true -> isWhiteSpace b = false ->
  white_space_only ws1 = true -> white_space_only ws2 = true ->
  no_syntax_character key = true ->
  includes_char b (ws1 +:+ key +:+ ws2) = false.
Proof.
  intros Hb Hb' H1 H2 Hk. rewrite !includes_char_append.
  rewrite (includes_char_forallb b _ ws1 H1 Hb').
  rewrite (includes_char_forallb b _ ws2 H2 Hb').
  rewrite (includes_char_forallb b _ key Hk); [reflexivity|].
  now rewrite Hb.
Qed.

Lemma body_end_unique (x1 x2 r1 r2 : string) :
  includes_char "}" x1 = false -> includes_char "}" x2 = false ->
  x1 +:+ String "}" r1 = x2 +:+ String "}" r2 -> r1 = r2.
Proof.
  revert x2. induction x1 as [|c x1 IH]; intros x2 H1 H2 H.
  - destruct x2 as [|d x2].
    + rewrite !append_empty_l in H. now injection H.
    + rewrite append_empty_l, !append_cons in H. injection H as <- _.
      simpl in H2. discriminate.
  - destruct x2 as [|d x2].
    + rewrite append_empty_l, !append_cons in H. injection H as -> _.
      simpl in H1. discriminate.
    + rewrite !append_cons in H. injection H as -> H.
      simpl in H1, H2. apply orb_false_iff in H1 as [_ H1].
      apply orb_false_iff in H2 as [_ H2]. eauto.
Qed.

Lemma placeholder_match_token (key ws1 ws2 post : string) :
  no_syntax_character key = true ->
  white_space_only ws1 = true -> white_space_only ws2 = true ->
  placeholder_match key (placeholder ws1 key ws2 +:+ post) = Some post.
Proof.
  intros key_plain ws1_white ws2_white.
  destruct (placeholder_match_complete key ws1 ws2 post ws1_white ws2_white)
    as [rest H].
  rewrite H. f_equal.
  apply placeholder_match_sound in H as (w1 & w2 & Hw1 & Hw2 & H).
  unfold placeholder in H.
  rewrite !append_assoc in H. rewrite !append_cons, !append_empty_l in H.
  injection H as H.
  rewrite <- !append_assoc in H.
  apply body_end_unique in H; [now injection H| |];
    rewrite !append_assoc; now apply body_no_brace.
Qed.

Lemma placeholder_no_overlap (body pre u z rest : string) :
  includes_char "{" body = false -> pre <> "" -> u <> "" ->
  String "{" (String "{" (body +:+ "}}")) = pre +:+ u ->
  String "{" (String "{" z) = u +:+ rest ->
  False.
Proof.
  intros Hbody Hpre Hu H1 H2.
  destruct pre as [|p pre]; [congruence|]. destruct u as [|c u]; [congruence|].
  rewrite append_cons in H1, H2. injection H1 as <- H1. injection H2 as <- H2.
  destruct pre as [|q pre].
  - rewrite append_empty_l in H1. injection H1 as <-.
    destruct body as [|b body].
    + rewrite append_empty_l in H2. discriminate.
    + rewrite !append_cons in H2. injection H2 as <- _.
      simpl in Hbody. discriminate.
  - rewrite append_cons in H1. injection H1 as <- H1.
    assert (Hin : includes_char "{" (body +:+ "}}") = true)
      by (rewrite H1; apply includes_char_middle).
    rewrite includes_char_append, Hbody in Hin. discriminate.
Qed.

Lemma placeholder_match_local (key ws1 ws2 pre post : string) :
  no_syntax_character key = true ->
  white_space_only ws1 = true -> white_space_only ws2 = true ->
  pre <> "" ->
  placeholder_match key (pre +:+ placeholder ws1 key ws2 +:+ post) =
    option_map (fun after => after +:+ placeholder ws1 key ws2 +:+ post)
               (placeholder_match key pre).
Proof.
  intros Hkey Hws1 Hws2 Hpre.
  destruct (placeholder_match key (pre +:+ _)) as [rest|] eqn:E.
  - destruct (placeholder_match_sound _ _ _ E) as (w1 & w2 & Hw1 & Hw2 & H).
    symmetry in H. apply append_eq_append in H
      as [(u & -> & ->) | (u & Hu & H1 & H2)].
    + now rewrite placeholder_match_token.
    + exfalso. unfold placeholder in H1, H2.
      rewrite !append_assoc in H2. rewrite <- !append_assoc in H1.
      rewrite !(append_assoc "{{") in H1.
      apply (placeholder_no_overlap ((w1 +:+ key) +:+ w2) pre u
               (ws1 +:+ key +:+ ws2 +:+ "}}" +:+ post) rest);
        [|assumption|assumption|exact H1|exact H2].
      rewrite append_assoc. apply body_no_brace; auto.
  - destruct (placeholder_match key pre) as [after|] eqn:E'; [|reflexivity].
    destruct (placeholder_match_sound _ _ _ E') as (w1 & w2 & Hw1 & Hw2 & ->).
    rewrite append_assoc, placeholder_match_token in E by assumption.
    discriminate.
Qed.

Lemma placeholder_match_shorter (key s after : string) :
  placeholder_match key s = Some after -> String.length after < String.length s.
Proof.
  intros H. apply placeholder_match_sound in H as (w1 & w2 & _ & _ & ->).
  unfold placeholder. rewrite !length_append. simpl. lia.
Qed.

(** ** Rewriting the placeholders of a text *)

Lemma rewrite_placeholders_S (fuel : nat) (key text s : string) :
  rewrite_placeholders (S fuel) key text s =
    match placeholder_match key s with
    | Some after => text +:+ rewrite_placeholders fuel key text after
    | None =>
        match s with
        | String c s' => String c (rewrite_placeholders fuel key text s')
        | EmptyString => EmptyString
        end
    end.
Proof. reflexivity. Qed.

Lemma rewrite_placeholders_fuel (key text : string) (f1 f2 : nat) (s : string) :
  String.length s < f1 -> String.length s < f2 ->
  rewrite_placeholders f1 key text s = rewrite_placeholders f2 key text s.
Proof.
  revert f2 s. induction f1 as [|f1 IH]; intros f2 s H1 H2; [lia|].
  destruct f2 as [|f2]; [lia|]. simpl.
  destruct (placeholder_match key s) as [after|] eqn:E.
  - apply placeholder_match_shorter in E. f_equal. apply IH; lia.
  - destruct s as [|c s]; [reflexivity|]. simpl in *. f_equal. apply IH; lia.
Qed.

Lemma rewrite_placeholders_token (key text ws1 ws2 post : string) :
  no_syntax_character key = true ->
  white_space_only ws1 = true -> white_space_only ws2 = true ->
  forall (fuel : nat) (pre : string),
    String.length (pre +:+ placeholder ws1 key ws2 +:+ post) < fuel ->
    rewrite_placeholders fuel key text (pre +:+ placeholder ws1 key ws2 +:+ post)
    = rewrite_placeholders (S (String.length pre)) key text pre
      +:+ text
      +:+ rewrite_placeholders (S (String.length post)) key text post.
Proof.
  intros Hkey Hws1 Hws2.
  induction fuel as [|fuel IH]; intros pre Hlen; [lia|].
  destruct pre as [|c pre].
  - rewrite append_empty_l in *.
    rewrite (rewrite_placeholders_S fuel).
    rewrite placeholder_match_token by assumption.
    unfold placeholder in Hlen. rewrite !length_append in Hlen. simpl in Hlen.
    change (rewrite_placeholders (S (String.length "")) key text "") with "".
    rewrite append_empty_l. f_equal.
    apply rewrite_placeholders_fuel; lia.
  - rewrite (rewrite_placeholders_S fuel).
    rewrite (rewrite_placeholders_S (String.length (String c pre))).
    rewrite placeholder_match_local by (assumption || discriminate).
    destruct (placeholder_match key (String c pre)) as [after|] eqn:E.
    + cbn [option_map].
      pose proof (placeholder_match_shorter _ _ _ E) as Hshort.
      rewrite !length_append in Hlen.
      rewrite IH by (rewrite !length_append; lia).
      rewrite append_assoc. f_equal. f_equal.
      apply rewrite_placeholders_fuel; simpl in *; lia.
    + cbn [option_map]. rewrite !append_cons.
      rewrite append_cons in Hlen. cbn [String.length] in Hlen.
      rewrite IH by lia.
      reflexivity.
Qed.

(** ** The global replacement of placeholders *)

Lemma expand_plain (text : string) (groups : nat) (matched before after : string) :
  includes_char "$" text = false ->
  expand text groups matched before after = Ok text.
Proof.
  induction text as [|c text IH]; intros H; [reflexivity|].
  cbn [includes_char] in H. apply orb_false_iff in H as [Hc H].
  cbn [expand]. rewrite Ascii.eqb_sym, Hc. now rewrite IH.
Qed.

Lemma str_take_S (n : nat) (c : ascii) (s : string) :
  str_take (S n) (String c s) = String c (str_take n s).
Proof. reflexivity. Qed.

Lemma replace_loop_placeholders (key text : string) :
  no_syntax_character key = true -> includes_char "$" text = false ->
  forall (fuel : nat) (before s : string),
    String.length s < fuel ->
    replace_loop fuel {| re_tree := placeholder_regex key; re_groups := 0 |}
                 text before s
    = Ok (rewrite_placeholders fuel key text s).
Proof.
  intros Hkey Htext.
  induction fuel as [|fuel IH]; intros before s Hlen; [lia|].
  cbn [replace_loop rewrite_placeholders]. unfold match_here. cbn [re_tree re_groups].
  rewrite rmatch_placeholder.
  destruct (placeholder_match key s) as [after|] eqn:E.
  - rewrite expand_plain by assumption. cbn [obind].
    pose proof (placeholder_match_shorter _ _ _ E) as Hshort.
    destruct s as [|c s]; [simpl in Hshort; lia|].
    replace (String.length (String c s) - String.length after)
      with (S (String.length s - String.length after))
      by (simpl in *; lia).
    rewrite str_take_S.
    rewrite IH by lia. reflexivity.
  - destruct s as [|c s]; [reflexivity|].
    simpl in Hlen. rewrite IH by lia. reflexivity.
Qed.

Lemma updateMessageVariables_text (oldKey newKey s : string) :
  no_syntax_character oldKey = true -> includes_char "$" newKey = false ->
  updateMessageVariables (VStr s) oldKey newKey =
    Ok (VStr (rewrite_placeholders (S (String.length s)) oldKey
                ("{{" +:+ newKey +:+ "}}") s)).
Proof.
  intros Hold Hnew. unfold updateMessageVariables.
  destruct s as [|c s]; [reflexivity|].
  change (truthy (VStr (String c s))) with true. cbn [negb].
  rewrite RegExp_new_placeholder by assumption. cbn [obind].
  unfold replace_all.
  rewrite replace_loop_placeholders; [reflexivity|assumption| |lia].
  rewrite !includes_char_append, Hnew. reflexivity.
Qed.

(** every placeholder of the old key becomes the placeholder of the new
    key, whatever stands before and after it *)
Lemma updateMessageVariables_placeholder
  (oldKey newKey ws1 ws2 pre post : string) :
  no_syntax_character oldKey = true -> includes_char "$" newKey = false ->
  white_space_only ws1 = true -> white_space_only ws2 = true ->
  exists pre' post',
    updateMessageVariables (VStr pre) oldKey newKey = Ok (VStr pre') /\
    updateMessageVariables (VStr post) oldKey newKey = Ok (VStr post') /\
    updateMessageVariables
      (VStr (pre +:+ placeholder ws1 oldKey ws2 +:+ post)) oldKey newKey
    = Ok (VStr (pre' +:+ "{{" +:+ newKey +:+ "}}" +:+ post')).
Proof.
  intros Hold Hnew Hws1 Hws2.
  eexists _, _. split; [now apply updateMessageVariables_text|].
  split; [now apply updateMessageVariables_text|].
  rewrite updateMessageVariables_text by assumption.
  rewrite rewrite_placeholders_token by (assumption || lia).
  now rewrite !append_assoc.
Qed.

(** ** Normalising a key: [newKey.replace(/\s+/g, '_')] *)

Lemma RegExp_new_white_space_run : RegExp_new "\s+" = Ok re_white_space_run.
Proof. reflexivity. Qed.

Lemma skip_white_space_Some (s : string) :
  skip_white_space Some s = Some (trimStart s).
Proof.
  induction s as [|c s IH]; [reflexivity|].
  simpl. destruct (isWhiteSpace c); [|reflexivity]. now rewrite IH.
Qed.

Lemma trimStart_length (s : string) :
  String.length (trimStart s) <= String.length s.
Proof.
  induction s as [|c s IH]; simpl; [lia|].
  destruct (isWhiteSpace c); simpl; lia.
Qed.

Lemma rmatch_white_space_plus (s : string) k :
  rmatch (RQuant 1 None true (RSet false CsSpace)) s k =
    match s with
    | String c s' => if isWhiteSpace c then skip_white_space k s' else None
    | EmptyString => None
    end.
Proof.
  cbn [rmatch repeat_match Nat.ltb Nat.leb].
  destruct s as [|c s]; [reflexivity|].
  cbn [rmatch xorb in_charset Nat.eqb andb pred option_map].
  destruct (isWhiteSpace c); [|reflexivity].
  apply repeat_white_space_star. simpl. lia.
Qed.

Lemma match_here_white_space_run (s : string) :
  match_here re_white_space_run s =
    match s with
    | String c s' => if isWhiteSpace c then Some (trimStart s') else None
    | EmptyString => None
    end.
Proof.
  unfold match_here, re_white_space_run. cbn [re_tree].
  change (rmatch (RSeq ?r REmpty) s Some) with (rmatch r s (fun s' => Some s')).
  rewrite rmatch_white_space_plus.
  destruct s as [|c s]; [reflexivity|].
  destruct (isWhiteSpace c); [|reflexivity].
  apply skip_white_space_Some.
Qed.

Lemma squash_trimStart (s : string) : squash true s = squash false (trimStart s).
Proof.
  induction s as [|c s IH]; [reflexivity|].
  simpl. destruct (isWhiteSpace c) eqn:Hc; [exact IH|].
  simpl. now rewrite Hc.
Qed.

Lemma replace_loop_white_space_run (fuel : nat) (before s : string) :
  String.length s < fuel ->
  replace_loop fuel re_white_space_run "_" before s = Ok (squash false s).
Proof.
  revert before s. induction fuel as [|fuel IH]; intros before s Hlen; [lia|].
  cbn [replace_loop]. rewrite match_here_white_space_run.
  destruct s as [|c s]; [reflexivity|]. simpl in Hlen.
  cbn [squash]. destruct (isWhiteSpace c).
  - cbn [expand re_groups re_white_space_run]. 
    change (Ascii.eqb "_" "$") with false. cbn [obind expand].
    pose proof (trimStart_length s) as Hs.
    replace (String.length (String c s) - String.length (trimStart s))
      with (S (String.length s - String.length (trimStart s)))
      by (simpl; lia).
    rewrite str_take_S. rewrite IH by lia. cbn [obind].
    now rewrite squash_trimStart.
  - rewrite IH by lia. reflexivity.
Qed.

Lemma normalize_squash (newKey : string) :
  replace_all re_white_space_run "_" newKey = Ok (squash false newKey).
Proof. apply replace_loop_white_space_run. lia. Qed.

Lemma squash_no_white_space (b : bool) (s : string) :
  no_white_space (squash b s) = true.
Proof.
  unfold no_white_space. revert b.
  induction s as [|c s IH]; intros b; [reflexivity|].
  simpl. destruct (isWhiteSpace c) eqn:Hc.
  - destruct b; [apply IH|]. simpl. apply IH.
  - simpl. rewrite Hc. apply IH.
Qed.

Lemma trimStart_no_white_space (s : string) :
  no_white_space s = true -> trimStart s = s.
Proof.
  unfold no_white_space. destruct s as [|c s]; [reflexivity|].
  simpl. intros H. apply andb_true_iff in H as [Hc _].
  apply negb_true_iff in Hc. now rewrite Hc.
Qed.

Lemma trimEnd_no_white_space (s : string) :
  no_white_space s = true -> trimEnd s = s.
Proof.
  unfold no_white_space. induction s as [|c s IH]; [reflexivity|].
  simpl. intros H. apply andb_true_iff in H as [Hc Hs].
  apply negb_true_iff in Hc. rewrite (IH Hs), Hc. now destruct s.
Qed.

Lemma trim_no_white_space (s : string) :
  no_white_space s = true -> trim s = s.
Proof.
  intros H. unfold trim. rewrite trimStart_no_white_space by assumption.
  now apply trimEnd_no_white_space.
Qed.

(** ** Reading properties *)

Lemma getprop_own (m : gmap string value) (k : string) (x : value) :
  m !! k = Some x -> getprop (VObj m) k = Ok x.
Proof. intros H. unfold getprop. now rewrite H. Qed.

Lemma getprop_missing (m : gmap string value) (k : string) :
  m !! k = None -> inherited k = false -> getprop (VObj m) k = Ok VUndefined.
Proof. intros H Hk. unfold getprop. now rewrite H, Hk. Qed.

Lemma optprop_own (m : gmap string value) (k : string) (x : value) :
  m !! k = Some x -> optprop (VObj m) k = Ok (Some x).
Proof. intros H. unfold optprop. cbn [nullish]. now rewrite (getprop_own _ _ _ H). Qed.

Lemma optprop_missing (m : gmap string value) (k : string) :
  m !! k = None -> inherited k = false ->
  optprop (VObj m) k = Ok (Some VUndefined).
Proof.
  intros H Hk. unfold optprop. cbn [nullish].
  now rewrite (getprop_missing _ _ H Hk).
Qed.

Lemma getprop_object (m : gmap string value) (k : string) :
  inherited k = false ->
  getprop (VObj m) k = Ok (default VUndefined (m !! k)).
Proof.
  intros Hk. unfold getprop. destruct (m !! k); [reflexivity|].
  now rewrite Hk.
Qed.

Lemma optprop_object (m : gmap string value) (k : string) :
  inherited k = false ->
  optprop (VObj m) k = Ok (Some (default VUndefined (m !! k))).
Proof.
  intros Hk. unfold optprop. cbn [nullish].
  now rewrite (getprop_object _ _ Hk).
Qed.

(** ** Renaming a schema key *)

Lemma normalized_no_white_space (newKey nk : string) :
  replace_all re_white_space_run "_" newKey = Ok nk ->
  no_white_space nk = true.
Proof.
  rewrite normalize_squash. intros [= <-]. apply squash_no_white_space.
Qed.

Lemma rename_guard (oldKey newKey nk : string) :
  replace_all re_white_space_run "_" newKey = Ok nk ->
  nk <> "" -> nk <> oldKey ->
  String.eqb oldKey nk || negb (truthy (VStr (trim nk))) = false.
Proof.
  intros Hnorm Hne Hold.
  rewrite (trim_no_white_space nk) by (eapply normalized_no_white_space; eauto).
  cbn [truthy]. rewrite negb_involutive.
  apply orb_false_iff. split; apply String.eqb_neq; congruence.
Qed.

Lemma update_message_field_text (nd config : gmap string value)
  (field oldKey newKey : string) (updatedConfig : gmap string value) :
  nd !! "config" = Some (VObj config) ->
  inherited field = false ->
  text_field config field ->
  no_syntax_character oldKey = true -> includes_char "$" newKey = false ->
  update_message_field (VObj nd) field oldKey newKey updatedConfig =
    Ok match config !! field with
       | Some (VStr s) =>
           if String.eqb s "" then updatedConfig
           else <[field := VStr (rewritten_text oldKey newKey s)]> updatedConfig
       | _ => updatedConfig
       end.
Proof.
  intros Hcfg Hfield Htext Hold Hnew. unfold update_message_field.
  rewrite (optprop_own _ _ _ Hcfg). cbn [obind opt_link].
  destruct Htext as [Hnone | [s Hs]].
  - rewrite (optprop_missing _ _ Hnone Hfield), Hnone. reflexivity.
  - rewrite (optprop_own _ _ _ Hs), Hs. cbn [obind].
    change (chain_value (Some (VStr s))) with (VStr s). cbn [truthy].
    destruct (String.eqb s ""); [reflexivity|]. cbn [negb].
    rewrite (getprop_own _ _ _ Hcfg). cbn [obind].
    rewrite (getprop_own _ _ _ Hs). cbn [obind].
    rewrite updateMessageVariables_text by assumption. reflexivity.
Qed.

Lemma placeholder_text_nonempty (pre ws1 key ws2 post : string) :
  String.eqb (pre +:+ placeholder ws1 key ws2 +:+ post) "" = false.
Proof.
  apply String.eqb_neq. intros H.
  apply (f_equal String.length) in H. unfold placeholder in H.
  rewrite !length_append in H. simpl in H. lia.
Qed.

Lemma rewritten_text_placeholder (oldKey newKey ws1 ws2 pre post : string) :
  no_syntax_character oldKey = true ->
  white_space_only ws1 = true -> white_space_only ws2 = true ->
  rewritten_text oldKey newKey (pre +:+ placeholder ws1 oldKey ws2 +:+ post) =
    rewritten_text oldKey newKey pre +:+ "{{" +:+ newKey +:+ "}}"
    +:+ rewritten_text oldKey newKey post.
Proof.
  intros Hold H1 H2. unfold rewritten_text.
  rewrite rewrite_placeholders_token by (assumption || lia).
  now rewrite !append_assoc.
Qed.

Lemma rename_handle_input (id oldKey newKey : string) (e : EdgeInstance) :
  rename_handle id oldKey newKey "input_schema" e =
    if String.eqb (target e) id && String.eqb (targetHandle e) oldKey
    then {| source := source e; sourceHandle := sourceHandle e;
            target := target e; targetHandle := newKey |}
    else e.
Proof.
  unfold rename_handle. cbn [String.eqb Ascii.eqb Bool.eqb andb].
  destruct (String.eqb (target e) id && String.eqb (targetHandle e) oldKey);
    reflexivity.
Qed.

Lemma with_rewritten_other (config : gmap string value)
  (field oldKey newKey k : string) (updatedConfig : gmap string value) :
  k <> field ->
  with_rewritten config field oldKey newKey updatedConfig !! k
  = updatedConfig !! k.
Proof.
  intros Hk. unfold with_rewritten.
  destruct (config !! field) as [[| | | |s| |]|]; try reflexivity.
  destruct (String.eqb s ""); [reflexivity|].
  now rewrite lookup_insert_ne.
Qed.

Lemma with_rewritten_field (config : gmap string value)
  (field oldKey newKey s : string) (updatedConfig : gmap string value) :
  config !! field = Some (VStr s) -> String.eqb s "" = false ->
  with_rewritten config field oldKey newKey updatedConfig !! field
  = Some (VStr (rewritten_text oldKey newKey s)).
Proof.
  intros Hs Hne. unfold with_rewritten. rewrite Hs, Hne.
  apply lookup_insert_eq.
Qed.

(** Renaming a key of the input schema when the old key holds no syntax
    character of regular expressions and the normal form [nk] of the new
    key (white space runs replaced by underscores) no dollar sign.  For a
    node whose input schema has the key [oldKey], and [nk] not empty and
    different from [oldKey], the handler issues a configuration update in
    which the input schema maps [nk] to the value that [oldKey] had and no
    longer has [oldKey]; every placeholder of [oldKey] in the two message
    fields becomes the placeholder of [nk]; and the edge update that is
    issued repoints the edges that target the handle [oldKey] of this node
    to [nk].  Without the two conditions on the keys the rename can fail,
    as the sample inputs further down show. *)
Theorem handleSchemaKeyEdit_renames_input_key
  (id : string) (nd config schema : gmap string value)
  (oldKey newKey nk : string) (v : value) :
  nd !! "config" = Some (VObj config) ->
  config !! "input_schema" = Some (VObj schema) ->
  schema !! oldKey = Some v ->
  text_field config "system_message" -> text_field config "user_message" ->
  replace_all re_white_space_run "_" newKey = Ok nk ->
  nk <> "" -> nk <> oldKey ->
  no_syntax_character oldKey = true -> includes_char "$" nk = false ->
  exists effects config',
    handleSchemaKeyEdit id (VObj nd) oldKey newKey "input_schema" = Ok effects /\
    effects =
      [ dispatch (updateNodeData id (VObj {[ "config" := VObj config' ]}));
        dispatch (updateEdgesOnHandleRename id oldKey nk "input_schema");
        setEditingField VNull ] /\
    schema_renamed effects "input_schema" oldKey nk v /\
    (forall field ws1 ws2 pre post,
        field = "system_message" \/ field = "user_message" ->
        white_space_only ws1 = true -> white_space_only ws2 = true ->
        config !! field
          = Some (VStr (pre +:+ placeholder ws1 oldKey ws2 +:+ post)) ->
        exists pre' post',
          updateMessageVariables (VStr pre) oldKey nk = Ok (VStr pre') /\
          updateMessageVariables (VStr post) oldKey nk = Ok (VStr post') /\
          config' !! field
            = Some (VStr (pre' +:+ "{{" +:+ nk +:+ "}}" +:+ post'))) /\
    (forall edges,
        reduce_edges (updateEdgesOnHandleRename id oldKey nk "input_schema")
                     edges
        = map (fun e =>
                 if String.eqb (target e) id
                    && String.eqb (targetHandle e) oldKey
                 then {| source := source e; sourceHandle := sourceHandle e;
                         target := target e; targetHandle := nk |}
                 else e) edges).
Proof.
  intros Hcfg Hsch Hold Hsys Husr Hnorm Hne Hdiff Hplain Hdollar.
  set (c0 := <["input_schema" := VObj (delete oldKey (<[nk := v]> schema))]>
               config).
  set (c1 := with_rewritten config "system_message" oldKey nk c0).
  set (c2 := with_rewritten config "user_message" oldKey nk c1).
  assert (Hrun :
    handleSchemaKeyEdit id (VObj nd) oldKey newKey "input_schema" =
      Ok [ dispatch (updateNodeData id (VObj {[ "config" := VObj c2 ]}));
           dispatch (updateEdgesOnHandleRename id oldKey nk "input_schema");
           setEditingField VNull ]).
  { unfold handleSchemaKeyEdit. rewrite Hnorm. cbn [obind].
    rewrite (rename_guard _ _ _ Hnorm Hne Hdiff).
    rewrite (optprop_own _ _ _ Hcfg). cbn [obind opt_link].
    rewrite (optprop_own _ _ _ Hsch). cbn [obind link].
    change (chain_value (Some ?x)) with x. cbn [spread obind].
    rewrite (getprop_own _ _ _ Hold). cbn [obind].
    change (chain_value (Some ?x)) with x.
    change (String.eqb "input_schema" "input_schema") with true. cbv iota.
    rewrite (update_message_field_text nd config) by (assumption || reflexivity).
    cbn [obind].
    rewrite (update_message_field_text nd config) by (assumption || reflexivity).
    reflexivity. }
  assert (Hschema : c2 !! "input_schema"
                    = Some (VObj (delete oldKey (<[nk := v]> schema)))).
  { unfold c2, c1. rewrite !with_rewritten_other by discriminate.
    apply lookup_insert_eq. }
  eexists _, c2. split; [exact Hrun|]. split; [reflexivity|]. split; [|split].
  - exists id, c2, (delete oldKey (<[nk := v]> schema)).
    split; [now left|]. split; [exact Hschema|]. split.
    + rewrite lookup_delete_ne by congruence. apply lookup_insert_eq.
    + apply lookup_delete_eq.
  - intros field ws1 ws2 pre post Hfield Hws1 Hws2 Hmsg.
    exists (rewritten_text oldKey nk pre), (rewritten_text oldKey nk post).
    split; [now apply updateMessageVariables_text|].
    split; [now apply updateMessageVariables_text|].
    rewrite <- (rewritten_text_placeholder oldKey nk ws1 ws2) by assumption.
    destruct Hfield as [-> | ->].
    + unfold c2. rewrite with_rewritten_other by discriminate.
      apply with_rewritten_field; [exact Hmsg|].
      apply placeholder_text_nonempty.
    + apply with_rewritten_field; [exact Hmsg|].
      apply placeholder_text_nonempty.
  - intros edges. cbn [reduce_edges]. apply map_ext. intros e.
    apply rename_handle_input.
Qed.

(** ** When the handler does nothing, and what a collision does *)

(** a new key that normalises to the old key, and the empty new key, only
    close the editor *)
Lemma handleSchemaKeyEdit_same_key (id : string) (nodeData : value)
  (oldKey newKey schemaType : string) :
  replace_all re_white_space_run "_" newKey = Ok oldKey ->
  handleSchemaKeyEdit id nodeData oldKey newKey schemaType
  = Ok [setEditingField VNull].
Proof.
  intros H. unfold handleSchemaKeyEdit. rewrite H. cbn [obind].
  now rewrite String.eqb_refl.
Qed.

Lemma handleSchemaKeyEdit_empty_key (id : string) (nodeData : value)
  (oldKey schemaType : string) :
  handleSchemaKeyEdit id nodeData oldKey "" schemaType
  = Ok [setEditingField VNull].
Proof.
  unfold handleSchemaKeyEdit.
  change (replace_all re_white_space_run "_" "") with (@Ok string "").
  cbn [obind]. change (truthy (VStr (trim ""))) with false.
  now rewrite orb_true_r.
Qed.

(** a new key made of white space alone is not the empty key once it is
    normalised *)
Lemma white_space_key_normalised (c : ascii) (s : string) :
  white_space_only (String c s) = true ->
  replace_all re_white_space_run "_" (String c s) = Ok "_".
Proof.
  intros H. rewrite normalize_squash. f_equal.
  unfold white_space_only in H. simpl in H.
  apply andb_true_iff in H as [Hc Hs]. simpl. rewrite Hc. f_equal.
  clear c Hc. induction s as [|c s IH]; [reflexivity|].
  simpl in Hs. apply andb_true_iff in Hs as [Hc Hs]. simpl. rewrite Hc. auto.
Qed.

(** the schema that a rename builds has one key fewer when the new key
    was already there *)
Lemma rename_collision_size (schema : gmap string value)
  (oldKey newKey : string) (v w : value) :
  schema !! oldKey = Some v -> schema !! newKey = Some w ->
  newKey <> oldKey ->
  S (size (delete oldKey (<[newKey := v]> schema))) = size schema.
Proof.
  intros Hold Hnew Hne.
  rewrite delete_insert_ne by congruence.
  rewrite map_size_insert_Some
    by (rewrite lookup_delete_ne by congruence; eauto).
  rewrite map_size_delete_Some by eauto.
  assert (size schema <> 0)
    by (intros H0; apply map_size_empty_inv in H0; now subst).
  lia.
Qed.

(** on the output schema, where no regular expression is involved, a
    rename onto an existing key always overwrites it *)
Lemma handleSchemaKeyEdit_output_collision
  (id : string) (nd config schema : gmap string value)
  (oldKey newKey nk : string) (v w : value) :
  nd !! "config" = Some (VObj config) ->
  config !! "output_schema" = Some (VObj schema) ->
  schema !! oldKey = Some v -> schema !! nk = Some w ->
  replace_all re_white_space_run "_" newKey = Ok nk ->
  nk <> "" -> nk <> oldKey ->
  handleSchemaKeyEdit id (VObj nd) oldKey newKey "output_schema"
  = Ok [ dispatch (updateNodeData id
           (VObj {[ "config" :=
              VObj (<[ "output_schema" :=
                         VObj (delete oldKey (<[nk := v]> schema)) ]> config) ]}));
         dispatch (updateEdgesOnHandleRename id oldKey nk "output_schema");
         setEditingField VNull ] /\
  delete oldKey (<[nk := v]> schema) !! nk = Some v /\
  delete oldKey (<[nk := v]> schema) !! oldKey = None /\
  S (size (delete oldKey (<[nk := v]> schema))) = size schema.
Proof.
  intros Hcfg Hsch Hold Hnew Hnorm Hne Hdiff. split; [|split; [|split]].
  - unfold handleSchemaKeyEdit. rewrite Hnorm. cbn [obind].
    rewrite (rename_guard _ _ _ Hnorm Hne Hdiff).
    rewrite (optprop_own _ _ _ Hcfg). cbn [obind opt_link].
    rewrite (optprop_own _ _ _ Hsch). cbn [obind link].
    change (chain_value (Some ?x)) with x. cbn [spread obind].
    rewrite (getprop_own _ _ _ Hold). reflexivity.
  - rewrite lookup_delete_ne by congruence. apply lookup_insert_eq.
  - apply lookup_delete_eq.
  - eapply rename_collision_size; eauto.
Qed.

(** ** The node factory *)

Lemma default_properties_template (template : gmap string value)
  (side : string) :
  inherited side = false -> template_side template side ->
  default_properties (VObj template) side
  = Ok (VObj (side_properties template side)).
Proof.
  intros Hside Hwf. unfold default_properties, side_properties.
  destruct Hwf as [Hnone | (s & Hs & Hprops)].
  - rewrite (getprop_missing _ _ Hnone Hside), Hnone. reflexivity.
  - rewrite (getprop_own _ _ _ Hs), Hs. cbn [obind].
    destruct Hprops as [Hnone | (props & Hp)].
    + rewrite (optprop_missing _ _ Hnone) by reflexivity. now rewrite Hnone.
    + rewrite (optprop_own _ _ _ Hp), Hp. reflexivity.
Qed.

Lemma merge_properties_override (overrides processed defaults : gmap string value)
  (side : string) :
  inherited side = false -> override_side overrides side ->
  processed !! side = overrides !! side ->
  merge_properties side (VObj defaults) (VObj overrides) (VObj processed)
  = Ok (VObj (merged_overrides overrides side defaults processed)).
Proof.
  intros Hside Hwf Hsame. unfold merge_properties, merged_overrides.
  destruct Hwf as [Hnone | (s & props & Hs & Hp)].
  - rewrite (getprop_missing _ _ Hnone Hside), Hnone. reflexivity.
  - rewrite (getprop_own _ _ _ Hs), Hs, Hp. cbn [obind].
    rewrite (optprop_own _ _ _ Hp). cbn [obind].
    change (chain_value (Some ?x)) with x. cbn [truthy].
    rewrite Hs in Hsame. rewrite (getprop_own _ _ _ Hsame). cbn [obind spread].
    rewrite (getprop_own _ _ _ Hp). reflexivity.
Qed.

Lemma merged_overrides_other (overrides defaults processed : gmap string value)
  (side k : string) :
  k <> side ->
  merged_overrides overrides side defaults processed !! k = processed !! k.
Proof.
  intros Hk. unfold merged_overrides.
  destruct (overrides !! side) as [[| | | | |s|]|]; try reflexivity.
  destruct (s !! "properties") as [[| | | | |props|]|]; try reflexivity.
  now rewrite lookup_insert_ne.
Qed.

(** what [createNode] finds under [data.side] *)
Lemma merged_side (overrides defaults processed : gmap string value)
  (side : string) :
  override_side overrides side -> processed !! side = overrides !! side ->
  exists s props,
    (default (VObj {[ "properties" := VObj defaults ]})
             (merged_overrides overrides side defaults processed !! side))
      = VObj s /\
    s !! "properties" = Some (VObj props) /\
    (forall k x, side_properties overrides side !! k = Some x ->
                 props !! k = Some x) /\
    (forall k, side_properties overrides side !! k = None ->
               props !! k = defaults !! k).
Proof.
  intros Hwf Hsame. unfold merged_overrides, side_properties.
  destruct Hwf as [Hnone | (s & props & Hs & Hp)].
  - rewrite Hnone, Hsame, Hnone. cbn [default from_option].
    eexists _, defaults. split; [reflexivity|].
    split; [apply lookup_singleton_eq|]. split; [|reflexivity].
    intros k x H. now rewrite lookup_empty in H.
  - rewrite Hs, Hp, lookup_insert_eq. cbn [default from_option id].
    eexists _, _. split; [reflexivity|].
    split; [apply lookup_insert_eq|]. split.
    + intros k x H. now apply lookup_union_Some_l.
    + intros k H. now apply lookup_union_r.
Qed.

(** [{properties: defaults, ...processed.side}] wins nothing over
    [processed.side] itself *)
Lemma spread_merged_side (overrides defaults processed : gmap string value)
  (side : string) :
  override_side overrides side -> processed !! side = overrides !! side ->
  exists kept,
    spread (default VUndefined
              (merged_overrides overrides side defaults processed !! side))
      = Ok kept /\
    default (VObj (assign {[ "properties" := VObj defaults ]} kept))
            (merged_overrides overrides side defaults processed !! side)
    = default (VObj {[ "properties" := VObj defaults ]})
              (merged_overrides overrides side defaults processed !! side).
Proof.
  intros Hwf Hsame. unfold merged_overrides.
  destruct Hwf as [Hnone | (s & props & Hs & Hp)].
  - rewrite Hnone, Hsame, Hnone. exists ∅. split; [reflexivity|].
    cbn [default from_option]. unfold assign.
    now rewrite (left_id_L ∅ (∪)).
  - rewrite Hs, Hp, lookup_insert_eq. eexists. split; reflexivity.
Qed.

Lemma given_overrides_object (additionalData : value)
  (overrides : gmap string value) :
  given_overrides additionalData = Some overrides ->
  match additionalData with VUndefined => VObj ∅ | _ => additionalData end
  = VObj overrides.
Proof. destruct additionalData; simpl; congruence. Qed.

(** C2, as amended: for a catalog in which the lookup of [type] finds a
    template, a [type] other than ["group"], and overrides that for each
    of [input] and [output] either say nothing or carry [properties], the
    node that [createNode] returns has, under [data.input.properties] and
    under [data.output.properties], every key of the overrides with the
    overrides' value and every other key of the template with the
    template's value. *)
Theorem createNode_merges_properties
  (uuid : string) (nodeTypes : value) (type : string)
  (id position additionalData : value) (categories : list value)
  (template visual_tag overrides : gmap string value) :
  for_in_values nodeTypes = Ok categories ->
  find_node_type categories type = Ok (VObj template) ->
  type <> "group" ->
  template !! "visual_tag" = Some (VObj visual_tag) ->
  template_side template "input" -> template_side template "output" ->
  given_overrides additionalData = Some overrides ->
  override_side overrides "input" -> override_side overrides "output" ->
  exists node,
    createNode uuid nodeTypes type id position additionalData = Ok node /\
    properties_merged node "input" template overrides /\
    properties_merged node "output" template overrides.
Proof.
  intros Hcats Hfind Hgroup Hvt Htin Htout Hgiven Hoin Hoout.
  set (inP := side_properties template "input").
  set (outP := side_properties template "output").
  set (p1 := merged_overrides overrides "input" inP overrides).
  set (p2 := merged_overrides overrides "output" outP p1).
  assert (Hp1out : p1 !! "output" = overrides !! "output")
    by (apply merged_overrides_other; discriminate).
  assert (Hp2in : p2 !! "input" = p1 !! "input")
    by (apply merged_overrides_other; discriminate).
  destruct (spread_merged_side overrides inP overrides "input" Hoin eq_refl)
    as (kin & Hkin & Hdin).
  destruct (spread_merged_side overrides outP p1 "output" Hoout Hp1out)
    as (kout & Hkout & Hdout).
  fold p1 in Hkin, Hdin. fold p2 in Hkout, Hdout.
  unfold createNode.
  rewrite (given_overrides_object _ _ Hgiven).
  rewrite Hcats. cbn [obind]. rewrite Hfind. cbn [obind truthy negb].
  rewrite !default_properties_template by (assumption || reflexivity).
  cbn [obind]. unfold cloneDeep at 1.
  rewrite merge_properties_override by (assumption || reflexivity).
  cbn [obind]. fold inP p1.
  rewrite merge_properties_override by (assumption || reflexivity).
  cbn [obind]. fold outP p2.
  replace (String.eqb type "group") with false
    by (symmetry; now apply String.eqb_neq).
  rewrite !(getprop_object template) by reflexivity. cbn [obind].
  rewrite Hvt. change (default VUndefined (Some (VObj visual_tag)))
    with (VObj visual_tag).
  rewrite !(getprop_object visual_tag) by reflexivity. cbn [obind].
  rewrite !(getprop_object p2) by reflexivity. cbn [obind].
  rewrite Hp2in, Hkin. cbn [obind]. rewrite Hkout. cbn [obind spread].
  eexists. split; [reflexivity|].
  split.
  - destruct (merged_side overrides inP overrides "input" Hoin eq_refl)
      as (s & props & Hs & Hprops & Hover & Hdef).
    fold p1 in Hs.
    eexists _, _, s, props. split; [reflexivity|].
    split; [by simplify_map_eq|]. split; [|auto].
    unfold assign. rewrite lookup_union. rewrite Hp2in.
    rewrite <- Hs, <- Hdin.
    destruct (p1 !! "input"); simplify_map_eq; reflexivity.
  - destruct (merged_side overrides outP p1 "output" Hoout Hp1out)
      as (s & props & Hs & Hprops & Hover & Hdef).
    fold p2 in Hs.
    eexists _, _, s, props. split; [reflexivity|].
    split; [by simplify_map_eq|]. split; [|auto].
    unfold assign. rewrite lookup_union.
    rewrite <- Hs, <- Hdout.
    destruct (p2 !! "output"); simplify_map_eq; reflexivity.
Qed.

(** what the lookup finds is a template of the catalog whose name is
    [type] *)
Lemma array_find_sound (pred : value -> outcome bool) (l : list value)
  (x : value) :
  array_find pred l = Ok x -> truthy x = true ->
  In x l /\ pred x = Ok true.
Proof.
  induction l as [|y l IH]; simpl; intros H Hx.
  - injection H as <-. discriminate.
  - destruct (pred y) as [[|]| |] eqn:Hy; simpl in H; try discriminate.
    + injection H as <-. auto.
    + destruct (IH H Hx). auto.
Qed.

Lemma find_node_type_sound (categories : list value) (type : string)
  (t : value) :
  find_node_type categories type = Ok t -> truthy t = true ->
  exists templates,
    In (VArr templates) categories /\ In t templates /\
    getprop t "name" = Ok (VStr type).
Proof.
  induction categories as [|c categories IH]; simpl; intros H Ht.
  - injection H as <-. discriminate.
  - destruct (find_by_name c type) as [found| |] eqn:Hfound;
      simpl in H; try discriminate.
    destruct (truthy found) eqn:Htruthy.
    + injection H as <-. unfold find_by_name in Hfound.
      destruct c as [| | | | | |templates]; try discriminate.
      apply array_find_sound in Hfound as [Hin Hname]; [|assumption].
      exists templates. split; [now left|]. split; [assumption|].
      destruct (getprop found "name") as [name| |]; simpl in Hname;
        try discriminate.
      destruct name; simpl in Hname; try discriminate.
      injection Hname as Hname. apply String.eqb_eq in Hname. now subst.
    + destruct (IH H Ht) as (templates & Hin & Hrest).
      exists templates. split; [now right | assumption].
Qed.

(** C6, as amended: when the catalog has a template named ["group"],
    [createNode(catalog, "group", id, pos, {title: "X"})] returns exactly
    the node with [id || uuidv4()] as its id (so [id] itself when it is
    truthy), type ["group"], the position, the data [{title: "X"}] and the
    style [{width: 300, height: 300}]. *)
Theorem createNode_group_title
  (uuid : string) (nodeTypes : value) (id position : value)
  (categories : list value) (template : gmap string value) :
  for_in_values nodeTypes = Ok categories ->
  find_node_type categories "group" = Ok (VObj template) ->
  template_side template "input" -> template_side template "output" ->
  createNode uuid nodeTypes "group" id position
             (VObj {[ "title" := VStr "X" ]})
  = Ok (VObj (<[ "id" := if truthy id then id else VStr uuid ]>
             (<[ "type" := VStr "group" ]>
             (<[ "position" := position ]>
             (<[ "data" := VObj {[ "title" := VStr "X" ]} ]>
             {[ "style" := VObj (<[ "width" := VZ 300 ]>
                                   {[ "height" := VZ 300 ]}) ]}))))).
Proof.
  intros Hcats Hfind Htin Htout. unfold createNode.
  rewrite Hcats. cbn [obind]. rewrite Hfind. cbn [obind truthy negb].
  rewrite !default_properties_template by (assumption || reflexivity).
  cbn [obind]. unfold cloneDeep.
  rewrite merge_properties_override; [|reflexivity|now left|reflexivity].
  cbn [obind].
  rewrite merge_properties_override; [|reflexivity|now left|reflexivity].
  cbn [obind]. reflexivity.
Qed.

(** ** Mapping a callback that can throw *)

Lemma omap_total {A B} (f : A -> outcome B) (l : list A) :
  Forall (fun x => exists y, f x = Ok y) l -> exists l', omap f l = Ok l'.
Proof.
  induction 1 as [|x l [y Hy] _ [l' IH]]; simpl; [eauto|].
  rewrite Hy, IH. simpl. eauto.
Qed.

Lemma omap_lookup {A B} (f : A -> outcome B) (l : list A) (l' : list B)
  (i : nat) (x : A) :
  omap f l = Ok l' -> l !! i = Some x ->
  exists y, l' !! i = Some y /\ f x = Ok y.
Proof.
  revert l' i. induction l as [|a l IH]; intros l' i H Hi; [discriminate|].
  simpl in H. destruct (f a) as [b| |] eqn:Ha; simpl in H; try discriminate.
  destruct (omap f l) as [bs| |]; simpl in H; try discriminate.
  injection H as <-. destruct i as [|i]; simpl in *.
  - injection Hi as <-. eauto.
  - eauto.
Qed.

Lemma filter_all_nodes (ns : list value) :
  all_nodes ns -> List.filter (fun node => negb (nullish node)) ns = ns.
Proof.
  induction 1 as [|v ns (n & -> & _) _ IH]; [reflexivity|].
  simpl. now rewrite IH.
Qed.

(** ** The workflow document *)

(** the schema that the serialiser gives the input node *)
Lemma input_schema_of_names (vars : gmap string value) :
  object_fromEntries (map (fun key => (key, VStr "str")) (map_to_list vars).*1)
  = VObj ((fun _ => VStr "str") <$> vars).
Proof.
  unfold object_fromEntries. f_equal. apply map_eq. intros k.
  rewrite lookup_fmap.
  destruct (vars !! k) as [x|] eqn:Hk; simpl.
  - apply elem_of_list_to_map_1.
    + rewrite <- list_fmap_compose.
      replace (fst ∘ (λ key : string, (key, VStr "str"))) with (@id string)
        by reflexivity.
      rewrite list_fmap_id. apply NoDup_fst_map_to_list.
    + apply list_elem_of_fmap. exists k. split; [reflexivity|].
      apply list_elem_of_fmap. exists (k, x). split; [reflexivity|].
      now apply elem_of_map_to_list.
  - apply not_elem_of_list_to_map_1. rewrite <- list_fmap_compose.
    intros Hin. apply list_elem_of_fmap in Hin as (k' & -> & Hin).
    apply list_elem_of_fmap in Hin as ([k'' x] & -> & Hin).
    apply elem_of_map_to_list in Hin. simpl in Hk. congruence.
Qed.

Lemma two_names_schema (vars : gmap string value) :
  dom vars = {[ "a"; "b" ]} ->
  (fun _ => VStr "str") <$> vars
  = <[ "a" := VStr "str" ]> {[ "b" := VStr "str" ]}.
Proof.
  intros Hdom. apply map_eq. intros k. rewrite lookup_fmap.
  destruct (decide (k = "a")) as [->|Ha]; [|destruct (decide (k = "b")) as [->|Hb]].
  - assert (Hin : "a" ∈ dom vars).
    { rewrite Hdom. apply elem_of_union_l. now apply elem_of_singleton. }
    apply elem_of_dom in Hin as [x ->]. now simplify_map_eq.
  - assert (Hin : "b" ∈ dom vars).
    { rewrite Hdom. apply elem_of_union_r. now apply elem_of_singleton. }
    apply elem_of_dom in Hin as [x ->]. now simplify_map_eq.
  - assert (Hout : k ∉ dom vars).
    { rewrite Hdom. rewrite not_elem_of_union, !not_elem_of_singleton. auto. }
    apply not_elem_of_dom in Hout. rewrite Hout. now simplify_map_eq.
Qed.

Lemma updated_node_ok (vars n : gmap string value) :
  is_node n ->
  exists u,
    updated_node (VObj vars) (VObj n) = Ok (VObj u) /\
    u !! "id" = n !! "id" /\ u !! "type" = n !! "type" /\
    u !! "position" = n !! "position" /\
    (n !! "type" = Some (VStr "InputNode") ->
     exists config,
       u !! "config" = Some (VObj config) /\
       config !! "input_schema" = Some (VObj ((fun _ => VStr "str") <$> vars))).
Proof.
  intros (_ & (type & Htype) & (data & Hdata & Hconfig) & _).
  unfold updated_node.
  rewrite (getprop_own _ _ _ Htype). cbn [obind strict_eq spread].
  rewrite (getprop_own _ _ _ Hdata). cbn [obind].
  destruct (String.eqb type "InputNode") eqn:Hin.
  - rewrite (getprop_object data) by reflexivity. cbn [obind object_keys].
    rewrite input_schema_of_names.
    assert (Hspread : exists c, spread (default VUndefined (data !! "config")) = Ok c).
    { destruct Hconfig as [-> | (c & ->)]; simpl; eauto. }
    destruct Hspread as (c & ->). cbn [obind].
    eexists. split; [reflexivity|].
    repeat (split; [now simplify_map_eq|]).
    intros _. eexists. split; [now simplify_map_eq|]. now simplify_map_eq.
  - rewrite !(optprop_object data) by reflexivity. cbn [obind].
    eexists. split; [reflexivity|].
    repeat (split; [now simplify_map_eq|]).
    intros H. rewrite Htype in H. injection H as ->. discriminate.
Qed.

Lemma node_record_object (u : gmap string value) :
  node_record (VObj u)
  = Ok (VObj (<[ "id" := default VUndefined (u !! "id") ]>
             (<[ "node_type" := default VUndefined (u !! "type") ]>
             (<[ "config" := default VUndefined (u !! "config") ]>
             {[ "coordinates" := default VUndefined (u !! "position") ]})))).
Proof.
  unfold node_record. now rewrite !(getprop_object u) by reflexivity.
Qed.

Lemma find_node_total (ns : list value) (wanted : string) :
  all_nodes ns -> exists r, find_node ns (VStr wanted) = Ok r /\ found_node r.
Proof.
  unfold find_node.
  induction 1 as [|v ns (n & -> & Hn) _ (r & IH & Hr)]; cbn [array_find].
  - exists VUndefined. split; [reflexivity | now left].
  - destruct Hn as ((id & Hid) & Hrest).
    rewrite (getprop_own _ _ _ Hid). cbn [obind strict_eq].
    destruct (String.eqb id wanted).
    + exists (VObj n). split; [reflexivity|]. right. exists n.
      split; [reflexivity|]. split; [eauto | exact Hrest].
    + exists r. split; assumption.
Qed.

(** the path [node?.config?.data?.[schema]] leads nowhere in a
    NodeInstance, whose schemas are under [data.config] *)
Lemma handle_type_default (r : value) (schema handle : string) :
  found_node r -> handle_type r schema (VStr handle) = Ok (VStr "str").
Proof.
  intros [-> | (n & -> & _ & _ & _ & Hconfig)]; [reflexivity|].
  unfold handle_type. now rewrite (optprop_missing _ _ Hconfig).
Qed.

Lemma link_record_ok (ns : list value) (e : gmap string value) :
  all_nodes ns -> is_edge e ->
  exists l,
    link_record ns (VObj e) = Ok (VObj l) /\
    l !! "source_id" = e !! "source" /\
    l !! "source_output_key" = e !! "sourceHandle" /\
    l !! "target_id" = e !! "target" /\
    l !! "target_input_key" = e !! "targetHandle" /\
    l !! "source_output_type" = Some (VStr "str") /\
    l !! "target_input_type" = Some (VStr "str").
Proof.
  intros Hns ((s & Hs) & (sh & Hsh) & (t & Ht) & (th & Hth)).
  destruct (find_node_total ns s Hns) as (rs & Hrs & Hfs).
  destruct (find_node_total ns t Hns) as (rt & Hrt & Hft).
  unfold link_record.
  rewrite (getprop_own _ _ _ Hs). cbn [obind]. rewrite Hrs. cbn [obind].
  rewrite (getprop_own _ _ _ Ht). cbn [obind]. rewrite Hrt. cbn [obind].
  rewrite (getprop_own _ _ _ Hsh). cbn [obind].
  rewrite (handle_type_default _ _ _ Hfs). cbn [obind].
  rewrite (getprop_own _ _ _ Hth). cbn [obind].
  rewrite (handle_type_default _ _ _ Hft). cbn [obind].
  eexists. split; [reflexivity|].
  rewrite Hs, Hsh, Ht, Hth. repeat split; now simplify_map_eq.
Qed.

(** the document is built for every graph of NodeInstances and
    EdgeInstances; its node and link records stand at the positions of
    the nodes and edges they come from *)
Lemma updatedWorkflow_ok (ns es : list value) (vars : gmap string value)
  (workflowName testInputs : value) :
  all_nodes ns -> all_edges es ->
  exists records links,
    updatedWorkflow (VArr ns) (VArr es) (VObj vars) workflowName testInputs
    = Ok (VObj (<[ "name" := workflowName ]>
               {[ "definition" :=
                    VObj (<[ "nodes" := VArr records ]>
                         (<[ "links" := VArr links ]>
                         {[ "test_inputs" := testInputs ]})) ]})) /\
    (forall i n, ns !! i = Some (VObj n) ->
       exists u, updated_node (VObj vars) (VObj n) = Ok (VObj u) /\
                 exists r, node_record (VObj u) = Ok r /\
                           records !! i = Some r) /\
    (forall j e, es !! j = Some (VObj e) ->
       exists l, link_record ns (VObj e) = Ok l /\ links !! j = Some l).
Proof.
  intros Hns Hes. unfold updatedWorkflow. cbn [array_elems obind].
  rewrite (filter_all_nodes _ Hns).
  destruct (omap_total (updated_node (VObj vars)) ns) as (us & Hus).
  { eapply Forall_impl; [exact Hns|]. intros v (n & -> & Hn).
    destruct (updated_node_ok vars n Hn) as (u & Hu & _). eauto. }
  rewrite Hus. cbn [obind].
  assert (Hobj : Forall (fun u => exists m, u = VObj m) us).
  { apply Forall_lookup_2. intros i u Hi.
    destruct (ns !! i) as [v|] eqn:Hv.
    - destruct (omap_lookup _ _ _ _ _ Hus Hv) as (y & Hy & Hf).
      rewrite Hi in Hy. injection Hy as <-.
      destruct (Forall_lookup_1 _ _ _ _ Hns Hv) as (n & -> & Hn).
      destruct (updated_node_ok vars n Hn) as (m & Hm & _).
      rewrite Hm in Hf. injection Hf as <-. eauto.
    - exfalso. clear -Hus Hi Hv. revert us i Hus Hi Hv.
      induction ns as [|a ns IH]; intros us i Hus Hi Hv.
      + injection Hus as <-. discriminate.
      + simpl in Hus.
        destruct (updated_node (VObj vars) a); simpl in Hus; try discriminate.
        destruct (omap (updated_node (VObj vars)) ns) eqn:Ho;
          simpl in Hus; try discriminate.
        injection Hus as <-. destruct i; [discriminate|]. simpl in *. eauto. }
  destruct (omap_total node_record us) as (records & Hrecords).
  { eapply Forall_impl; [exact Hobj|]. intros u (m & ->).
    rewrite node_record_object. eauto. }
  rewrite Hrecords. cbn [obind].
  destruct (omap_total (link_record ns) es) as (links & Hlinks).
  { eapply Forall_impl; [exact Hes|]. intros v (e & -> & He).
    destruct (link_record_ok ns e Hns He) as (l & Hl & _). eauto. }
  rewrite Hlinks. cbn [obind].
  exists records, links. split; [reflexivity|]. split.
  - intros i n Hi.
    destruct (omap_lookup _ _ _ _ _ Hus Hi) as (u & Hu & Hfu).
    destruct (Forall_lookup_1 _ _ _ _ Hns Hi) as (n' & [= <-] & Hn).
    destruct (updated_node_ok vars n Hn) as (m & Hm & _).
    rewrite Hm in Hfu. injection Hfu as <-.
    exists m. split; [exact Hm|].
    destruct (omap_lookup _ _ _ _ _ Hrecords Hu) as (r & Hr & Hfr). eauto.
  - intros j e Hj.
    destruct (omap_lookup _ _ _ _ _ Hlinks Hj) as (l & Hl & Hfl). eauto.
Qed.

(** C7: in a graph of NodeInstances and EdgeInstances whose declared
    workflow input variables are named [a] and [b], the document that is
    built at save time gives every node of type [InputNode] (so the one
    such node of a graph that has exactly one) a config whose
    [input_schema] is [{a: "str", b: "str"}], whatever schema the node
    carried, and turns every edge from a handle [a] into a handle [x] into
    a link record with [source_output_key] ["a"] and [target_input_key]
    [x]; this document is what [saveWorkflow] logs and sends. *)
Theorem saveWorkflow_input_node_schema
  (workflowID : value) (ns es : list value) (vars : gmap string value)
  (workflowName testInputs : value) :
  all_nodes ns -> all_edges es -> dom vars = {[ "a"; "b" ]} ->
  exists document records links,
    saveWorkflow workflowID (VArr ns) (VArr es) (VObj vars)
                 workflowName testInputs
    = Ok [console_log document; updateWorkflow workflowID document] /\
    document
    = VObj (<[ "name" := workflowName ]>
           {[ "definition" :=
                VObj (<[ "nodes" := VArr records ]>
                     (<[ "links" := VArr links ]>
                     {[ "test_inputs" := testInputs ]})) ]}) /\
    (forall i n,
        ns !! i = Some (VObj n) -> n !! "type" = Some (VStr "InputNode") ->
        exists r config,
          records !! i = Some (VObj r) /\
          r !! "id" = n !! "id" /\
          r !! "node_type" = Some (VStr "InputNode") /\
          r !! "config" = Some (VObj config) /\
          config !! "input_schema"
          = Some (VObj (<[ "a" := VStr "str" ]> {[ "b" := VStr "str" ]}))) /\
    (forall j e x,
        es !! j = Some (VObj e) ->
        e !! "sourceHandle" = Some (VStr "a") ->
        e !! "targetHandle" = Some (VStr x) ->
        exists l,
          links !! j = Some (VObj l) /\
          l !! "source_id" = e !! "source" /\
          l !! "source_output_key" = Some (VStr "a") /\
          l !! "target_id" = e !! "target" /\
          l !! "target_input_key" = Some (VStr x)).
Proof.
  intros Hns Hes Hdom.
  destruct (updatedWorkflow_ok ns es vars workflowName testInputs Hns Hes)
    as (records & links & Hdoc & Hnodes & Hlinks).
  eexists _, records, links. unfold saveWorkflow. rewrite Hdoc.
  split; [reflexivity|]. split; [reflexivity|]. split.
  - intros i n Hi Htype.
    destruct (Hnodes i n Hi) as (u & Hu & r & Hr & Hri).
    destruct (Forall_lookup_1 _ _ _ _ Hns Hi) as (n' & [= <-] & Hn).
    destruct (updated_node_ok vars n Hn)
      as (u' & Hu' & Hid & Hty & _ & Hcfg).
    rewrite Hu' in Hu. injection Hu as ->.
    destruct (Hcfg Htype) as (config & Hconfig & Hschema).
    rewrite node_record_object in Hr. injection Hr as <-.
    eexists _, config. split; [exact Hri|].
    destruct Hn as ((id & Hnid) & _).
    rewrite Hid, Hty, Hconfig, Hnid, Htype.
    repeat (split; [now simplify_map_eq|]).
    now rewrite Hschema, (two_names_schema _ Hdom).
  - intros j e x Hj Hsh Hth.
    destruct (Hlinks j e Hj) as (l & Hl & Hlj).
    destruct (Forall_lookup_1 _ _ _ _ Hes Hj) as (e' & [= <-] & He).
    destruct (link_record_ok ns e Hns He)
      as (l' & Hl' & Hsid & Hsk & Htid & Htk & _).
    rewrite Hl' in Hl. injection Hl as <-.
    exists l'. rewrite <- Hsh, <- Hth. auto.
Qed.

(** ** The free numeric input *)

(** the number that the input hands on is never NaN *)
Lemma coerced_number_not_NaN (x : number) :
  isNaN (if isNaN x then number_of_Z 0 else x) = false.
Proof. destruct x; reflexivity. Qed.

(** C10: whatever is typed into the free numeric input of a field [key]
    of the configuration, the configuration update that results stores a
    number for that field that is not NaN: 0 when [parseFloat] does not
    find a number in the text, and otherwise the number that [parseFloat]
    finds; nothing is thrown.  (A [key] with a dot is handed, with the same
    number, to lodash's [set].) *)
Theorem numberInput_stores_number
  (lodash_set : value -> string -> value -> value) (nodeID : string)
  (model : gmap string value) (key text : string) :
  exists (updatedModel : value) (stored : number),
    numberInput_onChange lodash_set nodeID (VObj model) key text
    = Ok [ setDynamicModel updatedModel;
           dispatch (updateNodeData nodeID
                       (VObj {[ "config" := updatedModel ]})) ] /\
    (isNaN (parseFloat text) = true -> stored = number_of_Z 0) /\
    (isNaN (parseFloat text) = false -> stored = parseFloat text) /\
    isNaN stored = false /\
    (if includes_char "." key
     then updatedModel = lodash_set (VObj model) key (VNum stored)
     else exists m, updatedModel = VObj m /\
                    m !! key = Some (VNum stored) /\
                    forall k, k <> key -> m !! k = model !! k).
Proof.
  exists (if includes_char "." key
          then lodash_set (VObj model) key
                 (VNum (if isNaN (parseFloat text) then number_of_Z 0
                        else parseFloat text))
          else VObj (<[key := VNum (if isNaN (parseFloat text)
                                    then number_of_Z 0
                                    else parseFloat text)]> model)),
         (if isNaN (parseFloat text) then number_of_Z 0 else parseFloat text).
  unfold numberInput_onChange, handleInputChange, updateNestedModel, cloneDeep.
  split; [destruct (includes_char "." key); reflexivity|].
  split; [now intros ->|]. split; [now intros ->|].
  split; [apply coerced_number_not_NaN|].
  destruct (includes_char "." key); [reflexivity|].
  eexists. split; [reflexivity|]. split; [apply lookup_insert_eq|].
  intros k Hk. now apply lookup_insert_ne.
Qed.

Example parseFloat_letters : parseFloat "abc" = NaN.
Proof. reflexivity. Qed.

Example parseFloat_empty : parseFloat "" = NaN.
Proof. reflexivity. Qed.

Example parseFloat_prefix : parseFloat "12abc" = number_of_Z 12.
Proof. reflexivity. Qed.

Example parseFloat_fraction :
  parseFloat " 2.5e1" = number_of_Z 25.
Proof. reflexivity. Qed.

Example numberInput_letters :
  numberInput_onChange (fun o _ _ => o) "n1"
    (VObj {[ "max_tokens" := VZ 16 ]}) "max_tokens" "abc"
  = Ok [ setDynamicModel (VObj {[ "max_tokens" := VZ 0 ]});
         dispatch (updateNodeData "n1"
           (VObj {[ "config" := VObj {[ "max_tokens" := VZ 0 ]} ]})) ].
Proof. vm_compute. reflexivity. Qed.

(** ** The node factory over the store *)

Module HeapFrame.
Import Heap.

Lemma bind_Ok {A B} (m : M A) (f : A -> M B) h b h' :
  bind m f h = Ok (b, h') ->
  exists a h1, m h = Ok (a, h1) /\ f a h1 = Ok (b, h').
Proof.
  unfold bind. destruct (m h) as [[a h1]| |]; [|discriminate..].
  intros H. now exists a, h1.
Qed.

Lemma keeps_ret h0 {A} (a : A) (Q : A -> Prop) : Q a -> keeps h0 (ret a) Q.
Proof. intros HQ h a' h' Hh [= <- <-]. now split. Qed.

Lemma keeps_bind h0 {A B} (m : M A) (f : A -> M B) Q R :
  keeps h0 m Q -> (forall a, Q a -> keeps h0 (f a) R) -> keeps h0 (bind m f) R.
Proof.
  intros Hm Hf h b h' Hh H.
  apply bind_Ok in H as (a & h1 & H1 & H2).
  destruct (Hm _ _ _ Hh H1) as [Hh1 HQ].
  exact (Hf a HQ _ _ _ Hh1 H2).
Qed.

Lemma keeps_weaken h0 {A} (m : M A) (Q R : A -> Prop) :
  keeps h0 m Q -> (forall a, Q a -> R a) -> keeps h0 m R.
Proof.
  intros Hm HQR h a h' Hh H. destruct (Hm _ _ _ Hh H). split; auto.
Qed.

Lemma keeps_reads h0 {A} (m : M A) :
  reads m -> keeps h0 m (fun _ => True).
Proof.
  intros Hm h a h' Hh H. rewrite (Hm _ _ _ H). now split.
Qed.

Lemma reads_ret {A} (a : A) : reads (ret a).
Proof. now intros h a' h' [= _ <-]. Qed.

Lemma reads_bind {A B} (m : M A) (f : A -> M B) :
  reads m -> (forall a, reads (f a)) -> reads (bind m f).
Proof.
  intros Hm Hf h b h' H.
  apply bind_Ok in H as (a & h1 & H1 & H2).
  rewrite (Hf _ _ _ _ H2). exact (Hm _ _ _ H1).
Qed.

Lemma reads_getprop v k : reads (getprop v k).
Proof.
  intros h a h' H. unfold getprop in H.
  repeat case_match; congruence.
Qed.

Lemma reads_optprop v k : reads (optprop v k).
Proof.
  unfold optprop. destruct (nullish v); [apply reads_ret|apply reads_getprop].
Qed.

Lemma reads_spread v : reads (spread v).
Proof.
  intros h a h' H. unfold spread in H.
  repeat case_match; congruence.
Qed.

Lemma reads_for_in_values o : reads (for_in_values o).
Proof.
  intros h a h' H. unfold for_in_values in H.
  repeat case_match; congruence.
Qed.

Lemma reads_array_find pred l :
  (forall x, reads (pred x)) -> reads (array_find pred l).
Proof.
  intros Hp. induction l as [|x l IH]; [apply reads_ret|].
  cbn [array_find]. apply reads_bind; [apply Hp|].
  intros []; [apply reads_ret|exact IH].
Qed.

Lemma reads_find_by_name templates type : reads (find_by_name templates type).
Proof.
  intros h a h'. unfold find_by_name.
  destruct templates; try discriminate.
  destruct (_ !! l) as [[|elems]|]; try discriminate.
  apply reads_array_find.
  intros x. apply reads_bind; [apply reads_getprop|].
  intros name. apply reads_ret.
Qed.

Lemma reads_find_node_type categories type :
  reads (find_node_type categories type).
Proof.
  induction categories as [|t rest IH]; [apply reads_ret|].
  cbn [find_node_type]. apply reads_bind; [apply reads_find_by_name|].
  intros found. destruct (truthy found); [apply reads_ret|exact IH].
Qed.

Lemma reads_get_path v path : reads (get_path v path).
Proof.
  revert v. induction path as [|k path IH]; intros v; [apply reads_ret|].
  cbn [get_path]. apply reads_bind; [apply reads_getprop|]. intros x. apply IH.
Qed.

(** a new cell is put after the cells there are *)
Lemma keeps_alloc h0 c : keeps h0 (alloc c) (fresh_from h0).
Proof.
  intros h a h' Hh [= <- <-]. split.
  - etrans; [exact Hh|]. now apply prefix_app_r.
  - cbn. now apply prefix_length.
Qed.

Lemma keeps_new_object h0 props : keeps h0 (new_object props) (fresh_from h0).
Proof. apply keeps_alloc. Qed.

(** a write to a cell that [h0] does not have *)
Lemma prefix_insert_fresh (h0 h : heap) l c :
  h0 `prefix_of` h -> length h0 <= l -> h0 `prefix_of` <[l := c]> h.
Proof.
  intros [ext ->] Hl.
  replace l with (length h0 + (l - length h0)) by lia.
  unfold heap. rewrite insert_app_r. now apply prefix_app_r.
Qed.

Lemma keeps_setprop h0 o k x :
  fresh_from h0 o -> keeps h0 (setprop o k x) (fun _ => True).
Proof.
  intros Ho h a h' Hh. unfold setprop.
  destruct o; try discriminate.
  destruct (_ !! l) as [[props|]|]; try discriminate.
  intros [= _ <-]. split; [|exact I].
  now apply prefix_insert_fresh.
Qed.

Lemma clone_each_prefix clone :
  (forall v seen h r h', clone v seen h = Ok (r, h') -> h `prefix_of` h') ->
  forall vs seen h r h',
    clone_each clone vs seen h = Ok (r, h') -> h `prefix_of` h'.
Proof.
  intros Hc vs. induction vs as [|v vs IH]; intros seen h r h' H.
  - injection H as _ <-. reflexivity.
  - cbn [clone_each] in H.
    apply bind_Ok in H as (r1 & h1 & H1 & H).
    apply bind_Ok in H as (r2 & h2 & H2 & H).
    injection H as _ <-.
    etrans; [exact (Hc _ _ _ _ _ H1)|exact (IH _ _ _ _ H2)].
Qed.

(** [cloneDeep] writes to the copies only *)
Lemma clone_value_prefix fuel :
  forall v seen h r h',
    clone_value fuel v seen h = Ok (r, h') -> h `prefix_of` h'.
Proof.
  induction fuel as [|fuel IH]; intros v seen h r h'.
  - destruct v; cbn; try (intros [= _ <-]; reflexivity).
    destruct (seen !! l); [|discriminate].
    intros [= _ <-]. reflexivity.
  - destruct v; cbn [clone_value]; try (intros [= _ <-]; reflexivity).
    destruct (seen !! l) as [l'|].
    { intros [= _ <-]. reflexivity. }
    destruct (_ !! l) as [[props|elems]|]; [| |discriminate];
      (destruct (clone_each _ _ _ _) as [[[vs seen'] h1]| |] eqn:E;
         [|discriminate..]);
      intros [= _ <-];
      apply (clone_each_prefix _ IH) in E;
      (apply prefix_insert_fresh; [|reflexivity]);
      (etrans; [|exact E]); now apply prefix_app_r.
Qed.

(** the copy that [cloneDeep] returns is a new cell, or no object at all *)
Lemma cloneDeep_fresh v h v' h' :
  cloneDeep v h = Ok (v', h') -> fresh_from h v'.
Proof.
  unfold cloneDeep.
  destruct (clone_value _ _ _ _) as [[[r seen] h1]| |] eqn:E; [|discriminate..].
  intros [= <- <-]. revert E.
  destruct v; cbn [clone_value]; try (intros [= <- _ _]; exact I).
  unfold copies. rewrite lookup_empty.
  destruct (_ !! l) as [[props|elems]|]; [| |discriminate];
    (destruct (clone_each _ _ _ _) as [[[vs seen'] h2]| |];
       [|discriminate..]);
    intros [= <- _ _]; cbn; reflexivity.
Qed.

Lemma keeps_cloneDeep h0 v : keeps h0 (cloneDeep v) (fresh_from h0).
Proof.
  intros h v' h' Hh H. split.
  - revert H. unfold cloneDeep.
    destruct (clone_value _ _ _ _) as [[[r seen] h1]| |] eqn:E;
      [|discriminate..].
    intros [= _ <-].
    etrans; [exact Hh|exact (clone_value_prefix _ _ _ _ _ _ E)].
  - apply cloneDeep_fresh in H. destruct v'; try exact I.
    cbn in *. apply prefix_length in Hh. lia.
Qed.

Lemma keeps_js_or h0 a b Q :
  keeps h0 b Q -> keeps h0 (js_or a b) (fun v => v = a \/ Q v).
Proof.
  intros Hb. unfold js_or. destruct (truthy a).
  - apply keeps_ret. now left.
  - eapply keeps_weaken; [exact Hb|]. intros v. now right.
Qed.

Create HintDb heap_frame.

#[local] Hint Resolve reads_getprop reads_optprop reads_spread
  reads_for_in_values reads_find_node_type : heap_frame.

Ltac keeps_read :=
  eapply keeps_bind; [apply keeps_reads; auto with heap_frame|intros ? _].

Lemma keeps_default_properties h0 nodeType side :
  keeps h0 (default_properties nodeType side) (fun _ => True).
Proof.
  unfold default_properties. do 2 keeps_read.
  eapply keeps_bind; [apply keeps_cloneDeep|intros cloned _].
  eapply keeps_weaken; [apply keeps_js_or, keeps_new_object|]. auto.
Qed.

Lemma keeps_merge_properties h0 side sideProperties additionalData processed :
  fresh_from h0 processed ->
  keeps h0 (merge_properties side sideProperties additionalData processed)
        (fun _ => True).
Proof.
  intros Hp. unfold merge_properties. do 2 keeps_read.
  destruct (truthy _); [|now apply keeps_ret].
  do 6 keeps_read.
  eapply keeps_bind; [apply keeps_new_object|intros merged _].
  eapply keeps_bind; [apply keeps_new_object|intros new_side _].
  now apply keeps_setprop.
Qed.

Ltac keeps_new :=
  eapply keeps_bind; [apply keeps_new_object|intros ? _].

Lemma keeps_createNode h0 uuidv4 nodeTypes type id position additionalData :
  keeps h0 (createNode uuidv4 nodeTypes type id position additionalData)
        (fun _ => True).
Proof.
  unfold createNode.
  eapply keeps_bind with (Q := fun _ => True).
  { destruct additionalData;
      solve [now apply keeps_ret
            |eapply keeps_weaken; [apply keeps_new_object|auto]]. }
  intros additionalData' _. do 2 keeps_read.
  destruct (negb _); [now apply keeps_ret|].
  eapply keeps_bind; [apply keeps_default_properties|intros inputProperties _].
  eapply keeps_bind; [apply keeps_default_properties|intros outputProperties _].
  eapply keeps_bind; [apply keeps_cloneDeep|intros processed Hp].
  eapply keeps_bind; [now apply keeps_merge_properties|intros _ _].
  eapply keeps_bind; [now apply keeps_merge_properties|intros _ _].
  destruct (String.eqb type "group").
  - keeps_read. do 2 keeps_new.
    eapply keeps_bind;
      [apply keeps_js_or, (keeps_ret _ _ (fun _ => True)); exact I|intros ? _].
    eapply keeps_weaken; [apply keeps_new_object|auto].
  - do 5 keeps_read.
    eapply keeps_bind; [apply keeps_cloneDeep|intros config _].
    do 2 keeps_read. keeps_new. do 2 keeps_read. keeps_new. keeps_read.
    keeps_new.
    eapply keeps_weaken; [apply keeps_new_object|auto].
Qed.

(** [createNode] changes no object that exists when it is called: the
    catalog, the overrides and every other cell of the heap are, after the
    call, what they were before; the cells that it writes to are those it
    has allocated itself. *)
Theorem createNode_frame uuidv4 nodeTypes type id position additionalData
    (h : heap) node h' :
  createNode uuidv4 nodeTypes type id position additionalData h
  = Ok (node, h') ->
  h `prefix_of` h'.
Proof.
  intros H.
  now destruct (keeps_createNode h uuidv4 nodeTypes type id position
                  additionalData h node h' (reflexivity _) H).
Qed.

End HeapFrame.

(** on the sample heap the node of the store model, read back as a tree, is
    the node of the tree model *)
Lemma createNode_models_agree :
  heap_createNode_read "LLM" = tree_createNode "LLM" /\
  heap_createNode_read "group" = tree_createNode "group" /\
  heap_createNode_read "none" = tree_createNode "none" /\
  is_Some (heap_createNode_read "LLM") /\
  is_Some (heap_createNode_read "group").
Proof. repeat split; try (vm_compute; reflexivity); vm_compute; eauto. Qed.

(** C3 at the failing input: the node that [createNode] returns for the
    overrides [{input: {properties: {x: {type: "str"}}}}] holds, under
    [data.input.properties.x], the very object of the overrides, so
    writing [type] through the node changes the overrides; the same
    happens for a group node, whose data is a shallow copy of the
    overrides. *)
Lemma createNode_shares_overrides :
  Heap.result (HeapExamples.write_through_node "LLM" HeapExamples.ex_heap)
  = Ok (Heap.HStr "str", Heap.HStr "changed") /\
  Heap.result (HeapExamples.write_through_node "group" HeapExamples.ex_heap)
  = Ok (Heap.HStr "str", Heap.HStr "changed").
Proof. split; vm_compute; reflexivity. Qed.

(** in the same run [createNode] itself leaves every cell of its
    arguments as it was *)
Lemma createNode_keeps_arguments :
  match Heap.createNode "uuid" HeapExamples.ex_catalog "LLM" (Heap.HStr "n1")
          HeapExamples.ex_position HeapExamples.ex_overrides
          HeapExamples.ex_heap with
  | Ok (_, h) => take (length HeapExamples.ex_heap) h = HeapExamples.ex_heap
  | _ => False
  end.
Proof. vm_compute. reflexivity. Qed.

(** ** The claims at sample inputs *)

Lemma handleSchemaKeyEdit_renames_input_key_witness :
  exists effects config',
    handleSchemaKeyEdit "n1" (VObj Examples.nodeData) "foo" "my key"
                        "input_schema" = Ok effects /\
    effects =
      [ dispatch (updateNodeData "n1" (VObj {[ "config" := VObj config' ]}));
        dispatch (updateEdgesOnHandleRename "n1" "foo" "my_key" "input_schema");
        setEditingField VNull ] /\
    schema_renamed effects "input_schema" "foo" "my_key" (VStr "str") /\
    (forall field ws1 ws2 pre post,
        field = "system_message" \/ field = "user_message" ->
        white_space_only ws1 = true -> white_space_only ws2 = true ->
        Examples.config !! field
          = Some (VStr (pre +:+ placeholder ws1 "foo" ws2 +:+ post)) ->
        exists pre' post',
          updateMessageVariables (VStr pre) "foo" "my_key" = Ok (VStr pre') /\
          updateMessageVariables (VStr post) "foo" "my_key" = Ok (VStr post') /\
          config' !! field
            = Some (VStr (pre' +:+ "{{" +:+ "my_key" +:+ "}}" +:+ post'))) /\
    (forall edges,
        reduce_edges (updateEdgesOnHandleRename "n1" "foo" "my_key"
                        "input_schema") edges
        = map (fun e =>
                 if String.eqb (target e) "n1"
                    && String.eqb (targetHandle e) "foo"
                 then {| source := source e; sourceHandle := sourceHandle e;
                         target := target e; targetHandle := "my_key" |}
                 else e) edges).
Proof.
  apply (handleSchemaKeyEdit_renames_input_key "n1" Examples.nodeData
           Examples.config Examples.schema "foo" "my key" "my_key" (VStr "str")).
  - reflexivity.
  - reflexivity.
  - reflexivity.
  - right. eexists. reflexivity.
  - right. eexists. reflexivity.
  - vm_compute. reflexivity.
  - discriminate.
  - discriminate.
  - reflexivity.
  - reflexivity.
Defined.

(** C1 at the failing inputs.  The claim promises the schema update, the
    rewritten placeholders and the edge update for every old key of the
    input schema and every new key.  The handler splices both keys into a
    regular expression and its replacement text as they are, so:
    renaming the key ["("] throws a SyntaxError and no update is issued;
    renaming the key ["a+"] renames it in the schema but leaves its
    placeholder [{{ a+ }}] in the message, which now names no key;
    renaming [foo] to ["$&"] wraps the placeholders of [foo] in another
    pair of braces, where the claim has [{{$&}}]. *)
Lemma handleSchemaKeyEdit_input_key_fails :
  handleSchemaKeyEdit "n1" (VObj (Examples.placeholder_nodeData "("))
                      "(" "x" "input_schema"
  = Throw SyntaxError /\
  handleSchemaKeyEdit "n1" (VObj (Examples.placeholder_nodeData "a+"))
                      "a+" "x" "input_schema"
  = Ok [ dispatch (updateNodeData "n1"
           (VObj {[ "config" := VObj (Examples.placeholder_config "x" "a+") ]}));
         dispatch (updateEdgesOnHandleRename "n1" "a+" "x" "input_schema");
         setEditingField VNull ] /\
  handleSchemaKeyEdit "n1" (VObj Examples.nodeData) "foo" "$&" "input_schema"
  = Ok [ dispatch (updateNodeData "n1"
           (VObj {[ "config" := VObj Examples.wrapped_config ]}));
         dispatch (updateEdgesOnHandleRename "n1" "foo" "$&" "input_schema");
         setEditingField VNull ] /\
  Examples.wrapped_config !! "system_message"
  <> Examples.renamed_config "$&" !! "system_message".
Proof.
  split; [|split; [|split]]; try (vm_compute; reflexivity).
  vm_compute. discriminate.
Qed.

(** C4 at the failing input: a new key that is one space is normalised to
    an underscore, which [trim] leaves as it is, so the handler goes on to
    rename [foo] to [_] in the schema, in the messages and in the edges. *)
Lemma handleSchemaKeyEdit_white_space_key :
  handleSchemaKeyEdit "n1" (VObj Examples.nodeData) "foo" " " "input_schema"
  = Ok [ dispatch (updateNodeData "n1"
           (VObj {[ "config" := VObj (Examples.renamed_config "_") ]}));
         dispatch (updateEdgesOnHandleRename "n1" "foo" "_" "input_schema");
         setEditingField VNull ].
Proof. vm_compute. reflexivity. Qed.

(** C5 at the failing input: renaming the key ["("] to the existing key
    ["y"] throws, because the key is spliced into a regular expression. *)
Lemma handleSchemaKeyEdit_collision_throws :
  handleSchemaKeyEdit "n1"
    (VObj (Examples.paren_nodeData
             (<[ "(" := VStr "str" ]> {[ "y" := VStr "int" ]})))
    "(" "y" "input_schema"
  = Throw SyntaxError.
Proof. vm_compute. reflexivity. Qed.

(** C9 at the failing input: renaming the key ["("] throws a SyntaxError
    out of [new RegExp]; and renaming a key of a schema that the config
    does not have throws a TypeError. *)
Lemma handleSchemaKeyEdit_throws :
  handleSchemaKeyEdit "n1"
    (VObj (Examples.paren_nodeData {[ "(" := VStr "str" ]}))
    "(" "x" "input_schema"
  = Throw SyntaxError /\
  handleSchemaKeyEdit "n1" (VObj {[ "config" := VObj ∅ ]})
    "foo" "bar" "output_schema"
  = Throw TypeError.
Proof. split; vm_compute; reflexivity. Qed.

Lemma createNode_merges_properties_witness :
  exists node,
    createNode "uuid" Examples.catalog "LLM" (VStr "n1") Examples.position
               (VObj Examples.overrides) = Ok node /\
    properties_merged node "input" Examples.llm_template Examples.overrides /\
    properties_merged node "output" Examples.llm_template Examples.overrides.
Proof.
  apply (createNode_merges_properties "uuid" Examples.catalog "LLM"
           (VStr "n1") Examples.position (VObj Examples.overrides)
           [VArr [VObj Examples.llm_template]]
           Examples.llm_template Examples.visual_tag Examples.overrides).
  - vm_compute. reflexivity.
  - vm_compute. reflexivity.
  - discriminate.
  - reflexivity.
  - right. eexists. split; [reflexivity|]. right. eexists. reflexivity.
  - right. eexists. split; [reflexivity|]. right. eexists. reflexivity.
  - reflexivity.
  - right. eexists _, _. split; reflexivity.
  - left. reflexivity.
Defined.

(** C2 as stated fails for the type ["group"]: the node has no
    [data.input] at all, so the key [a] of the template is lost. *)
Lemma createNode_group_counterexample :
  for_in_values Examples.catalog_with_group
  = Ok [VArr [VObj Examples.group_template];
        VArr [VObj Examples.llm_template]] /\
  find_node_type [VArr [VObj Examples.group_template];
                  VArr [VObj Examples.llm_template]] "group"
  = Ok (VObj Examples.group_template) /\
  createNode "uuid" Examples.catalog_with_group "group" (VStr "g1")
             Examples.position (VObj ∅)
  = Ok (VObj (<[ "id" := VStr "g1" ]>
             (<[ "type" := VStr "group" ]>
             (<[ "position" := Examples.position ]>
             (<[ "data" := VObj {[ "title" := VStr "Group" ]} ]>
             {[ "style" := VObj (<[ "width" := VZ 300 ]>
                                   {[ "height" := VZ 300 ]}) ]}))))) /\
  ~ properties_merged
      (VObj (<[ "id" := VStr "g1" ]>
            (<[ "type" := VStr "group" ]>
            (<[ "position" := Examples.position ]>
            (<[ "data" := VObj {[ "title" := VStr "Group" ]} ]>
            {[ "style" := VObj (<[ "width" := VZ 300 ]>
                                  {[ "height" := VZ 300 ]}) ]})))))
      "input" Examples.group_template ∅.
Proof.
  split; [vm_compute; reflexivity|].
  split; [vm_compute; reflexivity|]. split; [vm_compute; reflexivity|].
  intros (n & data & s & props & Hn & Hdata & Hside & _).
  injection Hn as <-. vm_compute in Hdata. injection Hdata as <-.
  vm_compute in Hside. discriminate Hside.
Qed.

Lemma createNode_group_title_witness :
  createNode "uuid" Examples.catalog_with_group "group" (VStr "g1")
             Examples.position (VObj {[ "title" := VStr "X" ]})
  = Ok (Examples.group_node (VStr "g1")).
Proof.
  apply (createNode_group_title "uuid" Examples.catalog_with_group
           (VStr "g1") Examples.position
           [VArr [VObj Examples.group_template];
            VArr [VObj Examples.llm_template]]
           Examples.group_template).
  - vm_compute. reflexivity.
  - vm_compute. reflexivity.
  - right. eexists. split; [reflexivity|]. right. eexists. reflexivity.
  - left. reflexivity.
Defined.

(** C6 as stated fails for a catalog without a template named ["group"]:
    [createNode] returns [null]. *)
Lemma createNode_group_missing_counterexample :
  createNode "uuid" Examples.catalog "group" (VStr "g1") Examples.position
             (VObj {[ "title" := VStr "X" ]})
  = Ok VNull /\
  createNode "uuid" Examples.catalog "group" (VStr "g1") Examples.position
             (VObj {[ "title" := VStr "X" ]})
  <> Ok (Examples.group_node (VStr "g1")).
Proof.
  assert (H : createNode "uuid" Examples.catalog "group" (VStr "g1")
                Examples.position (VObj {[ "title" := VStr "X" ]})
              = Ok VNull) by (vm_compute; reflexivity).
  split; [exact H|]. rewrite H. discriminate.
Qed.

Lemma saveWorkflow_input_node_schema_witness :
  exists document records links,
    saveWorkflow (VStr "w1") (VArr Examples.nodes) (VArr Examples.edges)
                 (VObj Examples.variables) (VStr "demo") VNull
    = Ok [console_log document; updateWorkflow (VStr "w1") document] /\
    document
    = VObj (<[ "name" := VStr "demo" ]>
           {[ "definition" :=
                VObj (<[ "nodes" := VArr records ]>
                     (<[ "links" := VArr links ]>
                     {[ "test_inputs" := VNull ]})) ]}) /\
    (forall i n,
        Examples.nodes !! i = Some (VObj n) ->
        n !! "type" = Some (VStr "InputNode") ->
        exists r config,
          records !! i = Some (VObj r) /\
          r !! "id" = n !! "id" /\
          r !! "node_type" = Some (VStr "InputNode") /\
          r !! "config" = Some (VObj config) /\
          config !! "input_schema"
          = Some (VObj (<[ "a" := VStr "str" ]> {[ "b" := VStr "str" ]}))) /\
    (forall j e x,
        Examples.edges !! j = Some (VObj e) ->
        e !! "sourceHandle" = Some (VStr "a") ->
        e !! "targetHandle" = Some (VStr x) ->
        exists l,
          links !! j = Some (VObj l) /\
          l !! "source_id" = e !! "source" /\
          l !! "source_output_key" = Some (VStr "a") /\
          l !! "target_id" = e !! "target" /\
          l !! "target_input_key" = Some (VStr x)).
Proof.
  apply (saveWorkflow_input_node_schema (VStr "w1") Examples.nodes
           Examples.edges Examples.variables (VStr "demo") VNull).
  - repeat constructor; eexists; (split; [reflexivity|]);
      (split; [eexists; reflexivity|]); (split; [eexists; reflexivity|]);
      (split; [|reflexivity]);
      eexists; (split; [reflexivity|]); right; eexists; reflexivity.
  - repeat constructor; eexists; (split; [reflexivity|]);
      repeat split; eexists; reflexivity.
  - vm_compute. reflexivity.
Defined.

(** C8 at the failing input: the node [llm] declares the type [int] for
    its output [response] and for its input [x], and the link records of
    the edges that leave from [response] and arrive at [x] carry the type
    [str]: the serialiser looks the schemas up under [node.config.data],
    where a node has nothing, and not under [node.data.config]. *)
Lemma saveWorkflow_link_types :
  links_of (updatedWorkflow (VArr Examples.nodes) (VArr Examples.edges)
              (VObj Examples.variables) (VStr "demo") VNull)
  = Some [ Examples.link "in" "a" "str" "llm" "x" "str";
           Examples.link "llm" "response" "str" "llm" "x" "str" ].
Proof. vm_compute. reflexivity. Qed.

(** * Further properties *)

(** ** Renaming a schema key: the key that is written *)

Lemma obind_Ok {A B} (m : outcome A) (f : A -> outcome B) (b : B) :
  obind m f = Ok b -> exists a, m = Ok a /\ f a = Ok b.
Proof. destruct m as [a| |]; [|discriminate..]. intros H. now exists a. Qed.

Lemma squash_clean (s : string) :
  no_white_space s = true -> squash false s = s.
Proof.
  unfold no_white_space. induction s as [|c s IH]; [reflexivity|].
  cbn [string_forallb squash]. intros [Hc Hs]%andb_true_iff.
  apply negb_true_iff in Hc. rewrite Hc. now rewrite IH.
Qed.

Lemma squash_length (b : bool) (s : string) :
  String.length (squash b s) <= String.length s.
Proof.
  revert b. induction s as [|c s IH]; intros b; [reflexivity|].
  cbn [squash]. destruct (isWhiteSpace c).
  - destruct b; cbn [String.length]; [specialize (IH true)|specialize (IH true)]; lia.
  - cbn [String.length]. specialize (IH false). lia.
Qed.

(** X1: the normalisation [newKey.replace(/\s+/g, '_')] that
    [handleSchemaKeyEdit] starts with always yields a key without white
    space; normalising that key again changes nothing, the key is never
    longer than what was typed, and a key that has no white space is kept
    as it is. *)
Theorem normalize_key_idempotent (newKey : string) :
  exists nk,
    replace_all re_white_space_run "_" newKey = Ok nk /\
    no_white_space nk = true /\
    replace_all re_white_space_run "_" nk = Ok nk /\
    String.length nk <= String.length newKey /\
    (no_white_space newKey = true -> nk = newKey).
Proof.
  exists (squash false newKey). split; [apply normalize_squash|].
  split; [apply squash_no_white_space|]. split.
  - rewrite normalize_squash. f_equal. apply squash_clean, squash_no_white_space.
  - split; [apply squash_length|apply squash_clean].
Qed.

Lemma update_message_field_lookup (nodeData : value) (field oldKey newKey : string)
  (updatedConfig c : gmap string value) (k : string) :
  update_message_field nodeData field oldKey newKey updatedConfig = Ok c ->
  k <> field -> c !! k = updatedConfig !! k.
Proof.
  unfold update_message_field. intros H Hk.
  apply obind_Ok in H as (config & _ & H).
  apply obind_Ok in H as (current & _ & H).
  destruct (truthy (chain_value current)).
  - apply obind_Ok in H as (config' & _ & H).
    apply obind_Ok in H as (message & _ & H).
    apply obind_Ok in H as (message' & _ & H).
    injection H as <-. now rewrite lookup_insert_ne by congruence.
  - now injection H as <-.
Qed.

(** X2: whatever the node data and the keys, when [handleSchemaKeyEdit]
    returns and an [updateEdgesOnHandleRename] is among what it
    dispatched, that action is for this node, the old key and this schema,
    its new handle is the normalised new key, which is not empty, has no
    white space and differs from the old key, and the configuration that
    is dispatched with it has a schema with an entry for that key and none
    for the old key. *)
Theorem handleSchemaKeyEdit_dispatched_key
  (id : string) (nodeData : value) (oldKey newKey schemaType : string)
  (effects : list effect) (n o k s : string) :
  handleSchemaKeyEdit id nodeData oldKey newKey schemaType = Ok effects ->
  In (dispatch (updateEdgesOnHandleRename n o k s)) effects ->
  n = id /\ o = oldKey /\ s = schemaType /\
  replace_all re_white_space_run "_" newKey = Ok k /\
  no_white_space k = true /\ k <> "" /\ k <> oldKey /\
  exists v, schema_renamed effects schemaType oldKey k v.
Proof.
  unfold handleSchemaKeyEdit. rewrite normalize_squash. cbn [obind].
  set (nk := squash false newKey).
  destruct (String.eqb oldKey nk || negb (truthy (VStr (trim nk)))) eqn:Hguard.
  { intros [= <-] [H|[]]. discriminate. }
  apply orb_false_iff in Hguard as [Hdiff Hne].
  apply String.eqb_neq in Hdiff.
  rewrite (trim_no_white_space nk) in Hne by apply squash_no_white_space.
  cbn [truthy] in Hne. rewrite negb_involutive in Hne.
  apply String.eqb_neq in Hne.
  intros H.
  apply obind_Ok in H as (config & _ & H).
  apply obind_Ok in H as (schema & _ & H).
  apply obind_Ok in H as (copied & _ & H).
  apply obind_Ok in H as (old & _ & H).
  apply obind_Ok in H as (config_props & _ & H).
  apply obind_Ok in H as (updatedConfig & Hmsg & H).
  injection H as <-.
  intros [Hin|[Hin|[Hin|[]]]]; try discriminate.
  injection Hin as <- <- <- <-.
  repeat (split; [first [reflexivity|congruence|apply squash_no_white_space]|]).
  exists (chain_value old), id, updatedConfig,
    (delete oldKey (<[nk := chain_value old]> copied)).
  split; [now left|]. split; [|split].
  - destruct (String.eqb schemaType "input_schema") eqn:Hst.
    + apply String.eqb_eq in Hst as ->.
      apply obind_Ok in Hmsg as (c & Hc & Hmsg).
      rewrite (update_message_field_lookup _ _ _ _ _ _ _ Hmsg) by discriminate.
      rewrite (update_message_field_lookup _ _ _ _ _ _ _ Hc) by discriminate.
      apply lookup_insert_eq.
    + injection Hmsg as <-. apply lookup_insert_eq.
  - rewrite lookup_delete_ne by congruence. apply lookup_insert_eq.
  - apply lookup_delete_eq.
Qed.

Lemma handleSchemaKeyEdit_dispatched_key_witness :
  exists effects,
    handleSchemaKeyEdit "n1" (VObj Examples.nodeData) "foo" "my  key"
                        "input_schema" = Ok effects /\
    no_white_space "my_key" = true /\
    exists v, schema_renamed effects "input_schema" "foo" "my_key" v.
Proof.
  eexists. split; [vm_compute; reflexivity|].
  refine (let H := handleSchemaKeyEdit_dispatched_key "n1"
            (VObj Examples.nodeData) "foo" "my  key" "input_schema" _
            "n1" "foo" "my_key" "input_schema" _ _ in _).
  destruct H as (_ & _ & _ & _ & Hk & _ & _ & Hv). split; [exact Hk|exact Hv].
  Unshelve.
  - vm_compute. reflexivity.
  - right. left. reflexivity.
Defined.

(** ** Renaming a schema key: other schemas, missing keys, missing data *)

(** the handler on a schema other than the input schema: no message is
    looked at *)
Lemma handleSchemaKeyEdit_plain (id : string) (nd config schema : gmap string value)
  (oldKey newKey nk schemaType : string) :
  nd !! "config" = Some (VObj config) ->
  config !! schemaType = Some (VObj schema) ->
  inherited oldKey = false ->
  schemaType <> "input_schema" ->
  replace_all re_white_space_run "_" newKey = Ok nk ->
  nk <> "" -> nk <> oldKey ->
  handleSchemaKeyEdit id (VObj nd) oldKey newKey schemaType
  = Ok (rename_effects id oldKey nk schemaType
          (<[schemaType :=
               VObj (delete oldKey
                       (<[nk := default VUndefined (schema !! oldKey)]> schema))]>
             config)).
Proof.
  intros Hcfg Hsch Hold Hst Hnorm Hne Hdiff.
  unfold handleSchemaKeyEdit. rewrite Hnorm. cbn [obind].
  rewrite (rename_guard _ _ _ Hnorm Hne Hdiff).
  rewrite (optprop_own _ _ _ Hcfg). cbn [obind opt_link].
  rewrite (optprop_own _ _ _ Hsch). cbn [obind link].
  change (chain_value (Some ?x)) with x. cbn [spread obind].
  rewrite (getprop_object _ _ Hold). cbn [obind].
  apply String.eqb_neq in Hst. rewrite Hst. reflexivity.
Qed.

(** X6: renaming a key that the schema does not have is not refused: on
    a schema other than the input schema the handler dispatches a schema in
    which the new key is [undefined], whatever the schema had under that
    key, together with the edge update. *)
Theorem handleSchemaKeyEdit_missing_key
  (id : string) (nd config schema : gmap string value)
  (oldKey newKey nk schemaType : string) :
  nd !! "config" = Some (VObj config) ->
  config !! schemaType = Some (VObj schema) ->
  schema !! oldKey = None -> inherited oldKey = false ->
  schemaType <> "input_schema" ->
  replace_all re_white_space_run "_" newKey = Ok nk ->
  nk <> "" -> nk <> oldKey ->
  handleSchemaKeyEdit id (VObj nd) oldKey newKey schemaType
  = Ok (rename_effects id oldKey nk schemaType
          (<[schemaType := VObj (<[nk := VUndefined]> schema)]> config)).
Proof.
  intros Hcfg Hsch Hold Hinh Hst Hnorm Hne Hdiff.
  rewrite (handleSchemaKeyEdit_plain _ _ _ _ _ _ _ _ Hcfg Hsch Hinh Hst Hnorm Hne Hdiff).
  rewrite Hold. cbn [default].
  rewrite delete_id; [reflexivity|].
  rewrite lookup_insert_ne by congruence. exact Hold.
Qed.

Lemma handleSchemaKeyEdit_missing_key_witness :
  handleSchemaKeyEdit "n1"
    (VObj {[ "config" := VObj {[ "output_schema" := VObj {[ "y" := VStr "int" ]} ]} ]})
    "gone" "y" "output_schema"
  = Ok (rename_effects "n1" "gone" "y" "output_schema"
          {[ "output_schema" := VObj {[ "y" := VUndefined ]} ]}).
Proof.
  rewrite (handleSchemaKeyEdit_missing_key "n1"
             {[ "config" := VObj {[ "output_schema" := VObj {[ "y" := VStr "int" ]} ]} ]}
             {[ "output_schema" := VObj {[ "y" := VStr "int" ]} ]}
             {[ "y" := VStr "int" ]} "gone" "y" "y" "output_schema");
    try reflexivity; try discriminate.
Defined.

(** X7: when there is no node data, or the node data has no
    configuration, the handler throws nothing, whatever the keys and the
    schema: it dispatches a configuration that holds nothing but the schema
    [{newKey: undefined}], and the edge update. *)
Theorem handleSchemaKeyEdit_without_config
  (id : string) (nodeData : value) (oldKey newKey nk schemaType : string) :
  without_config nodeData ->
  replace_all re_white_space_run "_" newKey = Ok nk ->
  nk <> "" -> nk <> oldKey ->
  handleSchemaKeyEdit id nodeData oldKey newKey schemaType
  = Ok (rename_effects id oldKey nk schemaType
          {[ schemaType := VObj {[ nk := VUndefined ]} ]}).
Proof.
  intros Hnd Hnorm Hne Hdiff.
  unfold handleSchemaKeyEdit. rewrite Hnorm. cbn [obind].
  rewrite (rename_guard _ _ _ Hnorm Hne Hdiff).
  assert (Hchain : exists c, optprop nodeData "config" = Ok c /\
                             nullish (chain_value c) = true).
  { destruct Hnd as [Hnull | (nd & -> & [H | [H | H]])].
    - exists None. unfold optprop. now rewrite Hnull.
    - exists (Some VUndefined). now rewrite (optprop_missing _ _ H).
    - exists (Some VUndefined). now rewrite (optprop_own _ _ _ H).
    - exists (Some VNull). now rewrite (optprop_own _ _ _ H). }
  destruct Hchain as (c & Hc & Hnull).
  assert (Hlink : opt_link c schemaType = Ok None).
  { destruct c as [v|]; [|reflexivity]. cbn [opt_link chain_value default] in *.
    unfold optprop. cbn in Hnull. now rewrite Hnull. }
  assert (Hmsg : forall field config0,
             update_message_field nodeData field oldKey nk config0 = Ok config0).
  { intros field config0. unfold update_message_field. rewrite Hc. cbn [obind].
    assert (opt_link c field = Ok None) as ->.
    { destruct c as [v|]; [|reflexivity]. cbn [opt_link chain_value default] in *.
      unfold optprop. cbn in Hnull. now rewrite Hnull. }
    reflexivity. }
  rewrite Hc. cbn [obind]. rewrite Hlink. cbn [obind link chain_value default spread].
  assert (spread (chain_value c) = Ok ∅) as ->.
  { destruct c as [[]|]; try discriminate; reflexivity. }
  cbn [obind]. rewrite !Hmsg.
  assert (delete oldKey (<[nk := VUndefined]> (∅ : gmap string value))
          = {[ nk := VUndefined ]}) as ->.
  { rewrite delete_id; [reflexivity|].
    rewrite lookup_insert_ne by congruence. apply lookup_empty. }
  destruct (String.eqb schemaType "input_schema");
    cbn [obind]; rewrite ?Hmsg; reflexivity.
Qed.

Lemma handleSchemaKeyEdit_without_config_witness :
  handleSchemaKeyEdit "n1" VUndefined "(" "x y" "input_schema"
  = Ok (rename_effects "n1" "(" "x_y" "input_schema"
          {[ "input_schema" := VObj {[ "x_y" := VUndefined ]} ]}).
Proof.
  apply handleSchemaKeyEdit_without_config.
  - left. reflexivity.
  - vm_compute. reflexivity.
  - discriminate.
  - discriminate.
Defined.

(** X3: on a schema other than the input schema, renaming a key that
    the schema has always goes through, whatever characters the old key is
    made of: the value moves from the old key to the normalised new key,
    the other entries of the schema keep their values, and every other
    field of the configuration, the two messages included, is dispatched
    as it was. *)
Theorem handleSchemaKeyEdit_output_frame
  (id : string) (nd config schema : gmap string value)
  (oldKey newKey nk schemaType : string) (v : value) :
  nd !! "config" = Some (VObj config) ->
  config !! schemaType = Some (VObj schema) ->
  schema !! oldKey = Some v ->
  schemaType <> "input_schema" ->
  replace_all re_white_space_run "_" newKey = Ok nk ->
  nk <> "" -> nk <> oldKey ->
  exists config' schema',
    handleSchemaKeyEdit id (VObj nd) oldKey newKey schemaType
    = Ok (rename_effects id oldKey nk schemaType config') /\
    config' !! schemaType = Some (VObj schema') /\
    (forall k, k <> schemaType -> config' !! k = config !! k) /\
    schema' !! nk = Some v /\ schema' !! oldKey = None /\
    (forall k, k <> oldKey -> k <> nk -> schema' !! k = schema !! k).
Proof.
  intros Hcfg Hsch Hold Hst Hnorm Hne Hdiff.
  eexists _, _. split; [|split; [|split; [|split; [|split]]]].
  - unfold handleSchemaKeyEdit. rewrite Hnorm. cbn [obind].
    rewrite (rename_guard _ _ _ Hnorm Hne Hdiff).
    rewrite (optprop_own _ _ _ Hcfg). cbn [obind opt_link].
    rewrite (optprop_own _ _ _ Hsch). cbn [obind link].
    change (chain_value (Some ?x)) with x. cbn [spread obind].
    rewrite (getprop_own _ _ _ Hold). cbn [obind].
    apply String.eqb_neq in Hst. rewrite Hst. reflexivity.
  - apply lookup_insert_eq.
  - intros k Hk. now rewrite lookup_insert_ne by congruence.
  - rewrite lookup_delete_ne by congruence. apply lookup_insert_eq.
  - apply lookup_delete_eq.
  - intros k Hk1 Hk2.
    rewrite lookup_delete_ne by congruence. now rewrite lookup_insert_ne by congruence.
Qed.

Lemma handleSchemaKeyEdit_output_frame_witness :
  exists config' schema',
    handleSchemaKeyEdit "n1" (VObj Examples.nodeData) "response" "answer"
                        "output_schema"
    = Ok (rename_effects "n1" "response" "answer" "output_schema" config') /\
    config' !! "output_schema" = Some (VObj schema') /\
    (forall k, k <> "output_schema" -> config' !! k = Examples.config !! k) /\
    schema' !! "answer" = Some (VStr "str") /\ schema' !! "response" = None /\
    (forall k, k <> "response" -> k <> "answer" ->
               schema' !! k = ({[ "response" := VStr "str" ]} : gmap string value) !! k).
Proof.
  apply (handleSchemaKeyEdit_output_frame "n1" Examples.nodeData Examples.config
           {[ "response" := VStr "str" ]} "response" "answer" "answer"
           "output_schema" (VStr "str"));
    try reflexivity; discriminate.
Defined.

(** X5: on a schema other than the input schema, let [a] be a key of the
    schema that is not empty and has no white space (so that the
    normalisation leaves it as it is), and [b] the normal form of the new
    key, not empty, different from [a] and not a key of the schema.
    Renaming [a] to [b] and then, on the node data with the dispatched
    configuration, renaming [b] back to [a] dispatches a configuration with
    the entries the node had at the start: the same value under every key
    of the configuration and of the schema.  Objects are finite maps here,
    so equality is equality of entries; the place of [a] among the keys of
    the schema is not part of the statement. *)
Theorem handleSchemaKeyEdit_rename_back
  (id : string) (nd config schema : gmap string value)
  (a newKey b schemaType : string) (v : value) :
  nd !! "config" = Some (VObj config) ->
  config !! schemaType = Some (VObj schema) ->
  schema !! a = Some v -> schema !! b = None ->
  schemaType <> "input_schema" ->
  replace_all re_white_space_run "_" newKey = Ok b ->
  b <> "" -> b <> a ->
  no_white_space a = true -> a <> "" ->
  exists config',
    handleSchemaKeyEdit id (VObj nd) a newKey schemaType
    = Ok (rename_effects id a b schemaType config') /\
    handleSchemaKeyEdit id (VObj (<[ "config" := VObj config' ]> nd))
                        b a schemaType
    = Ok (rename_effects id b a schemaType config).
Proof.
  intros Hcfg Hsch Ha Hb Hst Hnorm Hne Hdiff Hclean Hane.
  set (schema' := delete a (<[b := v]> schema)).
  exists (<[schemaType := VObj schema']> config). split.
  - unfold handleSchemaKeyEdit. rewrite Hnorm. cbn [obind].
    rewrite (rename_guard _ _ _ Hnorm Hne Hdiff).
    rewrite (optprop_own _ _ _ Hcfg). cbn [obind opt_link].
    rewrite (optprop_own _ _ _ Hsch). cbn [obind link].
    change (chain_value (Some ?x)) with x. cbn [spread obind].
    rewrite (getprop_own _ _ _ Ha). cbn [obind].
    apply String.eqb_neq in Hst. rewrite Hst. reflexivity.
  - assert (Hnorm' : replace_all re_white_space_run "_" a = Ok a).
    { rewrite normalize_squash. f_equal. now apply squash_clean. }
    assert (Hb' : schema' !! b = Some v).
    { unfold schema'. rewrite lookup_delete_ne by congruence. apply lookup_insert_eq. }
    unfold handleSchemaKeyEdit. rewrite Hnorm'. cbn [obind].
    rewrite (rename_guard _ _ _ Hnorm' Hane) by congruence.
    rewrite (optprop_own _ _ (VObj (<[schemaType := VObj schema']> config)))
      by apply lookup_insert_eq.
    cbn [obind opt_link].
    rewrite (optprop_own _ _ (VObj schema')) by apply lookup_insert_eq.
    cbn [obind link].
    change (chain_value (Some ?x)) with x. cbn [spread obind].
    rewrite (getprop_own _ _ _ Hb'). cbn [obind].
    apply String.eqb_neq in Hst. rewrite Hst. cbn [obind].
    change (chain_value (Some v)) with v.
    unfold rename_effects. do 4 f_equal.
    rewrite insert_insert_eq.
    assert (delete b (<[a := v]> schema') = schema) as ->.
    { unfold schema'. apply map_eq. intros k.
      destruct (decide (k = b)) as [->|Hkb].
      - now rewrite lookup_delete_eq.
      - rewrite lookup_delete_ne by congruence.
        destruct (decide (k = a)) as [->|Hka].
        + now rewrite lookup_insert_eq.
        + rewrite lookup_insert_ne by congruence.
          rewrite lookup_delete_ne by congruence.
          now rewrite lookup_insert_ne by congruence. }
    now rewrite insert_id.
Qed.

Lemma handleSchemaKeyEdit_rename_back_witness :
  exists config',
    handleSchemaKeyEdit "n1" (VObj Examples.nodeData) "response" "the answer"
                        "output_schema"
    = Ok (rename_effects "n1" "response" "the_answer" "output_schema" config') /\
    handleSchemaKeyEdit "n1"
      (VObj (<[ "config" := VObj config' ]> Examples.nodeData))
      "the_answer" "response" "output_schema"
    = Ok (rename_effects "n1" "the_answer" "response" "output_schema"
            Examples.config).
Proof.
  apply (handleSchemaKeyEdit_rename_back "n1" Examples.nodeData Examples.config
           {[ "response" := VStr "str" ]} "response" "the answer" "the_answer"
           "output_schema" (VStr "str"));
    try reflexivity; try discriminate.
Defined.

(** ** Messages without placeholders, and new keys with a dollar sign *)

Lemma placeholder_match_no_brace (key : string) (c : ascii) (s : string) :
  Ascii.eqb "{" c = false -> placeholder_match key (String c s) = None.
Proof.
  intros Hc. unfold placeholder_match. cbn [strip_prefix]. now rewrite Hc.
Qed.

(** the search for placeholders walks over a text without braces *)
Lemma replace_loop_no_brace (key text pre : string) :
  includes_char "{" pre = false ->
  forall (fuel : nat) (before s : string),
    replace_loop (String.length pre + fuel)
      {| re_tree := placeholder_regex key; re_groups := 0 |} text before
      (pre +:+ s)
    = let* t := replace_loop fuel
                  {| re_tree := placeholder_regex key; re_groups := 0 |} text
                  (before +:+ pre) s in
      Ok (pre +:+ t).
Proof.
  induction pre as [|c pre IH]; intros Hpre fuel before s.
  - rewrite append_empty_l, append_empty_r. cbn [String.length Nat.add].
    destruct (replace_loop _ _ _ _ _); reflexivity.
  - cbn [includes_char] in Hpre. apply orb_false_iff in Hpre as [Hc Hpre].
    rewrite append_cons. cbn [String.length Nat.add replace_loop].
    unfold match_here. cbn [re_tree]. rewrite rmatch_placeholder.
    rewrite (placeholder_match_no_brace _ _ _ Hc).
    rewrite (IH Hpre).
    replace (before +:+ String c pre) with ((before +:+ String c "") +:+ pre)
      by (now rewrite append_assoc).
    destruct (replace_loop _ _ _ _ _); reflexivity.
Qed.

(** X8: [updateMessageVariables] returns a message that has no opening
    brace as it is, for every old key free of pattern syntax and every new
    key. *)
Theorem updateMessageVariables_no_brace (oldKey newKey s : string) :
  no_syntax_character oldKey = true ->
  includes_char "{" s = false ->
  updateMessageVariables (VStr s) oldKey newKey = Ok (VStr s).
Proof.
  intros Hold Hs. unfold updateMessageVariables.
  destruct s as [|c s]; [reflexivity|].
  change (truthy (VStr (String c s))) with true. cbn [negb].
  rewrite RegExp_new_placeholder by assumption. cbn [obind].
  unfold replace_all.
  pose proof (replace_loop_no_brace oldKey ("{{" +:+ newKey +:+ "}}")
                (String c s) Hs 1 "" "") as H.
  rewrite append_empty_r, append_empty_l in H.
  replace (String.length (String c s) + 1) with (S (String.length (String c s)))
    in H by lia.
  rewrite H. cbn. now rewrite append_empty_r.
Qed.

Lemma updateMessageVariables_no_brace_witness :
  updateMessageVariables (VStr "Be brief. Costs $5.") "foo" "$&"
  = Ok (VStr "Be brief. Costs $5.").
Proof.
  apply updateMessageVariables_no_brace; reflexivity.
Defined.






(** ** What a rename leaves alone *)

(** X4: when a rename returns normally, the configuration that it
    dispatches differs from the node's configuration at most in the renamed
    schema and in [system_message] and [user_message] (not at all in the
    messages when the schema is not the input schema), and in the schema
    at most in the entries of the old and of the new key. *)
Theorem handleSchemaKeyEdit_frame
  (id : string) (nd config schema : gmap string value)
  (oldKey newKey schemaType : string)
  (effects : list effect) (e : effect) (config' : gmap string value) :
  nd !! "config" = Some (VObj config) ->
  config !! schemaType = Some (VObj schema) ->
  handleSchemaKeyEdit id (VObj nd) oldKey newKey schemaType = Ok effects ->
  In e effects -> updated_config e = Some (VObj config') ->
  (forall k, k <> schemaType -> k <> "system_message" -> k <> "user_message" ->
             config' !! k = config !! k) /\
  (schemaType <> "input_schema" ->
   forall k, k <> schemaType -> config' !! k = config !! k) /\
  exists nk schema',
    replace_all re_white_space_run "_" newKey = Ok nk /\
    (schemaType <> "system_message" -> schemaType <> "user_message" ->
     config' !! schemaType = Some (VObj schema')) /\
    (forall k, k <> oldKey -> k <> nk -> schema' !! k = schema !! k).
Proof.
  intros Hcfg Hsch. unfold handleSchemaKeyEdit.
  rewrite normalize_squash. cbn [obind].
  set (nk := squash false newKey).
  destruct (String.eqb oldKey nk || negb (truthy (VStr (trim nk)))).
  { intros [= <-] [<-|[]]. discriminate. }
  rewrite (optprop_own _ _ _ Hcfg). cbn [obind opt_link].
  rewrite (optprop_own _ _ _ Hsch). cbn [obind link].
  change (chain_value (Some ?x)) with x. cbn [spread obind].
  intros H.
  apply obind_Ok in H as (old & _ & H). cbn [obind] in H.
  apply obind_Ok in H as (updatedConfig & Hmsg & H).
  injection H as <-.
  intros [<-|[<-|[<-|[]]]]; try discriminate.
  cbn [updated_config]. rewrite lookup_singleton_eq. intros [= <-].
  set (schema' := delete oldKey (<[nk := chain_value old]> schema)) in *.
  assert (Hother : forall k, k <> "system_message" -> k <> "user_message" ->
            updatedConfig !! k = (<[schemaType := VObj schema']> config) !! k).
  { intros k Hk1 Hk2.
    destruct (String.eqb schemaType "input_schema").
    - apply obind_Ok in Hmsg as (c & Hc & Hmsg).
      rewrite (update_message_field_lookup _ _ _ _ _ _ _ Hmsg) by congruence.
      now rewrite (update_message_field_lookup _ _ _ _ _ _ _ Hc) by congruence.
    - now injection Hmsg as <-. }
  split; [|split].
  - intros k Hk Hk1 Hk2. rewrite Hother by assumption.
    now rewrite lookup_insert_ne by congruence.
  - intros Hst k Hk. apply String.eqb_neq in Hst. rewrite Hst in Hmsg.
    injection Hmsg as <-. now rewrite lookup_insert_ne by congruence.
  - exists nk, schema'. split; [reflexivity|]. split.
    + intros H1 H2. rewrite Hother by congruence. apply lookup_insert_eq.
    + intros k Hk1 Hk2. unfold schema'.
      rewrite lookup_delete_ne by congruence.
      now rewrite lookup_insert_ne by congruence.
Qed.

Lemma handleSchemaKeyEdit_frame_witness :
  exists effects e config',
    handleSchemaKeyEdit "n1" (VObj Examples.nodeData) "foo" "bar"
                        "input_schema" = Ok effects /\
    In e effects /\ updated_config e = Some (VObj config') /\
    (forall k, k <> "input_schema" -> k <> "system_message" ->
               k <> "user_message" -> config' !! k = Examples.config !! k).
Proof.
  eexists _, _, _. split; [vm_compute; reflexivity|].
  split; [left; reflexivity|]. split; [reflexivity|].
  refine (proj1 (handleSchemaKeyEdit_frame "n1" Examples.nodeData Examples.config
            Examples.schema "foo" "bar" "input_schema" _ _ _ _ _ _ _ _)).
  - reflexivity.
  - reflexivity.
  - vm_compute. reflexivity.
  - left. reflexivity.
  - reflexivity.
Defined.

(** ** Numbers: the larger and the smaller of two *)

Lemma SFcompare_antisym (a b : number) (c : comparison) :
  SFcompare a b = Some c -> SFcompare b a = Some (CompOpp c).
Proof.
  destruct a as [sa|sa| |sa ma ea], b as [sb|sb| |sb mb eb]; cbn;
    try discriminate; intros [= <-];
    try (destruct sa; reflexivity); try (destruct sb; reflexivity);
    try (destruct sa, sb; reflexivity).
  destruct sa, sb; try reflexivity.
  - rewrite (Z.compare_antisym ea eb).
    destruct (ea ?= eb)%Z; cbn; try reflexivity.
    rewrite (Pos.compare_cont_antisym ma mb). cbn.
    now destruct (Pos.compare_cont Eq mb ma).
  - rewrite (Z.compare_antisym ea eb).
    destruct (ea ?= eb)%Z; cbn; try reflexivity.
    now rewrite (Pos.compare_cont_antisym ma mb).
Qed.

Lemma Math_max_cases (a b : number) :
  isNaN a = false -> isNaN b = false ->
  (Math_max a b = a /\ SFleb b a = true) \/
  (Math_max a b = b /\ SFleb a b = true).
Proof.
  intros Ha Hb. unfold Math_max, SFleb.
  destruct (SFcompare a b) as [[]|] eqn:E.
  - destruct a as [[]|sa| |sa ma ea]; try discriminate; [right|left..];
      (split; [reflexivity|]);
      first [reflexivity | now rewrite E | now rewrite (SFcompare_antisym _ _ _ E)].
  - right. now split.
  - left. now rewrite (SFcompare_antisym _ _ _ E).
  - destruct a, b; discriminate.
Qed.

Lemma Math_min_cases (a b : number) :
  isNaN a = false -> isNaN b = false ->
  (Math_min a b = a /\ SFleb a b = true) \/
  (Math_min a b = b /\ SFleb b a = true).
Proof.
  intros Ha Hb. unfold Math_min, SFleb.
  destruct (SFcompare a b) as [[]|] eqn:E.
  - destruct a as [[]|sa| |sa ma ea]; try discriminate; [left|right|left..];
      (split; [reflexivity|]);
      first [reflexivity | now rewrite E | now rewrite (SFcompare_antisym _ _ _ E)].
  - left. now split.
  - right. now rewrite (SFcompare_antisym _ _ _ E).
  - destruct a, b; discriminate.
Qed.

Lemma SFleb_not_NaN (a b : number) :
  SFleb a b = true -> isNaN a = false /\ isNaN b = false.
Proof. unfold SFleb. destruct a, b; cbn; try discriminate; auto. Qed.

Lemma SFleb_antisym (a b : number) :
  SFleb a b = true -> SFleb b a = true -> SFeqb a b = true.
Proof.
  unfold SFleb, SFeqb. intros Hab Hba.
  destruct (SFcompare a b) as [[]|] eqn:E; try discriminate; [reflexivity|].
  now rewrite (SFcompare_antisym _ _ _ E) in Hba.
Qed.

Lemma SFltb_not_leb (a b : number) :
  SFltb a b = true -> SFleb a b = true /\ SFleb b a = false.
Proof.
  unfold SFleb, SFltb. intros H.
  destruct (SFcompare a b) as [[]|] eqn:E; try discriminate.
  now rewrite (SFcompare_antisym _ _ _ E).
Qed.

(** a number between two bounds, as [Math.min(Math.max(x, lo), hi)] *)
Lemma clamp_bounds (lo hi x : number) :
  SFltb lo hi = true -> SFleb lo lo = true -> SFleb hi hi = true ->
  isNaN x = false ->
  SFleb lo (Math_min (Math_max x lo) hi) = true /\
  SFleb (Math_min (Math_max x lo) hi) hi = true /\
  (SFleb lo x = true -> SFleb x hi = true ->
   Math_min (Math_max x lo) hi = x \/
   SFeqb (Math_min (Math_max x lo) hi) x = true).
Proof.
  intros Hlt Hlo Hhi Hx.
  destruct (SFltb_not_leb _ _ Hlt) as [Hlohi Hhilo].
  destruct (SFleb_not_NaN _ _ Hlohi) as [Hnlo Hnhi].
  destruct (Math_max_cases x lo Hx Hnlo) as [[-> Hle]|[-> Hle]].
  - destruct (Math_min_cases x hi Hx Hnhi) as [[-> Hle']|[-> Hle']].
    + auto.
    + repeat split; auto. intros _ Hxhi. right. now apply SFleb_antisym.
  - destruct (Math_min_cases lo hi Hnlo Hnhi) as [[-> Hle']|[-> Hle']].
    + repeat split; auto. intros Hlox _. right. now apply SFleb_antisym.
    + congruence.
Qed.

Lemma Math_max_above (x lo : number) :
  SFleb lo x = true -> (forall s, lo <> S754_zero s) -> Math_max x lo = x.
Proof.
  unfold SFleb, Math_max. intros H Hlo.
  destruct (SFcompare lo x) as [[]|] eqn:E; try discriminate;
    rewrite (SFcompare_antisym _ _ _ E); cbn [CompOpp]; [|reflexivity].
  destruct x as [[]| | |]; try reflexivity.
  destruct lo as [s|[]| |[]]; try discriminate. now destruct (Hlo s).
Qed.

Lemma Math_min_below (x hi : number) :
  SFleb x hi = true -> (forall s, hi <> S754_zero s) -> Math_min x hi = x.
Proof.
  unfold SFleb, Math_min. intros H Hhi.
  destruct (SFcompare x hi) as [[]|] eqn:E; try discriminate; [|reflexivity].
  destruct x as [[]| | |]; try reflexivity.
  destruct hi as [s|[]| |[]]; try discriminate. now destruct (Hhi s).
Qed.

Lemma Math_max_NaN (b : number) : Math_max NaN b = NaN.
Proof. reflexivity. Qed.

Lemma Math_min_NaN (b : number) : Math_min NaN b = NaN.
Proof. reflexivity. Qed.

(** X27: while the sidebar is not being resized a mouse move sets
    nothing; while it is, the width that is set is [NaN] when
    [window.innerWidth - e.clientX] is, lies between 300 and 800 otherwise,
    and is that difference itself when the difference lies between 300 and
    800. *)
Theorem handleMouseMove_clamps (isResizing : bool) (innerWidth clientX : number) :
  let newWidth := SFsub prec64 emax64 innerWidth clientX in
  if isResizing then
    exists width,
      handleMouseMove isResizing innerWidth clientX = [setWidth width] /\
      (isNaN newWidth = true -> isNaN width = true) /\
      (isNaN newWidth = false ->
       SFleb (number_of_Z 300) width = true /\
       SFleb width (number_of_Z 800) = true) /\
      (SFleb (number_of_Z 300) newWidth = true ->
       SFleb newWidth (number_of_Z 800) = true -> width = newWidth)
  else handleMouseMove isResizing innerWidth clientX = [].
Proof.
  cbv zeta. destruct isResizing; [|reflexivity].
  eexists. split; [reflexivity|]. split; [|split].
  - intros H. destruct (SFsub _ _ _ _); try discriminate. reflexivity.
  - intros H.
    destruct (clamp_bounds (number_of_Z 300) (number_of_Z 800) _
                eq_refl eq_refl eq_refl H) as (H1 & H2 & _).
    auto.
  - intros H1 H2. rewrite Math_max_above; [|exact H1|discriminate].
    apply Math_min_below; [exact H2|discriminate].
Qed.

(** ** Numbers: rounding keeps the sign *)
















(** ** The width of a node *)








(** ** The node factory: when there is no template *)

Lemma find_by_name_templates (templates : list value) (type : string) :
  Forall is_template templates ->
  (exists t, find_by_name (VArr templates) type = Ok (VObj t) /\
             In (VObj t) templates /\ t !! "name" = Some (VStr type)) \/
  (find_by_name (VArr templates) type = Ok VUndefined /\
   forall t, In (VObj t) templates -> t !! "name" <> Some (VStr type)).
Proof.
  unfold find_by_name.
  induction 1 as [|x l (t & name & -> & Hname) Hl IH].
  - right. split; [reflexivity|]. intros t [].
  - cbn [array_find]. rewrite (getprop_own _ _ _ Hname). cbn [obind strict_eq].
    destruct (String.eqb_spec name type) as [->|Hne].
    + left. exists t. split; [reflexivity|]. split; [now left|assumption].
    + destruct IH as [(t' & Hfind & Hin & Ht') | [Hfind Hnone]].
      * left. exists t'. split; [exact Hfind|]. split; [now right|assumption].
      * right. split; [exact Hfind|].
        intros t' [[= <-]|Hin]; [congruence|now apply Hnone].
Qed.

Lemma find_node_type_catalog (categories : list value) (type : string) :
  is_catalog categories ->
  (exists t, find_node_type categories type = Ok (VObj t) /\
             t !! "name" = Some (VStr type)) \/
  (find_node_type categories type = Ok VNull /\ ~ has_template categories type).
Proof.
  induction 1 as [|c cs (templates & -> & Hts) Hcs IH].
  - right. split; [reflexivity|]. intros (ts & t & [] & _).
  - cbn [find_node_type].
    destruct (find_by_name_templates templates type Hts)
      as [(t & Hfind & Hin & Ht) | [Hfind Hnone]].
    + left. exists t. rewrite Hfind. cbn. auto.
    + rewrite Hfind. cbn [obind truthy].
      destruct IH as [(t & Hrest & Ht) | [Hrest Hno]].
      * left. exists t. auto.
      * right. split; [exact Hrest|].
        intros (ts & t & [[= <-]|Hin] & Hint & Ht).
        -- exact (Hnone t Hint Ht).
        -- apply Hno. exists ts, t. auto.
Qed.

(** X12: on a catalog whose categories are arrays of named templates,
    [createNode] returns [null] exactly when no category has a template of
    the given name. *)
Theorem createNode_null_iff (uuid : string) (nodeTypes : value) (type : string)
  (id position additionalData : value) (categories : list value) :
  for_in_values nodeTypes = Ok categories -> is_catalog categories ->
  (createNode uuid nodeTypes type id position additionalData = Ok VNull
   <-> ~ has_template categories type).
Proof.
  intros Hcats Hwf. unfold createNode. rewrite Hcats. cbn [obind].
  destruct (find_node_type_catalog categories type Hwf)
    as [(t & Hfind & Ht) | [Hfind Hno]]; rewrite Hfind; cbn [obind truthy negb].
  - split.
    + intros H. exfalso.
      repeat (apply obind_Ok in H as (? & _ & H)).
      destruct (String.eqb type "group").
      * repeat (apply obind_Ok in H as (? & _ & H)). discriminate.
      * repeat (apply obind_Ok in H as (? & _ & H)). discriminate.
    + intros Hno. exfalso. apply Hno.
      destruct (find_node_type_sound _ _ _ Hfind eq_refl)
        as (templates & Hin & Hint & _).
      exists templates, t. auto.
  - tauto.
Qed.

Lemma createNode_null_iff_witness :
  createNode "uuid" Examples.catalog "group" (VStr "n1") Examples.position
             VUndefined = Ok VNull
  <-> ~ has_template [VArr [VObj Examples.llm_template]] "group".
Proof.
  apply createNode_null_iff.
  - reflexivity.
  - repeat constructor. eexists. split; [reflexivity|].
    repeat constructor. eexists _, _. split; reflexivity.
Defined.

(** ** The node factory: the whole node *)

(** the node of a type other than ["group"], in full *)
Lemma createNode_template_value
  (uuid : string) (nodeTypes : value) (type : string)
  (id position additionalData : value) (categories : list value)
  (template visual_tag overrides : gmap string value) :
  for_in_values nodeTypes = Ok categories ->
  find_node_type categories type = Ok (VObj template) ->
  type <> "group" ->
  template !! "visual_tag" = Some (VObj visual_tag) ->
  template_side template "input" -> template_side template "output" ->
  given_overrides additionalData = Some overrides ->
  override_side overrides "input" -> override_side overrides "output" ->
  exists input output : value,
    let processed :=
      merged_overrides overrides "output" (side_properties template "output")
        (merged_overrides overrides "input" (side_properties template "input")
           overrides) in
    createNode uuid nodeTypes type id position additionalData
    = Ok (VObj (<[ "id" := id ]>
               (<[ "type" := VStr type ]>
               (<[ "position" := position ]>
               {[ "data" :=
                    VObj (assign
                            (template_defaults template visual_tag
                               ∪ (<[ "input" := input ]> {[ "output" := output ]}))
                            processed) ]})))) /\
    (overrides !! "input" = None ->
     input = VObj {[ "properties" := VObj (side_properties template "input") ]}) /\
    (overrides !! "output" = None ->
     output = VObj {[ "properties" := VObj (side_properties template "output") ]}).
Proof.
  intros Hcats Hfind Hgroup Hvt Htin Htout Hgiven Hoin Hoout.
  set (inP := side_properties template "input").
  set (outP := side_properties template "output").
  set (p1 := merged_overrides overrides "input" inP overrides).
  set (p2 := merged_overrides overrides "output" outP p1).
  assert (Hp1out : p1 !! "output" = overrides !! "output")
    by (apply merged_overrides_other; discriminate).
  assert (Hp2in : p2 !! "input" = p1 !! "input")
    by (apply merged_overrides_other; discriminate).
  destruct (spread_merged_side overrides inP overrides "input" Hoin eq_refl)
    as (kin & Hkin & Hdin).
  destruct (spread_merged_side overrides outP p1 "output" Hoout Hp1out)
    as (kout & Hkout & Hdout).
  fold p1 in Hkin, Hdin. fold p2 in Hkout, Hdout.
  assert (Hname : template !! "name" = Some (VStr type)).
  { destruct (find_node_type_sound _ _ _ Hfind eq_refl) as (_ & _ & _ & Hn).
    unfold getprop in Hn. destruct (template !! "name") as [x|].
    - now injection Hn as ->.
    - destruct (inherited "name"); discriminate. }
  exists (VObj (assign {[ "properties" := VObj inP ]} kin)),
         (VObj (assign {[ "properties" := VObj outP ]} kout)).
  cbv zeta. split; [|split].
  - unfold createNode.
    rewrite (given_overrides_object _ _ Hgiven).
    rewrite Hcats. cbn [obind]. rewrite Hfind. cbn [obind truthy negb].
    rewrite !default_properties_template by (assumption || reflexivity).
    cbn [obind]. unfold cloneDeep at 1.
    rewrite merge_properties_override by (assumption || reflexivity).
    cbn [obind]. fold inP p1.
    rewrite merge_properties_override by (assumption || reflexivity).
    cbn [obind]. fold outP p2.
    replace (String.eqb type "group") with false
      by (symmetry; now apply String.eqb_neq).
    rewrite !(getprop_object template) by reflexivity. cbn [obind].
    rewrite Hvt. change (default VUndefined (Some (VObj visual_tag)))
      with (VObj visual_tag).
    rewrite !(getprop_object visual_tag) by reflexivity. cbn [obind].
    rewrite !(getprop_object p2) by reflexivity. cbn [obind].
    rewrite Hp2in, Hkin. cbn [obind]. rewrite Hkout. cbn [obind spread].
    rewrite Hname. cbn [default]. unfold cloneDeep.
    do 6 f_equal. unfold template_defaults, assign. rewrite Hname. cbn [default].
    now do 2 f_equal.
  - intros Hnone. f_equal. unfold p1, merged_overrides in Hkin.
    rewrite Hnone in Hkin. rewrite Hnone in Hkin. injection Hkin as <-.
    unfold assign. apply map_empty_union.
  - intros Hnone. f_equal.
    assert (p2 !! "output" = None) as Hp2.
    { unfold p2, merged_overrides. rewrite Hnone. now rewrite Hp1out. }
    rewrite Hp2 in Hkout. injection Hkout as <-.
    unfold assign. apply map_empty_union.
Qed.

(** X13: the node of a type other than ["group"] is
    [{id, type, position, data}] with the [id] as it was passed, also when
    it is [undefined] (no identifier is generated), and the type that was
    asked for; in [data], every key of the overrides other than [input] and
    [output] has the overrides' value, so that an overriding [config]
    replaces the template's [config] as a whole, and [title], [acronym],
    [color] and [config] are the template's otherwise. *)
Theorem createNode_data_overrides
  (uuid : string) (nodeTypes : value) (type : string)
  (id position additionalData : value) (categories : list value)
  (template visual_tag overrides : gmap string value) :
  for_in_values nodeTypes = Ok categories ->
  find_node_type categories type = Ok (VObj template) ->
  type <> "group" ->
  template !! "visual_tag" = Some (VObj visual_tag) ->
  template_side template "input" -> template_side template "output" ->
  given_overrides additionalData = Some overrides ->
  override_side overrides "input" -> override_side overrides "output" ->
  exists data,
    createNode uuid nodeTypes type id position additionalData
    = Ok (VObj (<[ "id" := id ]>
               (<[ "type" := VStr type ]>
               (<[ "position" := position ]>
               {[ "data" := VObj data ]})))) /\
    (forall k x, k <> "input" -> k <> "output" ->
                 overrides !! k = Some x -> data !! k = Some x) /\
    (forall k, k <> "input" -> k <> "output" -> overrides !! k = None ->
               data !! k = template_defaults template visual_tag !! k) /\
    template_defaults template visual_tag !! "title" = Some (VStr type).
Proof.
  intros Hcats Hfind Hgroup Hvt Htin Htout Hgiven Hoin Hoout.
  destruct (createNode_template_value uuid nodeTypes type id position
              additionalData categories template visual_tag overrides
              Hcats Hfind Hgroup Hvt Htin Htout Hgiven Hoin Hoout)
    as (input & output & Hrun & _ & _).
  cbv zeta in Hrun. eexists. split; [exact Hrun|].
  assert (Hproc : forall k, k <> "input" -> k <> "output" ->
            merged_overrides overrides "output" (side_properties template "output")
              (merged_overrides overrides "input"
                 (side_properties template "input") overrides) !! k
            = overrides !! k).
  { intros k Hk1 Hk2. now rewrite !merged_overrides_other by congruence. }
  split; [|split].
  - intros k x Hk1 Hk2 Hx. unfold assign.
    apply lookup_union_Some_l. now rewrite Hproc.
  - intros k Hk1 Hk2 Hnone. unfold assign.
    rewrite lookup_union_r by (now rewrite Hproc).
    destruct (template_defaults template visual_tag !! k) as [x|] eqn:E.
    + now apply lookup_union_Some_l.
    + rewrite lookup_union_r by assumption.
      rewrite lookup_insert_ne by congruence.
      now rewrite lookup_singleton_ne by congruence.
  - destruct (find_node_type_sound _ _ _ Hfind eq_refl) as (_ & _ & _ & Hn).
    unfold template_defaults. rewrite lookup_insert_eq. f_equal.
    unfold getprop in Hn. destruct (template !! "name") as [x|].
    + now injection Hn as ->.
    + destruct (inherited "name"); discriminate.
Qed.

Lemma createNode_data_overrides_witness :
  exists data,
    createNode "uuid" Examples.catalog "LLM" VUndefined Examples.position
               (VObj (<[ "config" := VObj {[ "temperature" := VZ 1 ]} ]>
                        Examples.overrides))
    = Ok (VObj (<[ "id" := VUndefined ]>
               (<[ "type" := VStr "LLM" ]>
               (<[ "position" := Examples.position ]>
               {[ "data" := VObj data ]})))) /\
    data !! "config" = Some (VObj {[ "temperature" := VZ 1 ]}) /\
    data !! "title" = Some (VStr "Summarise") /\
    data !! "color" = Some (VStr "#fff").
Proof.
  destruct (createNode_data_overrides "uuid" Examples.catalog "LLM" VUndefined
              Examples.position
              (VObj (<[ "config" := VObj {[ "temperature" := VZ 1 ]} ]>
                       Examples.overrides))
              [VArr [VObj Examples.llm_template]]
              Examples.llm_template Examples.visual_tag
              (<[ "config" := VObj {[ "temperature" := VZ 1 ]} ]>
                 Examples.overrides))
    as (data & Hrun & Hover & Hdef & _).
  - reflexivity.
  - reflexivity.
  - discriminate.
  - reflexivity.
  - right. eexists. split; [reflexivity|]. right. eexists. reflexivity.
  - right. eexists. split; [reflexivity|]. right. eexists. reflexivity.
  - reflexivity.
  - right. eexists _, _. split; reflexivity.
  - left. reflexivity.
  - exists data. split; [exact Hrun|]. split; [|split].
    + apply Hover; [discriminate..|reflexivity].
    + apply Hover; [discriminate..|reflexivity].
    + rewrite Hdef; [reflexivity|discriminate..|reflexivity].
Defined.

(** X14: without overrides ([undefined] or [{}]) the node of a type
    other than ["group"] is made of the template alone: [data] is exactly
    [{title, acronym, color, config, input: {properties}, output:
    {properties}}], where the properties of a side that the template does
    not declare are [{}]. *)
Theorem createNode_without_overrides
  (uuid : string) (nodeTypes : value) (type : string)
  (id position additionalData : value) (categories : list value)
  (template visual_tag : gmap string value) :
  for_in_values nodeTypes = Ok categories ->
  find_node_type categories type = Ok (VObj template) ->
  type <> "group" ->
  template !! "visual_tag" = Some (VObj visual_tag) ->
  template_side template "input" -> template_side template "output" ->
  additionalData = VUndefined \/ additionalData = VObj ∅ ->
  createNode uuid nodeTypes type id position additionalData
  = Ok (VObj (<[ "id" := id ]>
             (<[ "type" := VStr type ]>
             (<[ "position" := position ]>
             {[ "data" :=
                  VObj (<[ "title" := VStr type ]>
                       (<[ "acronym" := default VUndefined (visual_tag !! "acronym") ]>
                       (<[ "color" := default VUndefined (visual_tag !! "color") ]>
                       (<[ "config" := default VUndefined (template !! "config") ]>
                       (<[ "input" := VObj {[ "properties" :=
                             VObj (side_properties template "input") ]} ]>
                       {[ "output" := VObj {[ "properties" :=
                             VObj (side_properties template "output") ]} ]}))))) ]})))).
Proof.
  intros Hcats Hfind Hgroup Hvt Htin Htout Hnone.
  assert (Hgiven : given_overrides additionalData = Some ∅)
    by (destruct Hnone as [-> | ->]; reflexivity).
  destruct (createNode_template_value uuid nodeTypes type id position
              additionalData categories template visual_tag ∅
              Hcats Hfind Hgroup Hvt Htin Htout Hgiven)
    as (input & output & Hrun & Hin & Hout); [now left..|].
  cbv zeta in Hrun. rewrite Hrun.
  rewrite (Hin (lookup_empty _)), (Hout (lookup_empty _)).
  assert (Hname : template !! "name" = Some (VStr type)).
  { destruct (find_node_type_sound _ _ _ Hfind eq_refl) as (_ & _ & _ & Hn).
    unfold getprop in Hn. destruct (template !! "name") as [x|].
    - now injection Hn as ->.
    - destruct (inherited "name"); discriminate. }
  unfold template_defaults, assign, merged_overrides.
  rewrite !lookup_empty, Hname. cbn [default].
  now rewrite (left_id ∅ _).
Qed.

Lemma createNode_without_overrides_witness :
  createNode "uuid" Examples.catalog_with_group "LLM" (VStr "n1")
             Examples.position VUndefined
  = Ok (VObj (<[ "id" := VStr "n1" ]>
             (<[ "type" := VStr "LLM" ]>
             (<[ "position" := Examples.position ]>
             {[ "data" :=
                  VObj (<[ "title" := VStr "LLM" ]>
                       (<[ "acronym" := VStr "L" ]>
                       (<[ "color" := VStr "#fff" ]>
                       (<[ "config" := VObj {[ "model" := VStr "m" ]} ]>
                       (<[ "input" := VObj {[ "properties" :=
                             VObj (<[ "a" := VStr "str" ]> {[ "b" := VStr "str" ]}) ]} ]>
                       {[ "output" := VObj {[ "properties" :=
                             VObj {[ "r" := VStr "str" ]} ]} ]}))))) ]})))).
Proof.
  apply (createNode_without_overrides "uuid" Examples.catalog_with_group "LLM"
           (VStr "n1") Examples.position VUndefined
           [VArr [VObj Examples.group_template]; VArr [VObj Examples.llm_template]]
           Examples.llm_template Examples.visual_tag).
  - reflexivity.
  - reflexivity.
  - discriminate.
  - reflexivity.
  - right. eexists. split; [reflexivity|]. right. eexists. reflexivity.
  - right. eexists. split; [reflexivity|]. right. eexists. reflexivity.
  - now left.
Defined.

(** ** The node factory over the store: the node is new *)

Module HeapResult.
Import Heap HeapFrame.

Lemma keeps_new_object_ref h0 props :
  keeps h0 (new_object props) (null_or_new h0).
Proof.
  intros h a h' Hh [= <- <-]. split.
  - etrans; [exact Hh|]. now apply prefix_app_r.
  - right. eexists. split; [reflexivity|]. now apply prefix_length.
Qed.

#[local] Hint Resolve reads_getprop reads_optprop reads_spread
  reads_for_in_values reads_find_node_type : heap_frame.

Ltac keeps_any :=
  eapply keeps_bind;
    [first [ apply keeps_reads; solve [auto with heap_frame]
           | apply keeps_new_object | apply keeps_cloneDeep
           | apply keeps_default_properties ]
    | intros ? ?].

Lemma keeps_createNode_new h0 uuidv4 nodeTypes type id position additionalData :
  keeps h0 (createNode uuidv4 nodeTypes type id position additionalData)
        (null_or_new h0).
Proof.
  unfold createNode.
  eapply keeps_bind with (Q := fun _ => True).
  { destruct additionalData;
      solve [now apply keeps_ret
            |eapply keeps_weaken; [apply keeps_new_object|auto]]. }
  intros additionalData' _. do 2 keeps_any.
  destruct (negb _); [apply keeps_ret; now left|].
  do 2 keeps_any.
  eapply keeps_bind; [apply keeps_cloneDeep|intros processed Hp].
  eapply keeps_bind; [now apply keeps_merge_properties|intros _ _].
  eapply keeps_bind; [now apply keeps_merge_properties|intros _ _].
  destruct (String.eqb type "group").
  - do 3 keeps_any.
    eapply keeps_bind;
      [apply keeps_js_or, (keeps_ret _ _ (fun _ => True)); exact I|intros ? _].
    apply keeps_new_object_ref.
  - do 5 keeps_any. keeps_any. do 7 keeps_any. keeps_any.
    apply keeps_new_object_ref.
Qed.

Lemma createNode_result_allocated uuidv4 nodeTypes type id position
    additionalData (h : heap) l h' :
  createNode uuidv4 nodeTypes type id position additionalData h
  = Ok (HRef l, h') ->
  l < length h'.
Proof.
  unfold createNode. intros H.
  do 3 (apply bind_Ok in H as (? & ? & _ & H)).
  destruct (negb _); [discriminate|].
  do 5 (apply bind_Ok in H as (? & ? & _ & H)).
  destruct (String.eqb type "group").
  - do 4 (apply bind_Ok in H as (? & ? & _ & H)).
    injection H as <- <-. rewrite length_app. cbn. lia.
  - do 14 (apply bind_Ok in H as (? & ? & _ & H)).
    injection H as <- <-. rewrite length_app. cbn. lia.
Qed.

(** X15: over the store of mutable objects, [createNode] changes no
    object that exists when it is called, and what it returns is [null] or
    an object that it has allocated itself. *)
Theorem createNode_returns_new_object uuidv4 nodeTypes type id position
    additionalData (h : heap) node h' :
  createNode uuidv4 nodeTypes type id position additionalData h
  = Ok (node, h') ->
  h `prefix_of` h' /\
  (node = HNull \/ exists l, node = HRef l /\ length h <= l < length h').
Proof.
  intros H.
  destruct (keeps_createNode_new h uuidv4 nodeTypes type id position
              additionalData h node h' (reflexivity _) H)
    as [Hpre [Hn|(l & -> & Hl)]]; (split; [exact Hpre|]);
    [now left|right].
  exists l. split; [reflexivity|]. split; [exact Hl|].
  eapply createNode_result_allocated, H.
Qed.

Lemma createNode_returns_new_object_witness :
  match createNode "uuid" HeapExamples.ex_catalog "LLM" (HStr "n1")
          HeapExamples.ex_position HeapExamples.ex_overrides
          HeapExamples.ex_heap with
  | Ok (node, h') =>
      (HeapExamples.ex_heap `prefix_of` h') /\
      (node = HNull \/
       exists l, node = HRef l /\ length HeapExamples.ex_heap <= l < length h')
  | _ => False
  end.
Proof.
  destruct (createNode _ _ _ _ _ _ _) as [[node h']| |] eqn:E.
  - exact (createNode_returns_new_object _ _ _ _ _ _ _ _ _ E).
  - vm_compute in E. discriminate.
  - vm_compute in E. discriminate.
Defined.

End HeapResult.

(** ** The workflow document: every node *)

Lemma omap_map {A B} (f : A -> outcome B) (g : A -> B) (l : list A) :
  Forall (fun x => f x = Ok (g x)) l -> omap f l = Ok (map g l).
Proof.
  induction 1 as [|x l Hx _ IH]; [reflexivity|].
  cbn [omap map]. now rewrite Hx, IH.
Qed.

Lemma omap_app_throw {A B} (f : A -> outcome B) (l1 l2 : list A) (x : A)
  (e : error) :
  Forall (fun y => exists z, f y = Ok z) l1 -> f x = Throw e ->
  omap f (l1 ++ x :: l2) = Throw e.
Proof.
  intros H Hx. induction H as [|y l [z Hz] _ IH]; cbn [app omap].
  - now rewrite Hx.
  - now rewrite Hz, IH.
Qed.

Lemma node_record_of_node (vars n : gmap string value) :
  is_node n ->
  obind (updated_node (VObj vars) (VObj n)) node_record
  = Ok (saved_record vars (VObj n)).
Proof.
  intros (_ & (type & Htype) & (data & Hdata & Hconfig) & _).
  unfold updated_node, saved_record, node_config, is_input_node.
  rewrite (getprop_own _ _ _ Htype). cbn [obind strict_eq spread].
  rewrite (getprop_own _ _ _ Hdata). cbn [obind]. rewrite Hdata, Htype.
  destruct (String.eqb_spec type "InputNode") as [->|Hne].
  - rewrite (getprop_object data) by reflexivity. cbn [obind object_keys].
    rewrite input_schema_of_names.
    assert (Hspread : spread (default VUndefined (data !! "config"))
                      = Ok (config_entries (default VUndefined (data !! "config")))).
    { destruct Hconfig as [-> | (c & ->)]; reflexivity. }
    rewrite Hspread. cbn [obind]. rewrite node_record_object.
    now simplify_map_eq.
  - rewrite !(optprop_object data) by reflexivity. cbn [obind].
    rewrite node_record_object. now simplify_map_eq.
Qed.

Lemma omap_compose {A B C} (f : A -> outcome B) (g : B -> outcome C)
  (l : list A) (l' : list C) :
  omap (fun x => obind (f x) g) l = Ok l' ->
  obind (omap f l) (omap g) = Ok l'.
Proof.
  revert l'. induction l as [|x l IH]; intros l' H; [exact H|].
  cbn [omap] in *.
  destruct (f x) as [y| |]; cbn [obind] in *; [|discriminate..].
  destruct (g y) as [z| |] eqn:Hz; cbn [obind] in H; [|discriminate..].
  destruct (omap (fun x => obind (f x) g) l) as [zs| |]; cbn [obind] in H;
    [|discriminate..].
  injection H as <-. specialize (IH zs eq_refl).
  destruct (omap f l) as [ys| |]; cbn [obind] in *; [|discriminate..].
  cbn [omap]. rewrite Hz. cbn [obind]. now rewrite IH.
Qed.

(** the node records of a graph of NodeInstances *)
Lemma node_records_of_nodes (vars : gmap string value) (ns : list value) :
  all_nodes ns ->
  obind (omap (updated_node (VObj vars)) ns) (omap node_record)
  = Ok (map (saved_record vars) ns).
Proof.
  intros Hns. apply omap_compose, omap_map.
  eapply Forall_impl; [exact Hns|]. intros v (n & -> & Hn).
  now apply node_record_of_node.
Qed.

Lemma links_total (ns es : list value) :
  all_nodes ns -> all_edges es ->
  exists links, omap (link_record ns) es = Ok links /\ length links = length es.
Proof.
  intros Hns Hes.
  destruct (omap_total (link_record ns) es) as (links & Hlinks).
  { eapply Forall_impl; [exact Hes|]. intros v (e & -> & He).
    destruct (link_record_ok ns e Hns He) as (l & Hl & _). eauto. }
  exists links. split; [exact Hlinks|].
  clear -Hlinks. revert links Hlinks.
  induction es as [|e es IH]; intros links; cbn [omap].
  - now intros [= <-].
  - destruct (link_record ns e); cbn [obind]; [|discriminate..].
    destruct (omap (link_record ns) es); cbn [obind]; [|discriminate..].
    intros [= <-]. cbn. f_equal. now apply IH.
Qed.

(** the document of a graph of NodeInstances *)
Lemma saveWorkflow_document (workflowID : value) (ns es : list value)
  (vars : gmap string value) (workflowName testInputs : value) :
  all_nodes ns -> all_edges es ->
  exists links,
    length links = length es /\
    let document :=
      VObj (<[ "name" := workflowName ]>
           {[ "definition" :=
                VObj (<[ "nodes" := VArr (map (saved_record vars) ns) ]>
                     (<[ "links" := VArr links ]>
                     {[ "test_inputs" := testInputs ]})) ]}) in
    saveWorkflow workflowID (VArr ns) (VArr es) (VObj vars)
                 workflowName testInputs
    = Ok [console_log document; updateWorkflow workflowID document].
Proof.
  intros Hns Hes.
  destruct (links_total ns es Hns Hes) as (links & Hlinks & Hlen).
  exists links. split; [exact Hlen|]. cbv zeta.
  unfold saveWorkflow, updatedWorkflow. cbn [array_elems obind].
  rewrite (filter_all_nodes _ Hns).
  pose proof (node_records_of_nodes vars ns Hns) as Hrec.
  destruct (omap (updated_node (VObj vars)) ns) as [us| |]; cbn [obind] in *;
    [|discriminate..].
  rewrite Hrec. cbn [obind]. rewrite Hlinks. reflexivity.
Qed.

(** X16: for every graph of NodeInstances and every set of declared
    input variables, also the empty one, the record of each [InputNode]
    has a [config] whose [input_schema] has exactly the declared names as
    keys, each with the value ["str"], and whose other entries are those of
    the node's [data.config]. *)
Theorem saveWorkflow_input_schema_general
  (workflowID : value) (ns es : list value) (vars : gmap string value)
  (workflowName testInputs : value) :
  all_nodes ns -> all_edges es ->
  exists document records links schema,
    saveWorkflow workflowID (VArr ns) (VArr es) (VObj vars)
                 workflowName testInputs
    = Ok [console_log document; updateWorkflow workflowID document] /\
    document
    = VObj (<[ "name" := workflowName ]>
           {[ "definition" :=
                VObj (<[ "nodes" := VArr records ]>
                     (<[ "links" := VArr links ]>
                     {[ "test_inputs" := testInputs ]})) ]}) /\
    dom schema = dom vars /\
    (forall name, name ∈ dom vars -> schema !! name = Some (VStr "str")) /\
    (forall i n,
        ns !! i = Some (VObj n) -> n !! "type" = Some (VStr "InputNode") ->
        exists r config,
          records !! i = Some (VObj r) /\
          r !! "config" = Some (VObj config) /\
          config !! "input_schema" = Some (VObj schema) /\
          forall k, k <> "input_schema" ->
                    config !! k = config_entries (node_config n) !! k).
Proof.
  intros Hns Hes.
  destruct (saveWorkflow_document workflowID ns es vars workflowName testInputs
              Hns Hes) as (links & _ & Hrun).
  cbv zeta in Hrun.
  eexists _, _, links, ((fun _ => VStr "str") <$> vars).
  split; [exact Hrun|]. split; [reflexivity|]. split; [apply dom_fmap_L|].
  split.
  - intros name [x Hx]%elem_of_dom. now rewrite lookup_fmap, Hx.
  - intros i n Hi Htype. rewrite list_lookup_fmap, Hi. cbn [fmap option_fmap option_map saved_record].
    unfold is_input_node. rewrite Htype. cbn [String.eqb Ascii.eqb Bool.eqb].
    eexists _, _. split; [reflexivity|]. split; [now simplify_map_eq|].
    split; [apply lookup_insert_eq|].
    intros k Hk. now rewrite lookup_insert_ne by congruence.
Qed.

Lemma saveWorkflow_input_schema_general_witness :
  exists document records links schema,
    saveWorkflow (VStr "w") (VArr Examples.nodes) (VArr Examples.edges)
                 (VObj ∅) (VStr "flow") VNull
    = Ok [console_log document; updateWorkflow (VStr "w") document] /\
    document
    = VObj (<[ "name" := VStr "flow" ]>
           {[ "definition" :=
                VObj (<[ "nodes" := VArr records ]>
                     (<[ "links" := VArr links ]>
                     {[ "test_inputs" := VNull ]})) ]}) /\
    dom schema = dom (∅ : gmap string value) /\
    (forall name, name ∈ dom (∅ : gmap string value) ->
                  schema !! name = Some (VStr "str")) /\
    (forall i n,
        Examples.nodes !! i = Some (VObj n) ->
        n !! "type" = Some (VStr "InputNode") ->
        exists r config,
          records !! i = Some (VObj r) /\
          r !! "config" = Some (VObj config) /\
          config !! "input_schema" = Some (VObj schema) /\
          forall k, k <> "input_schema" ->
                    config !! k = config_entries (node_config n) !! k).
Proof.
  apply saveWorkflow_input_schema_general.
  - repeat constructor; eexists; (split; [reflexivity|]);
      (split; [eexists; reflexivity|]); (split; [eexists; reflexivity|]);
      (split; [|reflexivity]); eexists; (split; [reflexivity|]);
      right; eexists; reflexivity.
  - repeat constructor; eexists; (split; [reflexivity|]);
      repeat split; eexists; reflexivity.
Defined.

(** ** The workflow document: holes and broken input nodes *)



Lemma updated_node_hole_ok (vars : gmap string value) (l : list value) :
  Forall node_or_hole l ->
  Forall (fun y => exists z, updated_node (VObj vars) y = Ok z)
         (List.filter (fun node => negb (nullish node)) l).
Proof.
  induction 1 as [|v l [Hnull|(n & -> & Hn)] _ IH]; cbn [List.filter].
  - constructor.
  - now rewrite Hnull.
  - cbn [nullish negb]. constructor; [|exact IH].
    destruct (updated_node_ok vars n Hn) as (u & Hu & _). eauto.
Qed.

(** X18: when some [InputNode] of the graph has no [data], the
    error is caught: [saveWorkflow] logs a [TypeError] and sends nothing,
    whatever the edges are. *)
Theorem saveWorkflow_input_node_without_data
  (workflowID : value) (before after : list value) (bad : gmap string value)
  (edges : value) (vars : gmap string value) (workflowName testInputs : value) :
  Forall node_or_hole before -> input_node_without_data bad ->
  saveWorkflow workflowID (VArr (before ++ VObj bad :: after)) edges (VObj vars)
               workflowName testInputs
  = Ok [console_error TypeError].
Proof.
  intros Hbefore [Htype Hdata].
  unfold saveWorkflow, updatedWorkflow. cbn [array_elems obind].
  rewrite List.filter_app. cbn [List.filter nullish negb].
  assert (Hthrow : updated_node (VObj vars) (VObj bad) = Throw TypeError).
  { unfold updated_node. rewrite (getprop_own _ _ _ Htype).
    cbn [obind strict_eq String.eqb Ascii.eqb Bool.eqb spread].
    assert (getprop (VObj bad) "data" = Ok VUndefined \/
            getprop (VObj bad) "data" = Ok VNull) as [-> | ->].
    { destruct Hdata as [H | [H | H]].
      - left. now apply getprop_missing.
      - left. now apply getprop_own.
      - right. now apply getprop_own. }
    all: reflexivity. }
  rewrite (omap_app_throw _ _ _ _ TypeError); [reflexivity| |exact Hthrow].
  now apply updated_node_hole_ok.
Qed.

Lemma saveWorkflow_input_node_without_data_witness :
  saveWorkflow (VStr "w")
    (VArr ([VNull; VObj Examples.llm_node]
           ++ VObj (<[ "id" := VStr "in" ]> {[ "type" := VStr "InputNode" ]})
           :: [VStr "anything"]))
    VUndefined (VObj Examples.variables) (VStr "flow") VNull
  = Ok [console_error TypeError].
Proof.
  apply saveWorkflow_input_node_without_data.
  - constructor; [now left|]. constructor; [|constructor].
    right. eexists. split; [reflexivity|].
    split; [eexists; reflexivity|]. split; [eexists; reflexivity|].
    split; [|reflexivity]. eexists. split; [reflexivity|].
    right. eexists. reflexivity.
  - split; [reflexivity|]. left. reflexivity.
Defined.

(** X19: a [null] or [undefined] entry of [nodes] is left out of the
    node records, so that a graph without edges is saved; with an edge, the
    search for the edge's source reads [id] of that entry, and the save is
    given up with a logged [TypeError]. *)
Theorem saveWorkflow_null_node
  (workflowID hole : value) (rest : list value) (e : gmap string value)
  (es : list value) (vars : gmap string value) (workflowName testInputs : value) :
  nullish hole = true -> Forall node_or_hole rest -> is_edge e ->
  (exists records,
     length records
     = length (List.filter (fun node => negb (nullish node)) rest) /\
     let document :=
       VObj (<[ "name" := workflowName ]>
            {[ "definition" :=
                 VObj (<[ "nodes" := VArr records ]>
                      (<[ "links" := VArr [] ]>
                      {[ "test_inputs" := testInputs ]})) ]}) in
     saveWorkflow workflowID (VArr (hole :: rest)) (VArr []) (VObj vars)
                  workflowName testInputs
     = Ok [console_log document; updateWorkflow workflowID document]) /\
  saveWorkflow workflowID (VArr (hole :: rest)) (VArr (VObj e :: es)) (VObj vars)
               workflowName testInputs
  = Ok [console_error TypeError].
Proof.
  intros Hhole Hrest ((s & Hs) & _).
  set (live := List.filter (fun node => negb (nullish node)) rest).
  assert (Hlive : all_nodes live).
  { unfold live. clear -Hrest.
    induction Hrest as [|v l [Hnull|(n & -> & Hn)] _ IH]; cbn [List.filter].
    - constructor.
    - now rewrite Hnull.
    - constructor; eauto. }
  pose proof (node_records_of_nodes vars live Hlive) as Hrec.
  split.
  - exists (map (saved_record vars) live). split; [apply length_map|]. cbv zeta.
    unfold saveWorkflow, updatedWorkflow. cbn [array_elems obind List.filter].
    rewrite Hhole. cbn [negb]. fold live.
    destruct (omap (updated_node (VObj vars)) live) as [us| |];
      cbn [obind] in *; [|discriminate..].
    rewrite Hrec. reflexivity.
  - unfold saveWorkflow, updatedWorkflow. cbn [array_elems obind List.filter].
    rewrite Hhole. cbn [negb]. fold live.
    destruct (omap (updated_node (VObj vars)) live) as [us| |];
      cbn [obind] in *; [|discriminate..].
    rewrite Hrec. cbn [obind omap]. unfold link_record.
    rewrite (getprop_own _ _ _ Hs). cbn [obind]. unfold find_node.
    cbn [array_find].
    assert (getprop hole "id" = Throw TypeError) as ->
      by (destruct hole; try discriminate; reflexivity).
    reflexivity.
Qed.

Lemma saveWorkflow_null_node_witness :
  (exists records,
     length records = 2 /\
     let document :=
       VObj (<[ "name" := VStr "flow" ]>
            {[ "definition" :=
                 VObj (<[ "nodes" := VArr records ]>
                      (<[ "links" := VArr [] ]>
                      {[ "test_inputs" := VNull ]})) ]}) in
     saveWorkflow (VStr "w") (VArr (VNull :: Examples.nodes)) (VArr [])
                  (VObj Examples.variables) (VStr "flow") VNull
     = Ok [console_log document; updateWorkflow (VStr "w") document]) /\
  saveWorkflow (VStr "w") (VArr (VNull :: Examples.nodes))
               (VArr (VObj (Examples.edge "in" "a" "llm" "x") :: []))
               (VObj Examples.variables) (VStr "flow") VNull
  = Ok [console_error TypeError].
Proof.
  apply (saveWorkflow_null_node (VStr "w") VNull Examples.nodes
           (Examples.edge "in" "a" "llm" "x") [] Examples.variables
           (VStr "flow") VNull).
  - reflexivity.
  - constructor; [|constructor; [|constructor]];
      right; eexists; (split; [reflexivity|]);
      (split; [eexists; reflexivity|]); (split; [eexists; reflexivity|]);
      (split; [|reflexivity]); eexists; (split; [reflexivity|]);
      right; eexists; reflexivity.
  - repeat split; eexists; reflexivity.
Defined.

(** ** The sidebar: few-shot examples *)

Lemma few_shot_examples_of (model : gmap string value) (l : list value) :
  examples_of model = Some l ->
  few_shot_examples (VObj model) = Ok l.
Proof.
  unfold examples_of, few_shot_examples. intros H.
  rewrite (optprop_object model) by reflexivity. cbn [obind chain_value].
  destruct (model !! "few_shot_examples") as [[| | | | | |l']|];
    try discriminate; injection H as <-; reflexivity.
Qed.

Lemma handleInputChange_plain lodash_set nodeID (model : gmap string value)
  (key : string) (v : value) :
  includes_char "." key = false ->
  handleInputChange lodash_set nodeID (VObj model) key v false
  = Ok (stored_effects nodeID model key v).
Proof. intros H. unfold handleInputChange. now rewrite H. Qed.

Lemma handleAddNewExample_effects
  (lodash_set : value -> string -> value -> value) (nodeID : string)
  (model : gmap string value) (l : list value) :
  examples_of model = Some l ->
  handleAddNewExample lodash_set nodeID (VObj model)
  = Ok (map model_effect
          (stored_effects nodeID model "few_shot_examples" (VArr (l ++ [empty_example])))
        ++ [setFewShotIndex (Z.of_nat (length l))]).
Proof.
  intros Hl.
  unfold handleAddNewExample. rewrite (few_shot_examples_of _ _ Hl).
  cbn [obind]. rewrite handleInputChange_plain by reflexivity. cbn [obind].
  do 3 f_equal. rewrite length_app. cbn [length]. f_equal. lia.
Qed.

(** X21: [handleAddNewExample] stores the examples there are, in their
    order, followed by one example [{input: '', output: ''}], and opens
    the editor on the index of that new example; a model without
    [few_shot_examples] counts as having none. *)
Theorem handleAddNewExample_appends
  (lodash_set : value -> string -> value -> value) (nodeID : string)
  (model : gmap string value) (l : list value) :
  examples_of model = Some l ->
  handleAddNewExample lodash_set nodeID (VObj model)
  = Ok (map model_effect
          (stored_effects nodeID model "few_shot_examples" (VArr (l ++ [empty_example])))
        ++ [setFewShotIndex (Z.of_nat (length l))]) /\
  (l ++ [empty_example]) !! length l = Some empty_example /\
  (forall i x, l !! i = Some x -> (l ++ [empty_example]) !! i = Some x).
Proof.
  intros Hl. split; [|split].
  - now apply handleAddNewExample_effects.
  - rewrite lookup_app_r by lia. now rewrite Nat.sub_diag.
  - intros i x Hi. now apply lookup_app_l_Some.
Qed.

Lemma handleAddNewExample_appends_witness :
  handleAddNewExample (fun o _ _ => o) "n1"
    (VObj {[ "few_shot_examples" := VArr [VStr "first"] ]})
  = Ok (map model_effect
          (stored_effects "n1" {[ "few_shot_examples" := VArr [VStr "first"] ]}
             "few_shot_examples" (VArr ([VStr "first"] ++ [empty_example])))
        ++ [setFewShotIndex 1]).
Proof.
  apply (handleAddNewExample_appends (fun o _ _ => o) "n1"
           {[ "few_shot_examples" := VArr [VStr "first"] ]} [VStr "first"]).
  reflexivity.
Defined.

Lemma splice_one_inside (i : nat) (l : list value) :
  splice_one (Z.of_nat i) l = take i l ++ drop (S i) l.
Proof.
  unfold splice_one.
  destruct (Z.ltb_spec (Z.of_nat i) 0) as [?|_]; [lia|].
  destruct (decide (i <= length l)) as [Hi|Hi].
  - now rewrite Z.min_l, Nat2Z.id by lia.
  - rewrite Z.min_r, Nat2Z.id by lia.
    rewrite !take_ge by lia. now rewrite !drop_ge by lia.
Qed.

(** X22: [handleDeleteExample(index)] stores the examples without the one
    at [index]: those before keep their place, those after move down by
    one, and the list is one shorter; with an index past the end the list
    is stored as it is. *)
Theorem handleDeleteExample_removes
  (lodash_set : value -> string -> value -> value) (nodeID : string)
  (model : gmap string value) (l : list value) (index : nat) :
  examples_of model = Some l ->
  exists l',
    handleDeleteExample lodash_set nodeID (VObj model) (Z.of_nat index)
    = Ok (stored_effects nodeID model "few_shot_examples" (VArr l')) /\
    (forall j, j < index -> l' !! j = l !! j) /\
    (forall j, index <= j -> l' !! j = l !! S j) /\
    (index < length l -> S (length l') = length l) /\
    (length l <= index -> l' = l).
Proof.
  intros Hl. exists (take index l ++ drop (S index) l).
  split; [|split; [|split; [|split]]].
  - unfold handleDeleteExample. rewrite (few_shot_examples_of _ _ Hl).
    cbn [obind]. rewrite handleInputChange_plain by reflexivity.
    now rewrite splice_one_inside.
  - intros j Hj. destruct (decide (index <= length l)).
    + rewrite lookup_app_l by (rewrite length_take; lia).
      now apply lookup_take_lt.
    + rewrite take_ge, drop_ge by lia. now rewrite app_nil_r.
  - intros j Hj. destruct (decide (index <= length l)).
    + rewrite lookup_app_r by (rewrite length_take; lia).
      rewrite length_take, lookup_drop. f_equal. lia.
    + rewrite take_ge, drop_ge by lia. rewrite app_nil_r.
      rewrite !lookup_ge_None_2 by lia. reflexivity.
  - intros Hi. rewrite length_app, length_take, length_drop. lia.
  - intros Hi. rewrite take_ge, drop_ge by lia. now rewrite app_nil_r.
Qed.

Lemma handleDeleteExample_removes_witness :
  exists l',
    handleDeleteExample (fun o _ _ => o) "n1"
      (VObj {[ "few_shot_examples" := VArr [VStr "a"; VStr "b"; VStr "c"] ]}) 1
    = Ok (stored_effects "n1" {[ "few_shot_examples" := VArr [VStr "a"; VStr "b"; VStr "c"] ]}
            "few_shot_examples" (VArr l')) /\
    l' !! 0 = Some (VStr "a") /\ l' !! 1 = Some (VStr "c") /\ length l' = 2.
Proof.
  destruct (handleDeleteExample_removes (fun o _ _ => o) "n1"
              {[ "few_shot_examples" := VArr [VStr "a"; VStr "b"; VStr "c"] ]}
              [VStr "a"; VStr "b"; VStr "c"] 1)
    as (l' & Hrun & Hlt & Hge & Hlen & _); [reflexivity|].
  exists l'. split; [exact Hrun|]. split; [|split].
  - rewrite Hlt by lia. reflexivity.
  - rewrite Hge by lia. reflexivity.
  - cbn [length] in Hlen. lia.
Defined.

(** X23: deleting, at the index that [handleAddNewExample] has opened
    the editor on, on the model that it has set, stores the model with
    [few_shot_examples] set to the examples there were before the example
    was added.  That is the model as it was before when it had the array
    [few_shot_examples]; when it had none (the entry missing, undefined or
    null) the stored model differs from it by the entry
    [few_shot_examples: []], and in nothing else. *)
Theorem handleDeleteExample_undoes_add
  (lodash_set : value -> string -> value -> value) (nodeID : string)
  (model : gmap string value) (l : list value) :
  examples_of model = Some l ->
  exists model' index restored,
    handleAddNewExample lodash_set nodeID (VObj model)
    = Ok [ model_effect (setDynamicModel (VObj model'));
           model_effect (dispatch (updateNodeData nodeID
                           (VObj {[ "config" := VObj model' ]})));
           setFewShotIndex index ] /\
    handleDeleteExample lodash_set nodeID (VObj model') index
    = Ok [ setDynamicModel (VObj restored);
           dispatch (updateNodeData nodeID
                       (VObj {[ "config" := VObj restored ]})) ] /\
    restored !! "few_shot_examples" = Some (VArr l) /\
    (forall k, k <> "few_shot_examples" -> restored !! k = model !! k) /\
    (model !! "few_shot_examples" = Some (VArr l) -> restored = model) /\
    (model !! "few_shot_examples" <> Some (VArr l) ->
     l = [] /\ restored <> model).
Proof.
  intros Hex.
  exists (<[ "few_shot_examples" := VArr (l ++ [empty_example]) ]> model),
         (Z.of_nat (length l)),
         (<[ "few_shot_examples" := VArr l ]> model).
  split; [|split; [|split; [|split; [|split]]]].
  - now rewrite (handleAddNewExample_effects lodash_set nodeID model l Hex).
  - unfold handleDeleteExample.
    rewrite (few_shot_examples_of _ (l ++ [empty_example]))
      by (unfold examples_of; now rewrite lookup_insert_eq).
    cbn [obind]. rewrite handleInputChange_plain by reflexivity.
    rewrite splice_one_inside.
    rewrite take_app_length, drop_ge, app_nil_r
      by (rewrite length_app; cbn [length]; lia).
    unfold stored_effects. now rewrite insert_insert_eq.
  - apply lookup_insert_eq.
  - intros k Hk. now rewrite lookup_insert_ne by congruence.
  - intros Hl. now apply insert_id.
  - intros Hl. split.
    + unfold examples_of in Hex.
      destruct (model !! "few_shot_examples") as [[| | | | | |l0]|];
        try discriminate Hex; now injection Hex as <-.
    + intros Heq. apply Hl. rewrite <- Heq. apply lookup_insert_eq.
Qed.

Lemma handleDeleteExample_undoes_add_witness :
  exists model' index restored,
    handleAddNewExample (fun o _ _ => o) "n1"
      (VObj {[ "few_shot_examples" := VArr [VStr "first"] ]})
    = Ok [ model_effect (setDynamicModel (VObj model'));
           model_effect (dispatch (updateNodeData "n1"
                           (VObj {[ "config" := VObj model' ]})));
           setFewShotIndex index ] /\
    handleDeleteExample (fun o _ _ => o) "n1" (VObj model') index
    = Ok [ setDynamicModel (VObj restored);
           dispatch (updateNodeData "n1"
                       (VObj {[ "config" := VObj restored ]})) ] /\
    restored !! "few_shot_examples" = Some (VArr [VStr "first"]) /\
    (forall k, k <> "few_shot_examples" ->
               restored !! k
               = ({[ "few_shot_examples" := VArr [VStr "first"] ]}
                    : gmap string value) !! k) /\
    (({[ "few_shot_examples" := VArr [VStr "first"] ]} : gmap string value)
       !! "few_shot_examples" = Some (VArr [VStr "first"]) ->
     restored = {[ "few_shot_examples" := VArr [VStr "first"] ]}) /\
    (({[ "few_shot_examples" := VArr [VStr "first"] ]} : gmap string value)
       !! "few_shot_examples" <> Some (VArr [VStr "first"]) ->
     [VStr "first"] = [] /\
     restored <> {[ "few_shot_examples" := VArr [VStr "first"] ]}).
Proof.
  apply (handleDeleteExample_undoes_add (fun o _ _ => o) "n1"
           {[ "few_shot_examples" := VArr [VStr "first"] ]} [VStr "first"]).
  reflexivity.
Defined.

(** ** The sidebar: one change after the other *)

Lemma handleInputChange_after
  (lodash_set : value -> string -> value -> value) (nodeID : string)
  (model : gmap string value) (k : string) (v : value) (s : bool) :
  includes_char "." k = false ->
  exists e,
    handleInputChange lodash_set nodeID (VObj model) k v s = Ok e /\
    forall prev, model_after prev e = VObj (<[k := v]> model).
Proof.
  intros H. unfold handleInputChange. rewrite H. cbn [spread obind].
  eexists. split; [reflexivity|]. intros prev. now destruct s.
Qed.

(** X20: two calls of [handleInputChange] with keys that have no dot,
    the second on the model that the first has set: the second value is
    stored under its key, the first value stays under its key when the
    keys differ, every other field of the model is untouched, and with
    different keys the order of the two calls makes no difference to the
    model. *)
Theorem handleInputChange_twice
  (lodash_set : value -> string -> value -> value) (nodeID : string)
  (model : gmap string value) (k1 k2 : string) (v1 v2 : value) (s1 s2 : bool) :
  includes_char "." k1 = false -> includes_char "." k2 = false ->
  exists e1 e2 m,
    handleInputChange lodash_set nodeID (VObj model) k1 v1 s1 = Ok e1 /\
    handleInputChange lodash_set nodeID (model_after (VObj model) e1) k2 v2 s2
    = Ok e2 /\
    model_after (model_after (VObj model) e1) e2 = VObj m /\
    m !! k2 = Some v2 /\
    (k1 <> k2 -> m !! k1 = Some v1) /\
    (forall k, k <> k1 -> k <> k2 -> m !! k = model !! k) /\
    (k1 <> k2 ->
     exists e1' e2',
       handleInputChange lodash_set nodeID (VObj model) k2 v2 s2 = Ok e1' /\
       handleInputChange lodash_set nodeID (model_after (VObj model) e1')
                         k1 v1 s1 = Ok e2' /\
       model_after (model_after (VObj model) e1') e2' = VObj m).
Proof.
  intros H1 H2.
  destruct (handleInputChange_after lodash_set nodeID model k1 v1 s1 H1)
    as (e1 & He1 & Hm1).
  destruct (handleInputChange_after lodash_set nodeID (<[k1 := v1]> model)
              k2 v2 s2 H2) as (e2 & He2 & Hm2).
  exists e1, e2, (<[k2 := v2]> (<[k1 := v1]> model)).
  split; [exact He1|]. rewrite Hm1. split; [exact He2|].
  split; [apply Hm2|]. split; [apply lookup_insert_eq|]. split; [|split].
  - intros Hne. rewrite lookup_insert_ne by congruence. apply lookup_insert_eq.
  - intros k Hk1 Hk2. now rewrite !lookup_insert_ne by congruence.
  - intros Hne.
    destruct (handleInputChange_after lodash_set nodeID model k2 v2 s2 H2)
      as (e1' & He1' & Hm1').
    destruct (handleInputChange_after lodash_set nodeID (<[k2 := v2]> model)
                k1 v1 s1 H1) as (e2' & He2' & Hm2').
    exists e1', e2'. split; [exact He1'|]. rewrite Hm1'. split; [exact He2'|].
    rewrite Hm2'. f_equal. now apply insert_insert_ne.
Qed.

Lemma handleInputChange_twice_witness :
  exists e1 e2 m,
    handleInputChange (fun o _ _ => o) "n1" (VObj {[ "model" := VStr "a" ]})
                      "temperature" (VZ 1) true = Ok e1 /\
    handleInputChange (fun o _ _ => o) "n1"
                      (model_after (VObj {[ "model" := VStr "a" ]}) e1)
                      "model" (VStr "b") false = Ok e2 /\
    model_after (model_after (VObj {[ "model" := VStr "a" ]}) e1) e2 = VObj m /\
    m !! "model" = Some (VStr "b") /\ m !! "temperature" = Some (VZ 1).
Proof.
  destruct (handleInputChange_twice (fun o _ _ => o) "n1"
              {[ "model" := VStr "a" ]} "temperature" "model"
              (VZ 1) (VStr "b") true false eq_refl eq_refl)
    as (e1 & e2 & m & H1 & H2 & Hm & Hk2 & Hk1 & _).
  exists e1, e2, m. repeat (split; [assumption|]). now apply Hk1.
Defined.

(** ** The sidebar: the paths of fields *)

Lemma split_dot_nonempty (s : string) : split_dot s <> [].
Proof.
  induction s as [|c s IH]; [discriminate|].
  cbn [split_dot]. destruct (Ascii.eqb c "."); [discriminate|].
  destruct (split_dot s); discriminate.
Qed.

Lemma split_dot_append (a b : string) :
  split_dot (a +:+ "." +:+ b) = split_dot a ++ split_dot b.
Proof.
  induction a as [|c a IH].
  - reflexivity.
  - rewrite append_cons. cbn [split_dot]. rewrite IH.
    destruct (Ascii.eqb c "."); [reflexivity|].
    destruct (split_dot a) as [|seg rest] eqn:E; [|reflexivity].
    now apply split_dot_nonempty in E.
Qed.

Lemma split_dot_segment (s : string) :
  includes_char "." s = false -> split_dot s = [s].
Proof.
  induction s as [|c s IH]; [reflexivity|].
  cbn [includes_char split_dot]. intros [Hc Hs]%orb_false_iff.
  rewrite Ascii.eqb_sym, Hc. now rewrite IH.
Qed.

Lemma join_dot_cons (x y : string) (l : list string) :
  join_dot (x :: y :: l) = x +:+ "." +:+ join_dot (y :: l).
Proof. reflexivity. Qed.

(** joining the segments of a path gives the path back; no segment has a
    dot, and there is one segment more than there are dots *)
Lemma join_split_dot (s : string) :
  join_dot (split_dot s) = s /\
  Forall (fun segment => includes_char "." segment = false) (split_dot s) /\
  S (length (split_dot s))
  = length (List.filter (Ascii.eqb ".") (list_ascii_of_string s)) + 2.
Proof.
  induction s as [|c s (IH1 & IH2 & IH3)].
  - repeat split. repeat constructor.
  - cbn [split_dot list_ascii_of_string List.filter].
    destruct (Ascii.eqb_spec c ".") as [->|Hc].
    + rewrite Ascii.eqb_refl. split; [|split].
      * destruct (split_dot s) as [|seg rest] eqn:E;
          [now apply split_dot_nonempty in E|].
        rewrite join_dot_cons, IH1. reflexivity.
      * constructor; [reflexivity|exact IH2].
      * cbn [length]. lia.
    + replace (Ascii.eqb "." c) with false
        by (symmetry; apply Ascii.eqb_neq; congruence).
      destruct (split_dot s) as [|seg rest] eqn:E;
        [now apply split_dot_nonempty in E|].
      split; [|split].
      * destruct rest as [|seg' rest].
        -- cbn [join_dot] in *. now rewrite IH1.
        -- rewrite join_dot_cons in *. rewrite append_cons. now rewrite IH1.
      * inversion IH2 as [|? ? Hseg Hrest]; subst. constructor; [|exact Hrest].
        cbn [includes_char]. rewrite Hseg.
        replace (Ascii.eqb "." c) with false
          by (symmetry; apply Ascii.eqb_neq; congruence).
        reflexivity.
      * cbn [length] in *. lia.
Qed.

Lemma split_dot_config (nodeType key : string) :
  includes_char "." key = false ->
  slice_last_two (split_dot ((nodeType +:+ ".config") +:+ "." +:+ key))
  = ["config"; key].
Proof.
  intros Hkey. rewrite split_dot_append, (split_dot_segment key Hkey).
  change (nodeType +:+ ".config") with (nodeType +:+ "." +:+ "config").
  rewrite split_dot_append. change (split_dot "config") with ["config"].
  unfold slice_last_two. rewrite <- app_assoc.
  rewrite length_app. cbn [length app].
  replace (length (split_dot nodeType) + 2 - 2) with (length (split_dot nodeType))
    by lia.
  now rewrite drop_app_length.
Qed.

Lemma truthy_config_path (nodeType : string) :
  truthy (VStr (nodeType +:+ ".config")) = true.
Proof.
  cbn [truthy]. apply negb_true_iff, String.eqb_neq. intros H.
  apply (f_equal String.length) in H. rewrite length_append in H.
  cbn in H. lia.
Qed.

(** X25: the slider of a field [key] that [renderConfigFields] renders
    (with the parent path [`${nodeType}.config`], whatever the node type)
    stores the value under [key] itself in the local model, and hands the
    model to the debounced dispatch, not to an immediate one. *)
Theorem slider_onChange_config_field
  (lodash_set : value -> string -> value -> value) (nodeID : string)
  (model : gmap string value) (nodeType key : string) (newValue : value) :
  includes_char "." key = false ->
  slider_onChange lodash_set nodeID (VObj model)
                  (nodeType +:+ ".config") key newValue
  = Ok [ setDynamicModel (VObj (<[key := newValue]> model));
         debouncedDispatch nodeID (VObj (<[key := newValue]> model)) ].
Proof.
  intros Hkey. unfold slider_onChange.
  rewrite truthy_config_path, (split_dot_config nodeType key Hkey).
  cbn [String.eqb Ascii.eqb Bool.eqb]. unfold handleInputChange.
  now rewrite Hkey.
Qed.

Lemma slider_onChange_config_field_witness :
  slider_onChange (fun o _ _ => o) "n1" (VObj {[ "temperature" := VZ 1 ]})
                  ("LLM.v2" +:+ ".config") "temperature" (VZ 0)
  = Ok [ setDynamicModel (VObj {[ "temperature" := VZ 0 ]});
         debouncedDispatch "n1" (VObj {[ "temperature" := VZ 0 ]}) ].
Proof.
  rewrite (slider_onChange_config_field (fun o _ _ => o) "n1"
             {[ "temperature" := VZ 1 ]} "LLM.v2" "temperature" (VZ 0) eq_refl).
  reflexivity.
Defined.

(** X26: the select of an enumerated field [key] that
    [renderConfigFields] renders calls [handleInputChange] with the dotted
    key [config.key]: the value goes through lodash's [set] at that path of
    the model, which is the configuration itself, and is dispatched at
    once. *)
Theorem enumSelect_onChange_config_field
  (lodash_set : value -> string -> value -> value) (nodeID : string)
  (model : gmap string value) (nodeType key text : string) :
  includes_char "." key = false ->
  enumSelect_onChange lodash_set nodeID (VObj model)
                      (renderField_fullPath (nodeType +:+ ".config") key) text
  = Ok [ setDynamicModel
           (lodash_set (VObj model) ("config." +:+ key) (VStr text));
         dispatch (updateNodeData nodeID
           (VObj {[ "config" :=
              lodash_set (VObj model) ("config." +:+ key) (VStr text) ]})) ].
Proof.
  intros Hkey. unfold enumSelect_onChange, renderField_fullPath.
  rewrite truthy_config_path.
  replace (((nodeType +:+ ".config") +:+ ".") +:+ key)
    with ((nodeType +:+ ".config") +:+ "." +:+ key)
    by (now rewrite !append_assoc).
  rewrite (split_dot_config nodeType key Hkey).
  cbn [join_dot]. unfold handleInputChange, updateNestedModel, cloneDeep.
  change (includes_char "." ("config" +:+ "." +:+ key)) with true.
  reflexivity.
Qed.

Lemma enumSelect_onChange_config_field_witness :
  enumSelect_onChange (fun o _ _ => o) "n1" (VObj {[ "model" := VStr "a" ]})
                      (renderField_fullPath ("LLM" +:+ ".config") "model") "b"
  = Ok [ setDynamicModel (VObj {[ "model" := VStr "a" ]});
         dispatch (updateNodeData "n1"
           (VObj {[ "config" := VObj {[ "model" := VStr "a" ]} ]})) ].
Proof.
  rewrite (enumSelect_onChange_config_field (fun o _ _ => o) "n1"
             {[ "model" := VStr "a" ]} "LLM" "model" "b" eq_refl).
  reflexivity.
Defined.

Lemma count_dots_append (a b : string) :
  count_dots (a +:+ b) = count_dots a + count_dots b.
Proof.
  induction a as [|c a IH]; [reflexivity|].
  rewrite append_cons. cbn [count_dots]. rewrite IH. lia.
Qed.

Lemma count_dots_segment (s : string) :
  includes_char "." s = false -> count_dots s = 0.
Proof.
  induction s as [|c s IH]; [reflexivity|].
  cbn [includes_char count_dots]. intros [Hc Hs]%orb_false_iff.
  rewrite Ascii.eqb_sym, Hc. now rewrite IH.
Qed.

Lemma count_dots_join (l : list string) :
  Forall (fun segment => includes_char "." segment = false) l ->
  count_dots (join_dot l) = length l - 1.
Proof.
  induction 1 as [|x l Hx Hl IH]; [reflexivity|].
  destruct l as [|y l].
  - cbn [join_dot length]. now rewrite count_dots_segment.
  - rewrite join_dot_cons, !count_dots_append, IH, count_dots_segment
      by assumption.
      cbn [count_dots length Ascii.eqb Bool.eqb]. lia.
Qed.

Lemma join_dot_app (l1 l2 : list string) :
  l2 <> [] ->
  exists prefix, join_dot (l1 ++ l2) = prefix +:+ join_dot l2.
Proof.
  intros Hl2. induction l1 as [|x l1 (prefix & IH)].
  - now exists "".
  - destruct (l1 ++ l2) as [|y l] eqn:E.
    + destruct l1, l2; try discriminate. congruence.
    + exists (x +:+ "." +:+ prefix). cbn [app]. rewrite E, join_dot_cons, IH.
      now rewrite !append_assoc.
Qed.

(** X24: [fullPath.split('.').slice(-2).join('.')], the key that
    [renderEnumSelect] hands to [handleInputChange] and the slider builds
    upon, is a suffix of the path with at most one dot; it is the path
    itself when the path has at most one dot, and has exactly one dot
    otherwise. *)
Theorem lastTwoDots_suffix (path : string) :
  let lastTwoDots := join_dot (slice_last_two (split_dot path)) in
  (exists prefix, path = prefix +:+ lastTwoDots) /\
  count_dots lastTwoDots <= 1 /\
  (count_dots path <= 1 -> lastTwoDots = path) /\
  (2 <= count_dots path -> count_dots lastTwoDots = 1).
Proof.
  cbv zeta. destruct (join_split_dot path) as (Hjoin & Hsegs & Hlen).
  set (l := split_dot path) in *.
  assert (Hdots : count_dots path = length l - 1).
  { rewrite <- Hjoin at 1. now apply count_dots_join. }
  assert (Hne : l <> []) by apply split_dot_nonempty.
  unfold slice_last_two.
  assert (Hlast : length (drop (length l - 2) l) = Nat.min 2 (length l)).
  { rewrite length_drop. destruct l; [congruence|]. cbn [length]. lia. }
  split; [|split; [|split]].
  - destruct (join_dot_app (take (length l - 2) l) (drop (length l - 2) l))
      as (prefix & Hp).
    { intros H. rewrite H in Hlast. destruct l; [congruence|]. cbn in Hlast. lia. }
    rewrite take_drop in Hp. exists prefix. now rewrite <- Hp.
  - rewrite count_dots_join by now apply Forall_drop. lia.
  - intros Hle. replace (length l - 2) with 0; [exact Hjoin|].
    destruct l; [congruence|]. cbn [length] in *. lia.
  - intros Hge. rewrite count_dots_join by now apply Forall_drop. lia.
Qed.

(** ** The sidebar: looking a template up *)

Lemma named_is_truthy (type : string) (x : value) :
  (let* name := getprop x "name" in strict_eq name (VStr type)) = Ok true ->
  truthy x = true.
Proof.
  destruct x as [| |b|n|s|m|l]; cbn; try discriminate; reflexivity.
Qed.

Lemma array_find_named_app (type : string) (l1 l2 : list value) :
  let pred := fun node => let* name := getprop node "name" in
                          strict_eq name (VStr type) in
  array_find pred (l1 ++ l2)
  = match array_find pred l1 with
    | Ok x => if truthy x then Ok x else array_find pred l2
    | r => r
    end.
Proof.
  cbv zeta. induction l1 as [|y l1 IH]; [reflexivity|].
  cbn [app array_find].
  destruct (let* name := getprop y "name" in strict_eq name (VStr type))
    as [[]| |] eqn:E; cbn [obind]; try reflexivity.
  - now rewrite (named_is_truthy type y E).
  - exact IH.
Qed.

(** X28: on a catalog whose categories are arrays, the selector of
    [NewNodeSidebar] ([Object.values(...).flat().find(...)]) and
    [findNodeSchema] of [NodeSidebar] (the loop of [createNode]) find the
    same template, or throw alike; where the one returns [undefined] the
    other returns [null]. *)
Theorem selectNodeType_findNodeSchema
  (nodeTypes : gmap string value) (type : string) :
  categories_are_arrays (map_to_list nodeTypes).*2 ->
  selectNodeType (VObj nodeTypes) (VStr type)
  = null_as_undefined (findNodeSchema (VObj nodeTypes) type).
Proof.
  unfold selectNodeType, findNodeSchema. cbn [object_values for_in_values obind].
  generalize ((map_to_list nodeTypes).*2). intros categories.
  induction 1 as [|c categories (templates & ->) _ IH]; [reflexivity|].
  cbn [array_flat flat_map find_node_type find_by_name].
  rewrite (array_find_named_app type). fold (array_flat categories).
  destruct (array_find _ templates) as [found| |]; cbn [obind]; try reflexivity.
  destruct (truthy found) eqn:Hfound; [|exact IH].
  now destruct found.
Qed.

Lemma selectNodeType_findNodeSchema_witness :
  selectNodeType Examples.catalog_with_group (VStr "group")
  = null_as_undefined (findNodeSchema Examples.catalog_with_group "group") /\
  selectNodeType Examples.catalog_with_group (VStr "group")
  = Ok (VObj Examples.group_template).
Proof.
  split; [|reflexivity].
  apply (selectNodeType_findNodeSchema
           (<[ "llm" := VArr [VObj Examples.llm_template] ]>
              {[ "layout" := VArr [VObj Examples.group_template] ]}) "group").
  unfold categories_are_arrays.
  replace (map_to_list _).*2
    with [VArr [VObj Examples.group_template]; VArr [VObj Examples.llm_template]]
    by (vm_compute; reflexivity).
  constructor; [eexists; reflexivity|].
  constructor; [eexists; reflexivity|constructor].
Defined.
